(** * ZParcel: a shallow embedding of the parcel store and the page parser

    The development follows the sources:
    - [zparcel4parser.h] / [zparcel4parser.cpp]: the page-oriented parser
      [ZParcel4Parser] (head page codec, page insertion, freelist, the field
      and record operations), embedded function by function;
    - [zparcel.h]: the declarations of the object store [ZParcel]
      (enumerations, record sizes, the bounded window accessor), embedded as
      declared.  The bodies of its member functions are in [zparcel.cpp],
      which is not among the sources; the store behind the declarations is
      modelled from the specification, and marked so.

    Fixed-width unsigned integers ([zu8], [zu32], [zu64]) are integers of [Z]
    with the wrap-around written out; file contents are lists of bytes.
    Definitions come first, properties after them. *)

From Stdlib Require Import ZArith List Lia Bool.
From Stdlib Require Import Strings.Byte.
From Stdlib Require Strings.Ascii Strings.String.
Import ListNotations.
Import Ascii.AsciiSyntax String.StringSyntax.
Delimit Scope char_scope with char.
Delimit Scope string_scope with string.
Bind Scope string_scope with String.string.
Open Scope Z_scope.

(** ** Machine integers *)

Definition ZU8_MOD  : Z := 2 ^ 8.
Definition ZU32_MOD : Z := 2 ^ 32.
Definition ZU64_MOD : Z := 2 ^ 64.

Definition zu8  (x : Z) : Z := x mod ZU8_MOD.
Definition zu32 (x : Z) : Z := x mod ZU32_MOD.
Definition zu64 (x : Z) : Z := x mod ZU64_MOD.

Definition is_zu8  (x : Z) : Prop := 0 <= x < ZU8_MOD.
Definition is_zu32 (x : Z) : Prop := 0 <= x < ZU32_MOD.
Definition is_zu64 (x : Z) : Prop := 0 <= x < ZU64_MOD.

(** Modelled from the spec: ZU32_MAX, a constant of the LibChaos headers that
    are not among the sources; the largest value of an unsigned 32-bit
    integer. *)
Definition ZU32_MAX : Z := ZU32_MOD - 1.

(** The C macro [MIN]. *)
Definition MIN (a b : Z) : Z := if a <? b then a else b.

(** ** Bytes and binary buffers ([zbyte], [ZBinary]) *)

Definition ZBinary : Type := list byte.

Definition byte_of_Z (z : Z) : byte :=
  match Byte.of_N (Z.to_N (z mod 256)) with
  | Some b => b
  | None => x00
  end.

Definition Z_of_byte (b : byte) : Z := Z.of_N (Byte.to_N b).

Definition size (b : ZBinary) : Z := Z.of_nat (length b).

Definition ZBinary_eqb (a b : ZBinary) : bool :=
  if list_eq_dec Byte.byte_eq_dec a b then true else false.

(** [ZBinary::fill(0, n)] on an empty buffer. *)
Definition zero_fill (n : Z) : ZBinary := repeat x00 (Z.to_nat n).

(** ** The byte container

    Modelled from the spec: the external block accessor (the LibChaos class
    [ZFile], not among the sources), at the interface the spec gives it:
    seek to a position, read up to [n] bytes from the position, write bytes
    at the position, length.  A container that is not open transfers no
    bytes. *)
Module ZFile.

Record t : Type := mk {
  isOpen : bool;
  bytes : ZBinary;
  pos : Z
}.

Definition setPos (f : t) (p : Z) : t := mk (isOpen f) (bytes f) p.

Definition fileSize (f : t) : Z := size (bytes f).

(** [read(buf, max)]: the bytes transferred, at most [max], and the file
    with its position advanced past them. *)
Definition read (f : t) (max : Z) : ZBinary * t :=
  if isOpen f then
    let d := firstn (Z.to_nat max) (skipn (Z.to_nat (pos f)) (bytes f)) in
    (d, mk true (bytes f) (pos f + size d))
  else ([], f).

(** The file contents after [data] is stored at offset [p]: a position
    past the end leaves a gap of zero bytes. *)
Definition store (old : ZBinary) (p : nat) (data : ZBinary) : ZBinary :=
  firstn p old ++ repeat x00 (p - length old) ++ data
    ++ skipn (p + length data) old.

(** [write(buf)]: the number of bytes transferred and the file after. *)
Definition write (f : t) (data : ZBinary) : Z * t :=
  if isOpen f then
    (size data,
     mk true (store (bytes f) (Z.to_nat (pos f)) data) (pos f + size data))
  else (0, f).

Definition atEnd (f : t) : bool := fileSize f <=? pos f.

End ZFile.

(** ** The file codec

    The conversions between integers and their file representation
    ([toFile8Bits], [toFile32Bits], [toFile64Bits], [fromFile8Bits],
    [fromFile32Bits] of [ZParcelConvert]) are declared in [main.h], which is
    not among the sources: they are taken as an interface, with the laws a
    codec of fixed-width fields obeys. *)
Class FileCodec : Type := {
  toFile8Bits : Z -> ZBinary;
  toFile32Bits : Z -> ZBinary;
  toFile64Bits : Z -> ZBinary;
  fromFile8Bits : ZBinary -> Z;
  fromFile32Bits : ZBinary -> Z;
  toFile8Bits_size : forall v, size (toFile8Bits v) = 1;
  toFile32Bits_size : forall v, size (toFile32Bits v) = 4;
  fromFile8Bits_toFile8Bits :
    forall v, is_zu8 v -> fromFile8Bits (toFile8Bits v) = v;
  fromFile32Bits_toFile32Bits :
    forall v, is_zu32 v -> fromFile32Bits (toFile32Bits v) = v
}.

(** A big-endian codec: one instance of the interface. *)
Fixpoint be_encode (n : nat) (v : Z) : ZBinary :=
  match n with
  | O => []
  | S k => byte_of_Z (Z.shiftr v (8 * Z.of_nat k)) :: be_encode k v
  end.

Fixpoint be_decode_acc (acc : Z) (b : ZBinary) : Z :=
  match b with
  | [] => acc
  | x :: r => be_decode_acc (acc * 256 + Z_of_byte x) r
  end.

Definition be_decode (b : ZBinary) : Z := be_decode_acc 0 b.

(** ** Unique identifiers ([ZUID])

    Modelled from the spec: the class [ZUID] and [ZUID_SIZE] of [zuid.h] (a
    LibChaos header that is not among the sources).  A UID is a 128-bit
    value; its raw form is 16 bytes, compared byte-wise as an unsigned
    big-endian integer. *)
Definition ZUID : Type := Z.
Definition ZUID_SIZE : Z := 16.
Definition ZUID_raw (u : ZUID) : ZBinary := be_encode 16 u.
Definition ZUID_of_raw (b : ZBinary) : ZUID := be_decode b.

(** The constants of [ZParcelTypes] ([main.h], not among the sources) that the
    parser names: the null field id and the null field type. *)
Class ZParcelTypes : Type := {
  FIELD_NULL : Z;
  nullfield : Z
}.

(** The static tables of the parser ([fieldnametable], [fieldmap],
    [fieldtypes]), which are not among the sources: from a field type name to
    the field type, from a field type to its file id and name, from a file
    id to the field type. *)
Class FieldTables : Type := {
  fieldnametable : ZBinary -> Z;
  fieldmap : Z -> Z * ZBinary;
  fieldtypes : Z -> Z
}.

(** ** The page-oriented parser ([ZParcel4Parser])

    The class of [zparcel4parser.h] with the member functions of
    [zparcel4parser.cpp].  Messages to the log ([LOG], [ELOG]) are not part of
    the state and are left out. *)
Module ZParcel4Parser.

(** [#define VERSION_4_SIG { 'P',143,'R',128,144,'L', 1 , 4 }] *)
Definition VERSION_4_SIG : ZBinary :=
  [x50; x8f; x52; x80; x90; x4c; x01; x04].
Definition SIG_SIZE : Z := 8.
Definition DEFAULT_PAGE_SIZE : Z := 10.
Definition DEFAULT_MAX_PAGES : Z := 64 * 1024.

Definition FREEPAGE : Z := 0.
Definition FIELDPAGE : Z := 1.
Definition FREELISTPAGE : Z := 2.
Definition INDEXPAGE : Z := 3.
Definition RECORDPAGE : Z := 4.
Definition BLOBPAGE : Z := 5.
Definition HISTORYPAGE : Z := 6.
Definition HEADPAGE : Z := 80.

Inductive pagetype : Type :=
  | freepage | fieldpage | freelistpage | indexpage
  | recordpage | blobpage | historypage | headpage.

Definition ZString : Type := ZBinary.
Record ZPath : Type := { str : ZString }.

Record Field : Type := { id : Z; data : ZBinary }.
Definition FieldList : Type := list Field.

Record ParcelPage : Type := {
  _page : Z;
  _pp_pagesize : Z;
  _rwpos : Z
}.

(** The data members of the class; [_file] is the file the parser was given
    a pointer to. *)
Record t : Type := mk {
  _file : ZFile.t;
  _init : bool;
  _pagesize : Z;
  _pagecount : Z;
  _pagepower : Z;
  _maxpages : Z;
  _freelistpage : Z;
  _fieldpage : Z;
  _indexpage : Z;
  _recordpage : Z;
  _pagecache : list (Z * ParcelPage)
}.

Definition with_file (f : ZFile.t) (s : t) : t :=
  mk f (_init s) (_pagesize s) (_pagecount s) (_pagepower s) (_maxpages s)
     (_freelistpage s) (_fieldpage s) (_indexpage s) (_recordpage s)
     (_pagecache s).
Definition with_init (b : bool) (s : t) : t :=
  mk (_file s) b (_pagesize s) (_pagecount s) (_pagepower s) (_maxpages s)
     (_freelistpage s) (_fieldpage s) (_indexpage s) (_recordpage s)
     (_pagecache s).
Definition with_pagesize (v : Z) (s : t) : t :=
  mk (_file s) (_init s) v (_pagecount s) (_pagepower s) (_maxpages s)
     (_freelistpage s) (_fieldpage s) (_indexpage s) (_recordpage s)
     (_pagecache s).
Definition with_pagepower (v : Z) (s : t) : t :=
  mk (_file s) (_init s) (_pagesize s) (_pagecount s) v (_maxpages s)
     (_freelistpage s) (_fieldpage s) (_indexpage s) (_recordpage s)
     (_pagecache s).
Definition with_maxpages (v : Z) (s : t) : t :=
  mk (_file s) (_init s) (_pagesize s) (_pagecount s) (_pagepower s) v
     (_freelistpage s) (_fieldpage s) (_indexpage s) (_recordpage s)
     (_pagecache s).
Definition with_freelistpage (v : Z) (s : t) : t :=
  mk (_file s) (_init s) (_pagesize s) (_pagecount s) (_pagepower s)
     (_maxpages s) v (_fieldpage s) (_indexpage s) (_recordpage s)
     (_pagecache s).
Definition with_fieldpage (v : Z) (s : t) : t :=
  mk (_file s) (_init s) (_pagesize s) (_pagecount s) (_pagepower s)
     (_maxpages s) (_freelistpage s) v (_indexpage s) (_recordpage s)
     (_pagecache s).
Definition with_indexpage (v : Z) (s : t) : t :=
  mk (_file s) (_init s) (_pagesize s) (_pagecount s) (_pagepower s)
     (_maxpages s) (_freelistpage s) (_fieldpage s) v (_recordpage s)
     (_pagecache s).
Definition with_recordpage (v : Z) (s : t) : t :=
  mk (_file s) (_init s) (_pagesize s) (_pagecount s) (_pagepower s)
     (_maxpages s) (_freelistpage s) (_fieldpage s) (_indexpage s) v
     (_pagecache s).

(** Member functions are state transformers over the object: the result of
    the call and the object after it. *)
Definition M (A : Type) : Type := t -> A * t.
Definition ret {A : Type} (a : A) : M A := fun s => (a, s).
Definition bind {A B : Type} (c : M A) (k : A -> M B) : M B :=
  fun s => let (a, s') := c s in k a s'.
Definition gets {A : Type} (f : t -> A) : M A := fun s => (f s, s).
Definition modify (f : t -> t) : M unit := fun s => (tt, f s).

Declare Scope parser_scope.
Delimit Scope parser_scope with parser.
Notation "x <- c ;; k" := (bind c (fun x => k))
  (at level 61, c at next level, right associativity) : parser_scope.
Notation "c ;; k" := (bind c (fun _ => k))
  (at level 61, right associativity) : parser_scope.
Local Open Scope parser_scope.

(** Calls through the [_file] pointer. *)
Definition file_setPos (p : Z) : M unit :=
  modify (fun s => with_file (ZFile.setPos (_file s) p) s).
Definition file_fileSize : M Z := gets (fun s => ZFile.fileSize (_file s)).
Definition file_read (max : Z) : M ZBinary :=
  fun s => let (d, f) := ZFile.read (_file s) max in (d, with_file f s).
Definition file_write (d : ZBinary) : M Z :=
  fun s => let (n, f) := ZFile.write (_file s) d in (n, with_file f s).

Section Members.
Context {codec : FileCodec} {types : ZParcelTypes}.

(** [(zu32)1 << _pagepower], kept to 32 bits.  (C++ leaves a shift by 32
    or more undefined; the model yields 0 there.) *)
Definition setPageSize (power : Z) : M unit :=
  init <- gets _init ;;
  if negb init then
    modify (with_pagepower power) ;;
    pp <- gets _pagepower ;;
    modify (with_pagesize (zu32 (Z.shiftl 1 pp)))
  else ret tt.

(** [writeHeadPage]: from offset 0, the signature, the page size power in
    8 bits, and five 32-bit numbers; false at the first short write. *)
Definition writeHeadPage : M bool :=
  file_setPos 0 ;;
  let sig := VERSION_4_SIG in
  n <- file_write sig ;;
  if negb (n =? SIG_SIZE) then ret false else
  v <- gets _pagepower ;;
  n <- file_write (toFile8Bits v) ;;
  if negb (n =? 1) then ret false else
  v <- gets _maxpages ;;
  n <- file_write (toFile32Bits v) ;;
  if negb (n =? 4) then ret false else
  v <- gets _freelistpage ;;
  n <- file_write (toFile32Bits v) ;;
  if negb (n =? 4) then ret false else
  v <- gets _fieldpage ;;
  n <- file_write (toFile32Bits v) ;;
  if negb (n =? 4) then ret false else
  v <- gets _indexpage ;;
  n <- file_write (toFile32Bits v) ;;
  if negb (n =? 4) then ret false else
  v <- gets _recordpage ;;
  n <- file_write (toFile32Bits v) ;;
  if negb (n =? 4) then ret false else
  ret true.

(** [loadHeadPage]: from offset 0, the signature is read and compared, then
    the six values are read in the order they were written; false at the
    first short read or on a signature that differs. *)
Definition loadHeadPage : M bool :=
  file_setPos 0 ;;
  sig <- file_read SIG_SIZE ;;
  if negb (size sig =? SIG_SIZE) then ret false else
  if negb (ZBinary_eqb sig VERSION_4_SIG) then ret false else
  nums <- file_read 1 ;;
  if negb (size nums =? 1) then ret false else
  modify (with_pagepower (fromFile8Bits nums)) ;;
  pp <- gets _pagepower ;;
  setPageSize pp ;;
  nums <- file_read 4 ;;
  if negb (size nums =? 4) then ret false else
  modify (with_maxpages (fromFile32Bits nums)) ;;
  nums <- file_read 4 ;;
  if negb (size nums =? 4) then ret false else
  modify (with_freelistpage (fromFile32Bits nums)) ;;
  nums <- file_read 4 ;;
  if negb (size nums =? 4) then ret false else
  modify (with_fieldpage (fromFile32Bits nums)) ;;
  nums <- file_read 4 ;;
  if negb (size nums =? 4) then ret false else
  modify (with_indexpage (fromFile32Bits nums)) ;;
  nums <- file_read 4 ;;
  if negb (size nums =? 4) then ret false else
  modify (with_recordpage (fromFile32Bits nums)) ;;
  ret true.

(** The constructor: [_init(false)] and the default options, on the given
    file.  [_pagecount] is not initialized; it has the value found. *)
Definition new (file : ZFile.t) (pagecount : Z) : t :=
  let s := mk file false 0 pagecount 0 0 0 0 0 0 [] in
  let s := snd (setPageSize DEFAULT_PAGE_SIZE s) in
  let s := with_maxpages DEFAULT_MAX_PAGES s in
  let s := with_freelistpage 0 s in
  let s := with_fieldpage 0 s in
  let s := with_indexpage 0 s in
  with_recordpage 0 s.

(** [create] and [open]: [_init] is cleared, and set again only if the head
    page was written, respectively loaded. *)
Definition create : M bool :=
  modify (with_init false) ;;
  ok <- writeHeadPage ;;
  if negb ok then ret false else
  modify (with_init true) ;;
  ret true.

Definition open : M bool :=
  modify (with_init false) ;;
  ok <- loadHeadPage ;;
  if negb ok then ret false else
  modify (with_init true) ;;
  ret true.

Definition setMaxPages (pages : Z) : M unit :=
  modify (with_maxpages pages) ;;
  init <- gets _init ;;
  if init then (writeHeadPage ;; ret tt) else ret tt.

(** The field and record operations. *)
Definition getFieldId (name : ZString) : M Z := ret 0.

Definition getFieldType (fid : Z) : M Z := ret nullfield.

Definition addField (name : ZString) (type : Z) : M Z :=
  fid <- getFieldId name ;;
  if negb (fid =? FIELD_NULL) then
    ft <- getFieldType fid ;;
    if type =? ft then ret fid else ret 0
  else ret 0.

Definition addRecord (fields : FieldList) : M bool := ret false.

Definition addUintRecord (field : Z) (num : Z) : M unit :=
  let bin := toFile64Bits num in
  ret tt.

Definition addSintRecord (field : Z) (num : Z) : M unit :=
  let bin := toFile64Bits (zu64 num) in
  ret tt.

Definition addZUIDRecord (field : Z) (uid : ZUID) : M unit :=
  let bin := firstn 16 (ZUID_raw uid) in
  ret tt.

Definition addFloatRecord {double : Type} (field : Z) (flt : double)
  : M unit :=
  ret tt.

Definition addStringRecord (field : Z) (s : ZString) : M unit :=
  let bin := firstn (length s) s in
  ret tt.

Definition addBinaryRecord (field : Z) (bin : ZBinary) : M unit :=
  ret tt.

Definition addFileRecord (field : Z) (file : ZPath) : M unit :=
  let s := str file in
  let bin := firstn (length s) s in
  ret tt.

(** [readPage]: the product [page * _pagesize] is of 32 bits. *)
Definition readPage (page : Z) : M (bool * ZBinary) :=
  ps <- gets _pagesize ;;
  file_setPos (zu32 (page * ps)) ;;
  d <- file_read ps ;;
  ret (size d =? ps, d).

(** [zeroPad]: at the end of the file, at most 1024 zero bytes if the size
    is not a multiple of the page size.  For a page size of 0 the remainder
    [fileSize() % _pagesize] is a division by zero, and the call does not
    return: the function below has a value there only because it is total,
    and what is stated of [zeroPad], and of [insertPage] on a field page,
    is stated for a page size above 0. *)
Definition zeroPad : M bool :=
  fs <- file_fileSize ;;
  ps <- gets _pagesize ;;
  let pad := fs mod ps in
  fs <- file_fileSize ;;
  file_setPos fs ;;
  if negb (pad =? 0) then
    let zero := zero_fill 1024 in
    let fill := zu32 (MIN pad 1024) in
    file_write (firstn (Z.to_nat fill) zero) ;;
    ret true
  else ret true.

(** [insertPage]: every enumerator of [pagetype] has its case (the
    [default] case of the switch is for values outside the enumeration);
    only [headpage] can return a page number. *)
Definition insertPage (type : pagetype) : M Z :=
  match type with
  | headpage =>
      ok <- writeHeadPage ;;
      if ok then ret 0 else ret ZU32_MAX
  | fieldpage => zeroPad ;; ret ZU32_MAX
  | freelistpage => ret ZU32_MAX
  | indexpage => ret ZU32_MAX
  | recordpage => ret ZU32_MAX
  | blobpage => ret ZU32_MAX
  | historypage => ret ZU32_MAX
  | freepage => ret ZU32_MAX
  end.

(** [addToFreelist]: with no freelist page, one is asked of [insertPage];
    the result is false in every case. *)
Definition addToFreelist (page : Z) : M bool :=
  fl <- gets _freelistpage ;;
  (if fl =? 0 then
     p <- insertPage freelistpage ;;
     modify (with_freelistpage p)
   else ret tt) ;;
  ret false.

(** [freePage]: the byte 0 is written at the page's offset, then the page
    goes to [addToFreelist]. *)
Definition freePage (page : Z) : M bool :=
  ps <- gets _pagesize ;;
  file_setPos (zu32 (page * ps)) ;;
  n <- file_write [byte_of_Z 0] ;;
  if n =? 1 then
    ok <- addToFreelist page ;;
    if ok then ret true else ret false
  else ret false.

End Members.

(** The static conversions: each indexes its table. *)
Definition fieldTypeNameToFieldType {tables : FieldTables} (name : ZString)
  : Z := fieldnametable name.
Definition getFieldTypeName {tables : FieldTables} (type : Z) : ZString :=
  snd (fieldmap type).
Definition getFieldFileId {tables : FieldTables} (type : Z) : Z :=
  fst (fieldmap type).
Definition fieldFileIdToFieldType {tables : FieldTables} (type : Z) : Z :=
  fieldtypes type.

(** The getters of the class body. *)
Definition getPageSize (s : t) : Z := _pagesize s.
Definition getMaxPages (s : t) : Z := _maxpages s.

(** The six values a head page stores after the signature. *)
Record config : Type := {
  c_pagepower : Z;
  c_maxpages : Z;
  c_freelistpage : Z;
  c_fieldpage : Z;
  c_indexpage : Z;
  c_recordpage : Z
}.

Definition config_of (s : t) : config :=
  {| c_pagepower := _pagepower s;
     c_maxpages := _maxpages s;
     c_freelistpage := _freelistpage s;
     c_fieldpage := _fieldpage s;
     c_indexpage := _indexpage s;
     c_recordpage := _recordpage s |}.

(** The ranges of the members' C types. *)
Definition config_wf (c : config) : Prop :=
  is_zu8 (c_pagepower c) /\ is_zu32 (c_maxpages c) /\
  is_zu32 (c_freelistpage c) /\ is_zu32 (c_fieldpage c) /\
  is_zu32 (c_indexpage c) /\ is_zu32 (c_recordpage c).

(** A member function that leaves [_init] as it finds it. *)
Definition keeps_init {A : Type} (c : M A) : Prop :=
  forall s : t, _init (snd (c s)) = _init s.

(** A member function that leaves an observation [f] of the object as it
    finds it. *)
Definition preserves {A B : Type} (f : t -> B) (c : M A) : Prop :=
  forall s : t, f (snd (c s)) = f s.

(** The bytes [writeHeadPage] puts at the start of the file. *)
Definition head_bytes {codec : FileCodec} (c : config) : ZBinary :=
  VERSION_4_SIG ++ toFile8Bits (c_pagepower c)
    ++ toFile32Bits (c_maxpages c) ++ toFile32Bits (c_freelistpage c)
    ++ toFile32Bits (c_fieldpage c) ++ toFile32Bits (c_indexpage c)
    ++ toFile32Bits (c_recordpage c).

(** *** The pages ([ParcelPage], [FieldPage])

    The nested classes of the parser.  A page object points to the file of
    the parser; its member functions take the file and return it. *)

(** The constructor: [_page(page), _pagesize(pagesize), _rwpos(0)]. *)
Definition ParcelPage_new (page pagesize : Z) : ParcelPage :=
  {| _page := page; _pp_pagesize := pagesize; _rwpos := 0 |}.

(** The position a page's cursor stands for in the file,
    [_page * _pagesize + _rwpos]: the product is of 32 bits, the sum of
    64. *)
Definition ParcelPage_offset (pg : ParcelPage) : Z :=
  zu64 (zu32 (_page pg * _pp_pagesize pg) + _rwpos pg).

(** [ParcelPage::read]: the file is positioned, then read; [_rwpos] is left
    as it is. *)
Definition ParcelPage_read (pg : ParcelPage) (sz : Z) (f : ZFile.t)
  : ZBinary * ZFile.t :=
  ZFile.read (ZFile.setPos f (ParcelPage_offset pg)) sz.

(** [ParcelPage::write]: the bytes go to the file where it stands. *)
Definition ParcelPage_write (pg : ParcelPage) (src : ZBinary) (f : ZFile.t)
  : Z * ZFile.t :=
  ZFile.write f src.

Definition ParcelPage_setPos (pg : ParcelPage) (pos : Z) : Z * ParcelPage :=
  (pos, {| _page := _page pg; _pp_pagesize := _pp_pagesize pg;
           _rwpos := pos |}).

Definition ParcelPage_getPos (pg : ParcelPage) : Z := _rwpos pg.

Definition ParcelPage_atEnd (pg : ParcelPage) (f : ZFile.t) : bool :=
  ZFile.atEnd f.

(** [ZBinary::resize(n)] (LibChaos): the first bytes are kept; the source
    does not fix the value of bytes that are new, they are taken from
    [fresh] (and are zero where [fresh] ends). *)
Definition resize (n : nat) (fresh buf : ZBinary) : ZBinary :=
  firstn n (buf ++ fresh ++ repeat x00 n).

(** Reading into the raw bytes of a buffer: the bytes transferred replace
    the first bytes of the buffer. *)
Definition read_into (d buf : ZBinary) : ZBinary :=
  d ++ skipn (length d) buf.

Record FieldPage : Type := {
  fp_page : ParcelPage;
  _pagetype : pagetype;
  _prevpage : Z;
  _nextpage : Z
}.

(** The constructor of [FieldPage].  The members it does not assign keep the
    values found ([pagetype0], [prev0], [next0]): [_pagetype] always, the two
    page numbers when the page is not a field page. *)
Definition FieldPage_new {codec : FileCodec} (page pagesize : Z)
  (pagetype0 : pagetype) (prev0 next0 : Z) (fresh : ZBinary) (f : ZFile.t)
  : FieldPage * ZFile.t :=
  let pg := ParcelPage_new page pagesize in
  let buff := resize 1 fresh [] in
  let (d, f) := ParcelPage_read pg 1 f in
  let buff := read_into d buff in
  if negb (fromFile8Bits buff =? FIELDPAGE) then
    ({| fp_page := pg; _pagetype := pagetype0;
        _prevpage := prev0; _nextpage := next0 |}, f)
  else
    let buff := resize 4 fresh buff in
    let (d, f) := ParcelPage_read pg 4 f in
    let buff := read_into d buff in
    let prev := fromFile32Bits buff in
    let pg := snd (ParcelPage_setPos pg (zu32 (pagesize - 4))) in
    let (d, f) := ParcelPage_read pg 4 f in
    let buff := read_into d buff in
    let next := fromFile32Bits buff in
    ({| fp_page := pg; _pagetype := pagetype0;
        _prevpage := prev; _nextpage := next |}, f).

End ZParcel4Parser.

(** ** The object store: declarations of [zparcel.h] *)
Module ZParcel.

(** [enum parceltype] *)
Definition UNKNOWN : Z := 0.
Definition VERSION1 : Z := 1.
Definition MAX_PARCELTYPE : Z := VERSION1.

(** [enum parcelstate] *)
Inductive parcelstate : Type := OPEN | CLOSED | LOCKED.

(** [enum parcelopt] *)
Definition OPT_NONE : Z := 0.
Definition OPT_TAIL_EXTEND : Z := 1.

(** The anonymous enumeration of object types; [objtype] is a [zu8]. *)
Definition NULLOBJ : Z := 0.
Definition BOOLOBJ : Z := 1.
Definition UINTOBJ : Z := 2.
Definition SINTOBJ : Z := 3.
Definition FLOATOBJ : Z := 4.
Definition ZUIDOBJ : Z := 5.
Definition BLOBOBJ : Z := 6.
Definition STRINGOBJ : Z := 7.
Definition LISTOBJ : Z := 8.
Definition FILEOBJ : Z := 9.
Definition MAX_OBJTYPE : Z := 10.
Definition UNKNOWNOBJ : Z := 255.
Definition objtype : Type := Z.

(** [enum parcelerror] *)
Inductive parcelerror : Type :=
| OK | ERR_OPEN | ERR_SEEK | ERR_READ | ERR_WRITE | ERR_EXISTS | ERR_NOEXIST
| ERR_CRC | ERR_TRUNC | ERR_TREE | ERR_FREELIST | ERR_NOFREE | ERR_SIG
| ERR_VERSION | ERR_MAX_DEPTH | ERR_MAGIC.

Definition parcelerror_code (e : parcelerror) : Z :=
  match e with
  | OK => 0 | ERR_OPEN => 1 | ERR_SEEK => 2 | ERR_READ => 3 | ERR_WRITE => 4
  | ERR_EXISTS => 5 | ERR_NOEXIST => 6 | ERR_CRC => 7 | ERR_TRUNC => 8
  | ERR_TREE => 9 | ERR_FREELIST => 10 | ERR_NOFREE => 11 | ERR_SIG => 12
  | ERR_VERSION => 13 | ERR_MAX_DEPTH => 14 | ERR_MAGIC => 15
  end.

(** *** The bounded window accessor ([ParcelObjectAccessor])

    The member functions defined in the class body.  ([read] and [write] are
    only declared there; their bodies are in [zparcel.cpp], which is not
    among the sources.)  [_file] is the borrowed block accessor. *)
Module ParcelObjectAccessor.

Record t : Type := mk {
  _file : ZFile.t;
  _base : Z;
  _pos : Z;
  _size : Z
}.

(** The constructor: [_file(file), _base(offset), _pos(0), _size(size)]. *)
Definition new (file : ZFile.t) (offset sz : Z) : t := mk file offset 0 sz.

Definition available (a : t) : Z := zu64 (zu64 (_base a + _size a) - _pos a).

Definition tell (a : t) : Z := _pos a.

Definition seek (a : t) (pos : Z) : Z * t :=
  let p := MIN pos (zu64 (_base a + _size a)) in
  (p, mk (_file a) (_base a) p (_size a)).

Definition atEnd (a : t) : bool := tell a =? zu64 (_base a + _size a).

(** The calls of the class body, and the accessor after a sequence of them
    (results dropped). *)
Inductive call : Type :=
| Seek (pos : Z) | Tell | Available | AtEnd.

Definition exec (a : t) (c : call) : t :=
  match c with
  | Seek pos => snd (seek a pos)
  | Tell | Available | AtEnd => a
  end.

Definition run (a : t) (cs : list call) : t := fold_left exec cs a.

(** The arguments of a call are of the type [zu64]. *)
Definition call_ok (c : call) : Prop :=
  match c with
  | Seek pos => is_zu64 pos
  | Tell | Available | AtEnd => True
  end.

(** The members are of the type [zu64]. *)
Definition wf (a : t) : Prop :=
  is_zu64 (_base a) /\ is_zu64 (_pos a) /\ is_zu64 (_size a).

(** The window is the bytes [base .. base+size) of the block accessor.  A
    cursor [pos] refers to the byte [origin + pos] of the block accessor,
    where [origin] is 0 if cursors are positions of the block accessor and
    [_base] if they are relative to the window. *)
Definition in_window (origin : Z) (a : t) : Prop :=
  _base a <= origin + _pos a <= _base a + _size a.

End ParcelObjectAccessor.

(** *** Record sizes *)

(** The C type of a record field, and its width in bytes. *)
Inductive ctype : Type :=
| zu8_t | zu32_t | zu64_t | ZUID_t | bytes_t (n : Z).

Definition width (c : ctype) : Z :=
  match c with
  | zu8_t => 1
  | zu32_t => 4
  | zu64_t => 8
  | ZUID_t => ZUID_SIZE
  | bytes_t n => n
  end.

Inductive field_name : Type :=
| f_signature | f_version | f_flags | f_treehead | f_freehead | f_freetail
| f_tailptr | f_root | f_crc | f_magic | f_uid | f_lnode | f_rnode | f_type
| f_extra | f_payload | f_next | f_size.

Definition field_name_eqb (a b : field_name) : bool :=
  match a, b with
  | f_signature, f_signature | f_version, f_version | f_flags, f_flags
  | f_treehead, f_treehead | f_freehead, f_freehead
  | f_freetail, f_freetail | f_tailptr, f_tailptr | f_root, f_root
  | f_crc, f_crc | f_magic, f_magic | f_uid, f_uid | f_lnode, f_lnode
  | f_rnode, f_rnode | f_type, f_type | f_extra, f_extra
  | f_payload, f_payload | f_next, f_next | f_size, f_size => true
  | _, _ => false
  end.

Definition layout : Type := list (field_name * ctype).

(** The offset of a field in a record: the widths of the fields before it. *)
Fixpoint field_offset (l : layout) (f : field_name) : Z :=
  match l with
  | [] => 0
  | (g, c) :: r => if field_name_eqb f g then 0 else width c + field_offset r f
  end.

Fixpoint field_width (l : layout) (f : field_name) : Z :=
  match l with
  | [] => 0
  | (g, c) :: r => if field_name_eqb f g then width c else field_width r f
  end.

(** The bytes of a field in the raw bytes of a record. *)
Definition field_bytes (l : layout) (f : field_name) (raw : ZBinary)
  : ZBinary :=
  firstn (Z.to_nat (field_width l f))
         (skipn (Z.to_nat (field_offset l f)) raw).

Definition layout_size (l : layout) : Z :=
  fold_right (fun f acc => width (snd f) + acc) 0 l.

Module ParcelHeader.

Definition NODE_SIZE : Z := 7 + 1 + 4 + 8 + 8 + 8 + 8 + ZUID_SIZE + 4.

(** The members in declaration order, with the two fields the class body
    names in comments only (the 7 byte signature, the 4 byte crc). *)
Definition fields : layout :=
  [ (f_signature, bytes_t 7); (f_version, zu8_t); (f_flags, zu32_t);
    (f_treehead, zu64_t); (f_freehead, zu64_t); (f_freetail, zu64_t);
    (f_tailptr, zu64_t); (f_root, ZUID_t); (f_crc, bytes_t 4) ].

End ParcelHeader.

Module ParcelTreeNode.

Definition NODE_SIZE : Z := 4 + ZUID_SIZE + 8 + 8 + 1 + 1 + 4 + 16.

(** The members in declaration order, with the 4 byte magic and the 4 byte
    crc the class body names in comments only.  (The member [data], a size
    and an offset, is the in-memory reading of the payload.) *)
Definition fields : layout :=
  [ (f_magic, bytes_t 4); (f_uid, ZUID_t); (f_lnode, zu64_t);
    (f_rnode, zu64_t); (f_type, zu8_t); (f_extra, zu8_t);
    (f_crc, bytes_t 4); (f_payload, bytes_t 16) ].

End ParcelTreeNode.

Module ParcelFreeNode.

Definition NODE_SIZE : Z := 4 + 8 + 8 + 4.

(** The two members, between the magic and the checksum that the terms of
    [NODE_SIZE] leave room for. *)
Definition fields : layout :=
  [ (f_magic, bytes_t 4); (f_next, zu64_t); (f_size, zu64_t);
    (f_crc, bytes_t 4) ].

End ParcelFreeNode.

(** *** The store behind the declarations

    The member functions of [ZParcel], [ParcelHeader] and the tree engine are
    defined in [zparcel.cpp], which is not among the sources.  The
    definitions from here to the end of the module are modelled from the
    spec; each says so and names what it stands for. *)

(** Modelled from the spec: what the format leaves open and [zparcel.cpp]
    would fix.  The 7-byte format signature; the checksum function; the
    guard constant on the depth of the tree; and whether a store on an
    existing UID updates in place or is rejected with [ERR_EXISTS] (an open
    question of the spec). *)
Class ParcelParams : Type := {
  PARCEL_SIG : ZBinary;
  checksum : ZBinary -> Z;
  MAX_DEPTH : nat;
  restore_updates : bool;
  PARCEL_SIG_size : size PARCEL_SIG = 7
}.

(** Modelled from the spec: the failures that the header's documentation
    calls exceptions (parcel not open, object has wrong type).  A missing
    object and every other failure is a [parcelerror]. *)
Inductive ZException : Type :=
| NotOpen | WrongType | Failure (e : parcelerror).

(** Modelled from the spec: how a member function ends, by returning or by
    throwing. *)
Inductive outcome (A : Type) : Type :=
| Returned (a : A)
| Thrown (e : ZException).
Arguments Returned {A} a.
Arguments Thrown {A} e.

(** Modelled from the spec: the payload of a tree node (section 9 of the
    spec), [Inline] for the 16 bytes of a fixed-width value, [OutOfLine] for
    a variable-width value, given by the bytes of its range. *)
Inductive payload : Type :=
| Inline (b : ZBinary)
| OutOfLine (b : ZBinary).

(** Modelled from the spec: the bytes of a payload. *)
Definition payload_data (p : payload) : ZBinary :=
  match p with Inline b => b | OutOfLine b => b end.

(** Modelled from the spec: what a lookup learns of an object ([ObjectInfo]
    without the node offsets). *)
Record ObjectInfo : Type := {
  type : objtype;
  data : payload
}.

(** The tree engine of [zparcel.cpp] (section 4.3 of the spec), on the
    UID-ordered binary search tree that the nodes of a container form. *)
Module Tree.

(** Modelled from the spec: the tree of the nodes, each with its key, what
    a lookup learns of it, and its children (absent children are
    [Leaf]). *)
Inductive t : Type :=
| Leaf
| Node (l : t) (uid : ZUID) (o : ObjectInfo) (r : t).

(** Modelled from the spec: what a lookup answers. *)
Inductive result : Type :=
| Found (o : ObjectInfo)
| Failed (e : parcelerror).

(** Modelled from the spec: Lookup.  The depth counter is checked on
    entering a position; then an absent node is [ERR_NOEXIST], and a node is
    compared with the key: less descends left, greater right, equal is
    found. *)
Fixpoint lookup (depth : nat) (tr : t) (uid : ZUID) : result :=
  match depth with
  | O => Failed ERR_MAX_DEPTH
  | S d =>
      match tr with
      | Leaf => Failed ERR_NOEXIST
      | Node l k o r =>
          if uid <? k then lookup d l uid
          else if k <? uid then lookup d r uid
          else Found o
      end
  end.

(** Modelled from the spec: Insert.  The same descent; the new node takes
    the place of the absent child. *)
Fixpoint insert (tr : t) (uid : ZUID) (o : ObjectInfo) : t :=
  match tr with
  | Leaf => Node Leaf uid o Leaf
  | Node l k x r =>
      if uid <? k then Node (insert l uid o) k x r
      else if k <? uid then Node l k x (insert r uid o)
      else Node l k x r
  end.

(** Modelled from the spec: the update path.  The node of the key gets the
    new type and payload. *)
Fixpoint update (tr : t) (uid : ZUID) (o : ObjectInfo) : t :=
  match tr with
  | Leaf => Leaf
  | Node l k x r =>
      if uid <? k then Node (update l uid o) k x r
      else if k <? uid then Node l k x (update r uid o)
      else Node l k o r
  end.

(** Modelled from the spec: the in-order successor of a node is the leftmost
    node of its right subtree. *)
Fixpoint leftmost (tr : t) : option (ZUID * ObjectInfo) :=
  match tr with
  | Leaf => None
  | Node Leaf k o _ => Some (k, o)
  | Node l _ _ _ => leftmost l
  end.

(** Modelled from the spec: Delete.  A leaf is unlinked, an only child is
    spliced in, and a node with two children takes over the UID, type and
    payload of its successor, which is then deleted from its original
    position. *)
Fixpoint delete (tr : t) (uid : ZUID) : t :=
  match tr with
  | Leaf => Leaf
  | Node l k o r =>
      if uid <? k then Node (delete l uid) k o r
      else if k <? uid then Node l k o (delete r uid)
      else
        match l, r with
        | Leaf, _ => r
        | _, Leaf => l
        | _, _ =>
            match leftmost r with
            | Some (k', o') => Node l k' o' (delete r k')
            | None => l
            end
        end
  end.

(** The keys of a tree, in order. *)
Fixpoint keys (tr : t) : list ZUID :=
  match tr with
  | Leaf => []
  | Node l k _ r => keys l ++ k :: keys r
  end.

Fixpoint all_keys (P : ZUID -> Prop) (tr : t) : Prop :=
  match tr with
  | Leaf => True
  | Node l k _ r => P k /\ all_keys P l /\ all_keys P r
  end.

(** Modelled from the spec: the invariant of the index,
    [left.uid < node.uid < right.uid]. *)
Fixpoint bst (tr : t) : Prop :=
  match tr with
  | Leaf => True
  | Node l k _ r =>
      all_keys (fun x => x < k) l /\ all_keys (fun x => k < x) r /\
      bst l /\ bst r
  end.

End Tree.

(** Modelled from the spec: the block accessor as the store uses it.  [dev]
    is the byte container, where the header record lives; [index] is the
    tree that the node records of the container form; [io] counts the
    operations of the engine that went to the container. *)
Record Accessor : Type := {
  dev : ZFile.t;
  index : Tree.t;
  io : nat
}.

(** An operation on the container, and one on the nodes: both count. *)
Definition with_dev (f : ZFile.t) (a : Accessor) : Accessor :=
  {| dev := f; index := index a; io := S (io a) |}.

Definition with_index (t : Tree.t) (a : Accessor) : Accessor :=
  {| dev := dev a; index := t; io := S (io a) |}.

Definition touch (a : Accessor) : Accessor := with_index (index a) a.

(** The header record: the members of [ParcelHeader] and its [read] and
    [write] (section 4.1 of the spec, and the layout of its section 6). *)
Module Header.

(** Modelled from the spec: the members of [ParcelHeader]. *)
Record t : Type := mk {
  version : Z;
  flags : Z;
  treehead : Z;
  freehead : Z;
  freetail : Z;
  tailptr : Z;
  root : ZUID
}.

Definition field (f : field_name) (raw : ZBinary) : ZBinary :=
  field_bytes ParcelHeader.fields f raw.

(** Modelled from the spec: the checksum covers the bytes of the record that
    precede it. *)
Definition checked_bytes (raw : ZBinary) : ZBinary :=
  firstn (Z.to_nat (field_offset ParcelHeader.fields f_crc)) raw.

(** Modelled from the spec: the supported versions are those of
    [parceltype], above [UNKNOWN] and up to [MAX_PARCELTYPE]. *)
Definition version_supported (v : Z) : bool :=
  (UNKNOWN <? v) && (v <=? MAX_PARCELTYPE).

(** Modelled from the spec: the members, from the bytes of their fields
    (most significant byte first). *)
Definition parse (raw : ZBinary) : t :=
  {| version := be_decode (field f_version raw);
     flags := be_decode (field f_flags raw);
     treehead := be_decode (field f_treehead raw);
     freehead := be_decode (field f_freehead raw);
     freetail := be_decode (field f_freetail raw);
     tailptr := be_decode (field f_tailptr raw);
     root := ZUID_of_raw (field f_root raw) |}.

Section WithParams.
Context {params : ParcelParams}.

(** Modelled from the spec: what [read] validates in the bytes of a record;
    signature, then version, then checksum. *)
Definition validate (raw : ZBinary) : parcelerror :=
  if negb (ZBinary_eqb (field f_signature raw) PARCEL_SIG) then ERR_SIG
  else if negb (version_supported (be_decode (field f_version raw)))
  then ERR_VERSION
  else if negb (be_decode (field f_crc raw) =? checksum (checked_bytes raw))
  then ERR_CRC
  else OK.

(** Modelled from the spec: [ParcelHeader::read], load and validate. *)
Definition read (a : Accessor) (offset : Z)
  : parcelerror * option t * Accessor :=
  let (raw, f) := ZFile.read (ZFile.setPos (dev a) offset)
                             ParcelHeader.NODE_SIZE in
  let a' := with_dev f a in
  if negb (size raw =? ParcelHeader.NODE_SIZE) then (ERR_READ, None, a')
  else
    match validate raw with
    | OK => (OK, Some (parse raw), a')
    | e => (e, None, a')
    end.

(** Modelled from the spec: the bytes of a header, with its checksum
    recomputed. *)
Definition serialize (h : t) : ZBinary :=
  let body := PARCEL_SIG ++ be_encode 1 (version h) ++ be_encode 4 (flags h)
                ++ be_encode 8 (treehead h) ++ be_encode 8 (freehead h)
                ++ be_encode 8 (freetail h) ++ be_encode 8 (tailptr h)
                ++ ZUID_raw (root h) in
  body ++ be_encode 4 (checksum body).

(** Modelled from the spec: [ParcelHeader::write], serialize and persist. *)
Definition write (h : t) (a : Accessor) (offset : Z)
  : parcelerror * Accessor :=
  let (n, f) := ZFile.write (ZFile.setPos (dev a) offset) (serialize h) in
  let a' := with_dev f a in
  if n =? ParcelHeader.NODE_SIZE then (OK, a') else (ERR_WRITE, a').

End WithParams.
End Header.

(** The store facade of [zparcel.cpp] (section 4.4 of the spec): the member
    functions that [zparcel.h] declares. *)
Section Facade.
Context {params : ParcelParams}.

(** Modelled from the spec: the data members [_state], [_file] and [_header]
    (null pointers are [None]); the object cache, an optimisation of lookups,
    is left out. *)
Record t : Type := mk {
  _state : parcelstate;
  _file : option Accessor;
  _header : option Header.t
}.

(** Modelled from the spec: the constructor; a parcel starts [CLOSED]. *)
Definition new : t := mk CLOSED None None.

(** Modelled from the spec: the test that the parcel is [OPEN]. *)
Definition is_open (p : t) : bool :=
  match _state p with OPEN => true | _ => false end.

Definition set_file (a : Accessor) (p : t) : t :=
  mk (_state p) (Some a) (_header p).

(** Modelled from the spec: [create] writes a fresh header to the container
    and opens the parcel; it must succeed for the state to change. *)
Definition create (file : Accessor) (opt : Z) (p : t) : parcelerror * t :=
  let h := Header.mk VERSION1 opt 0 0 0 ParcelHeader.NODE_SIZE 0 in
  let (err, a) := Header.write h (with_index Tree.Leaf file) 0 in
  match err with
  | OK => (OK, mk OPEN (Some a) (Some h))
  | e => (e, p)
  end.

(** Modelled from the spec: [open] reads and validates the header; it must
    succeed for the state to change. *)
Definition open (file : Accessor) (p : t) : parcelerror * t :=
  match Header.read file 0 with
  | (OK, Some h, a) => (OK, mk OPEN (Some a) (Some h))
  | (OK, None, _) => (ERR_READ, p)
  | (e, _, _) => (e, p)
  end.

(** Modelled from the spec: [close]. *)
Definition close (p : t) : t := mk CLOSED None None.

(** Modelled from the spec: [_getObjectInfo], the tree engine's lookup from
    the root. *)
Definition _getObjectInfo (id : ZUID) (p : t) : Tree.result * t :=
  match _file p with
  | Some a => (Tree.lookup MAX_DEPTH (index a) id, set_file (touch a) p)
  | None => (Tree.Failed ERR_OPEN, p)
  end.

(** Modelled from the spec: [exists]. *)
Definition exists_ (id : ZUID) (p : t) : bool * t :=
  match _getObjectInfo id p with
  | (Tree.Found _, p') => (true, p')
  | (Tree.Failed _, p') => (false, p')
  end.

(** Modelled from the spec: [getType] returns [UNKNOWNOBJ] if the object is
    absent. *)
Definition getType (id : ZUID) (p : t) : objtype * t :=
  match _getObjectInfo id p with
  | (Tree.Found o, p') => (type o, p')
  | (Tree.Failed _, p') => (UNKNOWNOBJ, p')
  end.

(** Modelled from the spec: fixed-width types (null, bool, uint, sint,
    float, UID) are embedded in the 16 bytes of the node; the others go out
    of line. *)
Definition inline_type (ty : objtype) : bool := ty <? BLOBOBJ.

Definition pad16 (b : ZBinary) : ZBinary := firstn 16 (b ++ repeat x00 16).

Definition payload_of (ty : objtype) (d : ZBinary) : payload :=
  if inline_type ty then Inline (pad16 d) else OutOfLine d.

(** Modelled from the spec: [_storeObject]; requires [OPEN], then inserts a
    new UID, and updates or rejects an existing one. *)
Definition _storeObject (id : ZUID) (ty : objtype) (d : ZBinary) (p : t)
  : outcome parcelerror * t :=
  if negb (is_open p) then (Thrown NotOpen, p) else
  match _file p with
  | None => (Returned ERR_OPEN, p)
  | Some a =>
      let o := {| type := ty; data := payload_of ty d |} in
      match Tree.lookup MAX_DEPTH (index a) id with
      | Tree.Found _ =>
          if restore_updates
          then (Returned OK, set_file (with_index (Tree.update (index a) id o) a) p)
          else (Returned ERR_EXISTS, set_file (touch a) p)
      | Tree.Failed ERR_NOEXIST =>
          (Returned OK, set_file (with_index (Tree.insert (index a) id o) a) p)
      | Tree.Failed e => (Returned e, set_file (touch a) p)
      end
  end.

(** Modelled from the spec: the [store*] functions, one per type; each packs
    its value and stores it under its type tag. *)
Definition storeNull (id : ZUID) : t -> outcome parcelerror * t :=
  _storeObject id NULLOBJ [].
Definition storeBool (id : ZUID) (bl : bool) : t -> outcome parcelerror * t :=
  _storeObject id BOOLOBJ [if bl then x01 else x00].
Definition storeUint (id : ZUID) (num : Z) : t -> outcome parcelerror * t :=
  _storeObject id UINTOBJ (be_encode 8 num).
Definition storeSint (id : ZUID) (num : Z) : t -> outcome parcelerror * t :=
  _storeObject id SINTOBJ (be_encode 8 (zu64 num)).
(** Modelled from the spec: [storeFloat]; a double is carried as its 64-bit
    image. *)
Definition storeFloat (id : ZUID) (bits : Z) : t -> outcome parcelerror * t :=
  _storeObject id FLOATOBJ (be_encode 8 bits).
Definition storeZUID (id : ZUID) (uid : ZUID) : t -> outcome parcelerror * t :=
  _storeObject id ZUIDOBJ (ZUID_raw uid).
Definition storeBlob (id : ZUID) (blob : ZBinary)
  : t -> outcome parcelerror * t :=
  _storeObject id BLOBOBJ blob.
Definition storeString (id : ZUID) (str : ZBinary)
  : t -> outcome parcelerror * t :=
  _storeObject id STRINGOBJ str.
(** Modelled from the spec: [storeList]; a list is the packed sequence of
    its UIDs. *)
Definition storeList (id : ZUID) (list : list ZUID)
  : t -> outcome parcelerror * t :=
  _storeObject id LISTOBJ (concat (map ZUID_raw list)).

(** Modelled from the spec: [storeFile]; the file object holds two UID
    references, to a string object with the name and a blob object with the
    content.  [name] and [content] are what the path names in the file
    system, [nameid] and [dataid] the UIDs drawn for the two objects. *)
Definition storeFile (id nameid dataid : ZUID) (name content : ZBinary)
  (p : t) : outcome parcelerror * t :=
  match storeString nameid name p with
  | (Returned OK, p1) =>
      match storeBlob dataid content p1 with
      | (Returned OK, p2) =>
          _storeObject id FILEOBJ (ZUID_raw nameid ++ ZUID_raw dataid) p2
      | r => r
      end
  | r => r
  end.

(** Modelled from the spec: the common part of the [fetch*] functions;
    requires [OPEN], looks the object up and checks its type. *)
Definition _fetchObject (ty : objtype) (id : ZUID) (p : t)
  : outcome ObjectInfo * t :=
  if negb (is_open p) then (Thrown NotOpen, p) else
  match _getObjectInfo id p with
  | (Tree.Found o, p') =>
      if type o =? ty then (Returned o, p') else (Thrown WrongType, p')
  | (Tree.Failed e, p') => (Thrown (Failure e), p')
  end.

(** Modelled from the spec: a fetch decodes the payload according to the
    type. *)
Definition fetch_as {A : Type} (ty : objtype) (decode : ZBinary -> A)
  (id : ZUID) (p : t) : outcome A * t :=
  match _fetchObject ty id p with
  | (Returned o, p') => (Returned (decode (payload_data (data o))), p')
  | (Thrown e, p') => (Thrown e, p')
  end.

Definition signed64 (u : Z) : Z := if u <? 2 ^ 63 then u else u - 2 ^ 64.

Fixpoint uid_chunks (n : nat) (b : ZBinary) : list ZUID :=
  match n with
  | O => []
  | S k =>
      match b with
      | [] => []
      | _ => ZUID_of_raw (firstn 16 b) :: uid_chunks k (skipn 16 b)
      end
  end.

(** Modelled from the spec: the [fetch*] functions, one per type. *)
Definition fetchBool : ZUID -> t -> outcome bool * t :=
  fetch_as BOOLOBJ (fun b => negb (be_decode (firstn 1 b) =? 0)).
Definition fetchUint : ZUID -> t -> outcome Z * t :=
  fetch_as UINTOBJ (fun b => be_decode (firstn 8 b)).
Definition fetchSint : ZUID -> t -> outcome Z * t :=
  fetch_as SINTOBJ (fun b => signed64 (be_decode (firstn 8 b))).
Definition fetchFloat : ZUID -> t -> outcome Z * t :=
  fetch_as FLOATOBJ (fun b => be_decode (firstn 8 b)).
Definition fetchZUID : ZUID -> t -> outcome ZUID * t :=
  fetch_as ZUIDOBJ (fun b => ZUID_of_raw (firstn 16 b)).
Definition fetchBlob : ZUID -> t -> outcome ZBinary * t :=
  fetch_as BLOBOBJ (fun b => b).
(** Modelled from the spec: [fetchBlobReader]; the reader is a bounded
    window accessor over the bytes of the range. *)
Definition fetchBlobReader : ZUID -> t -> outcome ParcelObjectAccessor.t * t :=
  fetch_as BLOBOBJ
    (fun b => ParcelObjectAccessor.new (ZFile.mk true b 0) 0 (size b)).
Definition fetchString : ZUID -> t -> outcome ZBinary * t :=
  fetch_as STRINGOBJ (fun b => b).
Definition fetchList : ZUID -> t -> outcome (list ZUID) * t :=
  fetch_as LISTOBJ (fun b => uid_chunks (length b) b).

(** Modelled from the spec: [fetchFile] returns both referenced UIDs, the
    name's first. *)
Definition fetchFile (id : ZUID) (p : t)
  : outcome (parcelerror * ZUID * ZUID) * t :=
  match _fetchObject FILEOBJ id p with
  | (Returned o, p') =>
      let b := payload_data (data o) in
      if size b =? 2 * ZUID_SIZE
      then (Returned (OK, ZUID_of_raw (firstn 16 b),
                      ZUID_of_raw (firstn 16 (skipn 16 b))), p')
      else (Returned (ERR_TRUNC, 0, 0), p')
  | (Thrown (Failure e), p') => (Returned (e, 0, 0), p')
  | (Thrown e, p') => (Thrown e, p')
  end.

(** Modelled from the spec: [removeObject]; requires [OPEN], locates the
    node and deletes it from the tree. *)
Definition removeObject (id : ZUID) (p : t) : outcome parcelerror * t :=
  if negb (is_open p) then (Thrown NotOpen, p) else
  match _file p with
  | None => (Returned ERR_OPEN, p)
  | Some a =>
      match Tree.lookup MAX_DEPTH (index a) id with
      | Tree.Found _ =>
          (Returned OK, set_file (with_index (Tree.delete (index a) id) a) p)
      | Tree.Failed e => (Returned e, set_file (touch a) p)
      end
  end.

(** Modelled from the spec: [getRoot] and [setRoot] read and write the
    header's root UID. *)
Definition getRoot (p : t) : ZUID :=
  match _header p with
  | Some h => Header.root h
  | None => 0
  end.

Definition setRoot (id : ZUID) (p : t) : parcelerror * t :=
  match _file p, _header p with
  | Some a, Some h =>
      let h' := Header.mk (Header.version h) (Header.flags h)
                  (Header.treehead h) (Header.freehead h) (Header.freetail h)
                  (Header.tailptr h) id in
      let (e, a') := Header.write h' a 0 in
      (e, mk (_state p) (Some a') (Some h'))
  | _, _ => (ERR_OPEN, p)
  end.

(** Modelled from the spec: [listObjects], the full traversal. *)
Definition listObjects (p : t) : list ZUID * t :=
  match _file p with
  | Some a => (Tree.keys (index a), set_file (touch a) p)
  | None => ([], p)
  end.

(** Modelled from the spec: the public operations, as calls a client makes,
    and what they answer. *)
Inductive call : Type :=
| Create (file : Accessor) (opt : Z)
| Open (file : Accessor)
| Close
| Exists (id : ZUID)
| GetType (id : ZUID)
| StoreNull (id : ZUID)
| StoreBool (id : ZUID) (bl : bool)
| StoreUint (id : ZUID) (num : Z)
| StoreSint (id : ZUID) (num : Z)
| StoreFloat (id : ZUID) (bits : Z)
| StoreZUID (id : ZUID) (uid : ZUID)
| StoreBlob (id : ZUID) (blob : ZBinary)
| StoreString (id : ZUID) (str : ZBinary)
| StoreList (id : ZUID) (l : list ZUID)
| StoreFile (id nameid dataid : ZUID) (name content : ZBinary)
| FetchBool (id : ZUID)
| FetchUint (id : ZUID)
| FetchSint (id : ZUID)
| FetchFloat (id : ZUID)
| FetchZUID (id : ZUID)
| FetchBlob (id : ZUID)
| FetchBlobReader (id : ZUID)
| FetchString (id : ZUID)
| FetchList (id : ZUID)
| FetchFile (id : ZUID)
| RemoveObject (id : ZUID)
| GetRoot
| SetRoot (id : ZUID)
| ListObjects.

Inductive response : Type :=
| R_unit
| R_error (e : parcelerror)
| R_bool (b : bool)
| R_num (n : Z)
| R_type (ty : objtype)
| R_uid (u : ZUID)
| R_bytes (b : ZBinary)
| R_reader (a : ParcelObjectAccessor.t)
| R_list (l : list ZUID)
| R_file (e : parcelerror) (nameid dataid : ZUID).

Definition answer {A : Type} (f : A -> response) (r : outcome A * t)
  : outcome response * t :=
  match r with
  | (Returned a, p) => (Returned (f a), p)
  | (Thrown e, p) => (Thrown e, p)
  end.

(** Modelled from the spec: a call, carried out by its member function. *)
Definition exec (c : call) (p : t) : outcome response * t :=
  match c with
  | Create file opt =>
      let (e, p') := create file opt p in (Returned (R_error e), p')
  | Open file => let (e, p') := open file p in (Returned (R_error e), p')
  | Close => (Returned R_unit, close p)
  | Exists id => let (b, p') := exists_ id p in (Returned (R_bool b), p')
  | GetType id => let (ty, p') := getType id p in (Returned (R_type ty), p')
  | StoreNull id => answer R_error (storeNull id p)
  | StoreBool id bl => answer R_error (storeBool id bl p)
  | StoreUint id num => answer R_error (storeUint id num p)
  | StoreSint id num => answer R_error (storeSint id num p)
  | StoreFloat id bits => answer R_error (storeFloat id bits p)
  | StoreZUID id uid => answer R_error (storeZUID id uid p)
  | StoreBlob id blob => answer R_error (storeBlob id blob p)
  | StoreString id str => answer R_error (storeString id str p)
  | StoreList id l => answer R_error (storeList id l p)
  | StoreFile id nameid dataid name content =>
      answer R_error (storeFile id nameid dataid name content p)
  | FetchBool id => answer R_bool (fetchBool id p)
  | FetchUint id => answer R_num (fetchUint id p)
  | FetchSint id => answer R_num (fetchSint id p)
  | FetchFloat id => answer R_num (fetchFloat id p)
  | FetchZUID id => answer R_uid (fetchZUID id p)
  | FetchBlob id => answer R_bytes (fetchBlob id p)
  | FetchBlobReader id => answer R_reader (fetchBlobReader id p)
  | FetchString id => answer R_bytes (fetchString id p)
  | FetchList id => answer R_list (fetchList id p)
  | FetchFile id =>
      answer (fun r => R_file (fst (fst r)) (snd (fst r)) (snd r))
             (fetchFile id p)
  | RemoveObject id => answer R_error (removeObject id p)
  | GetRoot => (Returned (R_uid (getRoot p)), p)
  | SetRoot id => let (e, p') := setRoot id p in (Returned (R_error e), p')
  | ListObjects => let (l, p') := listObjects p in (Returned (R_list l), p')
  end.

(** The parcel after a sequence of calls. *)
Definition run (cs : list call) (p : t) : t :=
  fold_left (fun q c => snd (exec c q)) cs p.

(** Modelled from the spec: the store, fetch and remove operations, which
    require [OPEN]. *)
Definition requires_open (c : call) : bool :=
  match c with
  | StoreNull _ | StoreBool _ _ | StoreUint _ _ | StoreSint _ _
  | StoreFloat _ _ | StoreZUID _ _ | StoreBlob _ _ | StoreString _ _
  | StoreList _ _ | StoreFile _ _ _ _ _
  | FetchBool _ | FetchUint _ | FetchSint _ | FetchFloat _ | FetchZUID _
  | FetchBlob _ | FetchBlobReader _ | FetchString _ | FetchList _
  | FetchFile _ | RemoveObject _ => true
  | _ => false
  end.

(** An object is stored under [id] when the index of the parcel's container
    has a node of that key. *)
Definition stored (id : ZUID) (p : t) : Prop :=
  exists a, _file p = Some a /\ In id (Tree.keys (index a)).

(** Modelled from the spec: the invariant of the tree, for the container of
    a parcel and for a container handed to [open]. *)
Definition parcel_wf (p : t) : Prop :=
  match _file p with
  | Some a => Tree.bst (index a)
  | None => True
  end.

Definition call_wf (c : call) : Prop :=
  match c with
  | Open file => Tree.bst (index file)
  | _ => True
  end.




End Facade.

(** A setting of the parameters, for running the model: a signature, the sum
    of the bytes as checksum, 64 levels of depth, stores on existing UIDs
    rejected. *)
Definition sample_checksum (b : ZBinary) : Z :=
  zu32 (fold_right (fun x acc => Z_of_byte x + acc) 0 b).

Definition SampleParams : ParcelParams :=
  {| PARCEL_SIG := [x5a; x50; x41; x52; x43; x45; x4c];
     checksum := sample_checksum;
     MAX_DEPTH := 64;
     restore_updates := false;
     PARCEL_SIG_size := eq_refl |}.

End ZParcel.

(** ** The command line ([main.cpp])

    [mainwrap], on the list of the arguments.  What the function takes from
    outside the repository is an interface: the file a path names, the
    splitting of a string, the conversion of a value to its file format and
    the value of a member the constructor leaves uninitialized.  The lines
    sent to the log by [mainwrap] are its trace; those of the parser are
    left out, as in its embedding.  ([main] returns what [mainwrap] returns,
    and [EXIT_FAILURE] on an exception of the library.)

    The arguments a command names ([args[1]], ...) are there by the check
    of [args.size()] before; the two parts of a [field=value] argument are
    taken from the array [split] returns without such a check, and
    [mainwrap] has no result ([None]) where that array lacks one of them:
    what an array does when indexed out of its range is the library's. *)
Class Environment : Type := {
  (** [ZFile file(path, ZFile::modereadwrite)] *)
  openFile : String.string -> ZFile.t;
  (** [ZString::split] *)
  split : String.string -> String.string -> list String.string;
  (** [ZParcelConvert::toFileFormat] *)
  toFileFormat : Z -> String.string -> ZBinary;
  (** the value found in [_pagecount] *)
  pagecount0 : Z
}.

Module Main.
Import ZParcel4Parser.

Definition EXIT_SUCCESS : Z := 0.
Definition EXIT_FAILURE : Z := 1.

(** The lines of the log, one constructor for each [LOG] and [ELOG] of
    [mainwrap], with the values the line shows. *)
Inductive message : Type :=
| MsgCommand (cmdstr : String.string)
| MsgUsageCreate
| MsgCreating (file : String.string)
| MsgOK
| MsgERROR
| MsgUsageModify
| MsgModifying (file : String.string)
| MsgUsageAddfield
| MsgAddingField (file : String.string)
| MsgCreatedField (fid : Z) (name : String.string) (typenm : ZString)
| ErrCreatingField (name arg : String.string)
| MsgModifyCommands
| MsgUsageList
| MsgListing (file : String.string)
| MsgPageSize (n : Z)
| MsgMaxPages (n : Z)
| MsgUsageAdd
| MsgAdding (file : String.string)
| ErrFormat (arg : String.string)
| ErrBadField (name : String.string)
| MsgFieldBytes (fid : Z) (n : Z)
| ErrERROR
| MsgUsageEdit
| MsgEditing (file : String.string)
| MsgCommands.

(** [argv[i][0] == '-'] *)
Definition is_flag (a : String.string) : bool :=
  match a with
  | String.String c _ => Ascii.eqb c "-"%char
  | String.EmptyString => false
  end.

(** [ZString::substr(pos)] and [ZString::substr(pos, len)], which change the
    string in place. *)
Definition substr_from (pos : nat) (s : String.string) : String.string :=
  String.substring pos (String.length s - pos) s.
Definition substr (pos len : nat) (s : String.string) : String.string :=
  String.substring pos len s.

(** The loop over the arguments: the command string, the arguments and the
    flags. *)
Fixpoint scan (argv : list String.string)
  (acc : String.string * list String.string * list String.string)
  : String.string * list String.string * list String.string :=
  match argv with
  | [] => acc
  | a :: rest =>
      let '(cmdstr, args, flags) := acc in
      let cmdstr := String.append (String.append cmdstr a) " "%string in
      if is_flag a
      then scan rest (cmdstr, args, flags ++ [substr_from 1 a])
      else scan rest (cmdstr, args ++ [a], flags)
  end.

Definition count (l : list String.string) : Z := Z.of_nat (length l).

Definition arg (args : list String.string) (i : nat) : String.string :=
  nth i args String.EmptyString.

Definition zstring (s : String.string) : ZString :=
  String.list_byte_of_string s.

Section WithEnvironment.
Context {codec : FileCodec} {types : ZParcelTypes} {tables : FieldTables}
        {env : Environment}.

(** One round of the loop of [add] over the arguments [field=value]: an
    argument that does not split in two is reported, and [pair[0]] and
    [pair[1]] are read all the same. *)
Definition add_step
  (st : ZParcel4Parser.t * FieldList * list message) (a : String.string)
  : option (ZParcel4Parser.t * FieldList * list message) :=
  let '(parcel, fieldlist, log) := st in
  let pair := split a "="%string in
  let log := if negb (count pair =? 2) then log ++ [ErrFormat a] else log in
  match nth_error pair 0, nth_error pair 1 with
  | Some fieldname, Some fieldvalue =>
      let (fid, parcel) := getFieldId (zstring fieldname) parcel in
      if negb (fid =? 0) then
        let (ft, parcel) := getFieldType fid parcel in
        Some (parcel,
              fieldlist
                ++ [{| id := fid; data := toFileFormat ft fieldvalue |}],
              log)
      else Some (parcel, fieldlist, log ++ [ErrBadField fieldname])
  | _, _ => None
  end.

(** [for(zu64 i = 2; i < args.size(); ++i)], on the arguments from the
    third. *)
Fixpoint add_fields (l : list String.string)
  (st : ZParcel4Parser.t * FieldList * list message)
  : option (ZParcel4Parser.t * FieldList * list message) :=
  match l with
  | [] => Some st
  | a :: rest =>
      match add_step st a with
      | Some st' => add_fields rest st'
      | None => None
      end
  end.

(** The command, on the arguments left after the loop; [log] is the log so
    far.  The result is the exit status, the log, and the file the command
    opened, as the command leaves it. *)
Definition command (args : list String.string) (log : list message)
  : option (Z * list message * option (String.string * ZFile.t)) :=
  if (0 <? count args) && String.eqb (arg args 0) "create"%string then
    if negb (count args =? 2)
    then Some (EXIT_FAILURE, log ++ [MsgUsageCreate], None)
    else
      let log := log ++ [MsgCreating (arg args 1)] in
      let parcel := new (openFile (arg args 1)) pagecount0 in
      let parcel := snd (setPageSize 11 parcel) in
      let parcel := snd (setMaxPages (64 * 1024 * 2) parcel) in
      let (ok, parcel) := create parcel in
      Some (EXIT_SUCCESS, log ++ [if ok then MsgOK else MsgERROR],
            Some (arg args 1, _file parcel))
  else if (0 <? count args) && String.eqb (arg args 0) "modify"%string then
    if count args <? 3
    then Some (EXIT_FAILURE, log ++ [MsgUsageModify], None)
    else
      let log := log ++ [MsgModifying (arg args 1)] in
      let parcel := new (openFile (arg args 1)) pagecount0 in
      let parcel := snd (open parcel) in
      if String.eqb (arg args 2) "addfield"%string then
        if negb (count args =? 5)
        then Some (EXIT_FAILURE, log ++ [MsgUsageAddfield],
                   Some (arg args 1, _file parcel))
        else
          let name := arg args 3 in
          let log := log ++ [MsgAddingField (arg args 1)] in
          let type := fieldTypeNameToFieldType (zstring name) in
          let typenm := getFieldTypeName type in
          let (fid, parcel) := addField (zstring name) type parcel in
          Some (EXIT_SUCCESS,
                log ++ (if negb (fid =? 0)
                        then [MsgCreatedField fid name typenm; MsgOK]
                        else [ErrCreatingField name (arg args 3); MsgERROR]),
                Some (arg args 1, _file parcel))
      else
        Some (EXIT_SUCCESS, log ++ [MsgModifyCommands],
              Some (arg args 1, _file parcel))
  else if (0 <? count args) && String.eqb (arg args 0) "list"%string then
    if negb (count args =? 2)
    then Some (EXIT_FAILURE, log ++ [MsgUsageList], None)
    else
      let log := log ++ [MsgListing (arg args 1)] in
      let parcel := new (openFile (arg args 1)) pagecount0 in
      let parcel := snd (open parcel) in
      Some (EXIT_SUCCESS,
            log ++ [MsgPageSize (getPageSize parcel);
                    MsgMaxPages (getMaxPages parcel)],
            Some (arg args 1, _file parcel))
  else if (0 <? count args) && String.eqb (arg args 0) "add"%string then
    if count args <? 2
    then Some (EXIT_FAILURE, log ++ [MsgUsageAdd], None)
    else
      let log := log ++ [MsgAdding (arg args 1)] in
      let parcel := new (openFile (arg args 1)) pagecount0 in
      let parcel := snd (open parcel) in
      match add_fields (skipn 2 args) (parcel, [], log) with
      | None => None
      | Some (parcel, fieldlist, log) =>
          let log :=
            log ++ map (fun f => MsgFieldBytes (id f) (size (data f)))
                       fieldlist in
          let (ok, parcel) := addRecord fieldlist parcel in
          Some (EXIT_SUCCESS, log ++ [if ok then MsgOK else ErrERROR],
                Some (arg args 1, _file parcel))
      end
  else if (0 <? count args) && String.eqb (arg args 0) "edit"%string then
    if count args <? 4
    then Some (EXIT_FAILURE, log ++ [MsgUsageEdit], None)
    else
      let log := log ++ [MsgEditing (arg args 1)] in
      let parcel := new (openFile (arg args 1)) pagecount0 in
      let parcel := snd (open parcel) in
      Some (EXIT_SUCCESS, log, Some (arg args 1, _file parcel))
  else Some (EXIT_SUCCESS, log ++ [MsgCommands], None).

(** A [field=value] argument of which [split] gives the two parts the
    loop of [add] reads, and the lines the loop sends to the log for such
    arguments. *)
Definition well_split (a : String.string) : bool :=
  2 <=? count (split a "="%string).

Definition add_errors (l : list String.string) : list message :=
  flat_map (fun a =>
              (if negb (count (split a "="%string) =? 2)
               then [ErrFormat a] else [])
                ++ [ErrBadField (arg (split a "="%string) 0)]) l.

(** [mainwrap]: the loop over the arguments, [args.popFront()], the
    command string cut by its last character and logged, the command. *)
Definition mainwrap (argv : list String.string)
  : option (Z * list message * option (String.string * ZFile.t)) :=
  let '(cmdstr, args, flags) :=
    scan argv (String.EmptyString, [], []) in
  let args := tl args in
  let cmdstr := substr 0 (String.length cmdstr - 1) cmdstr in
  command args [MsgCommand cmdstr].

End WithEnvironment.

(** The arguments the command is chosen by, and the command string that
    is logged. *)
Definition arguments (argv : list String.string) : list String.string :=
  tl (snd (fst (scan argv (String.EmptyString, [], [])))).

Definition command_string (argv : list String.string) : String.string :=
  let cmdstr := fst (fst (scan argv (String.EmptyString, [], []))) in
  substr 0 (String.length cmdstr - 1) cmdstr.

(** The lines that tell the usage of a command. *)
Definition is_usage (m : message) : bool :=
  match m with
  | MsgUsageCreate | MsgUsageModify | MsgUsageAddfield | MsgUsageList
  | MsgUsageAdd | MsgUsageEdit => true
  | _ => false
  end.

(** The two lines of [ELOG] in the loop of [add]. *)
Definition is_field_error (m : message) : bool :=
  match m with
  | ErrFormat _ | ErrBadField _ => true
  | _ => false
  end.

(** The names of the commands. *)
Definition commands : list String.string :=
  ["create"; "modify"; "list"; "add"; "edit"]%string.

(** An argument that starts with a dash is a flag. *)
Definition not_flag (a : String.string) : bool := negb (is_flag a).

(** The file a command has opened, if any, has these bytes when the command
    is done. *)
Definition final_bytes (r : Z * list message * option (String.string * ZFile.t))
  : option ZBinary :=
  match snd r with
  | Some (_, f) => Some (ZFile.bytes f)
  | None => None
  end.

Definition exit_status (r : Z * list message * option (String.string * ZFile.t))
  : Z := fst (fst r).

Definition log_of (r : Z * list message * option (String.string * ZFile.t))
  : list message := snd (fst r).

(** What a run shows but for the first line of the log, which repeats the
    command line. *)
Definition but_command_line
  (r : Z * list message * option (String.string * ZFile.t))
  : Z * list message * option (String.string * ZFile.t) :=
  (exit_status r, tl (log_of r), snd r).

(** An environment to run [mainwrap] in: every path names an open, empty
    file, and a string is split at each occurrence of the first character
    of the separator. *)
Fixpoint split_at (c : Ascii.ascii) (s cur : String.string)
  : list String.string :=
  match s with
  | String.EmptyString => [cur]
  | String.String x r =>
      if Ascii.eqb x c then cur :: split_at c r String.EmptyString
      else split_at c r (String.append cur (String.String x String.EmptyString))
  end.

Definition SampleTypes : ZParcelTypes := {| FIELD_NULL := 0; nullfield := 0 |}.

Definition SampleTables : FieldTables :=
  {| fieldnametable := fun _ => 0;
     fieldmap := fun _ => (0, []);
     fieldtypes := fun _ => 0 |}.

Definition SampleEnvironment : Environment :=
  {| openFile := fun _ => ZFile.mk true [] 0;
     split := fun s sep =>
                match sep with
                | String.String c _ => split_at c s String.EmptyString
                | String.EmptyString => [s]
                end;
     toFileFormat := fun _ s => zstring s;
     pagecount0 := 0 |}.

End Main.

(** * Properties *)

(** ** Bytes and the big-endian codec *)

Lemma Z_of_byte_range (b : byte) : 0 <= Z_of_byte b < 256.
Proof.
  unfold Z_of_byte. pose proof (Byte.to_N_bounded b) as H.
  split; [apply N2Z.is_nonneg|].
  change 256 with (Z.of_N 256). apply N2Z.inj_lt. lia.
Qed.

Lemma Z_of_byte_of_Z (z : Z) : Z_of_byte (byte_of_Z z) = z mod 256.
Proof.
  unfold Z_of_byte, byte_of_Z.
  assert (Hr : 0 <= z mod 256 < 256) by (apply Z.mod_pos_bound; lia).
  destruct (Byte.of_N (Z.to_N (z mod 256))) as [b|] eqn:E.
  - apply Byte.to_of_N in E. rewrite E. rewrite Z2N.id; lia.
  - apply Byte.of_N_None_iff in E. lia.
Qed.


Lemma be_decode_acc_encode (n : nat) :
  forall acc v, 0 <= v ->
    be_decode_acc acc (be_encode n v)
    = acc * 2 ^ (8 * Z.of_nat n) + v mod 2 ^ (8 * Z.of_nat n).
Proof.
  induction n as [|k IH]; intros acc v Hv.
  - simpl. rewrite Z.mod_1_r. lia.
  - cbn [be_encode be_decode_acc]. rewrite IH by assumption.
    rewrite Z_of_byte_of_Z.
    rewrite Z.shiftr_div_pow2 by lia.
    replace (8 * Z.of_nat (S k)) with (8 * Z.of_nat k + 8) by lia.
    rewrite Z.pow_add_r by lia.
    set (P := 2 ^ (8 * Z.of_nat k)).
    assert (HP : 0 < P) by (apply Z.pow_pos_nonneg; lia).
    change (2 ^ 8) with 256.
    rewrite (Z.rem_mul_r v P 256) by lia.
    lia.
Qed.

Lemma be_decode_encode (n : nat) (v : Z) :
  0 <= v < 2 ^ (8 * Z.of_nat n) -> be_decode (be_encode n v) = v.
Proof.
  intros [H0 H1]. unfold be_decode.
  rewrite be_decode_acc_encode by assumption.
  rewrite Z.mod_small by lia. lia.
Qed.

Lemma size_length (b : ZBinary) (n : nat) : length b = n -> size b = Z.of_nat n.
Proof. unfold size. now intros ->. Qed.

(** The big-endian codec obeys the laws of the interface. *)
Lemma BigEndianCodec : FileCodec.
Proof.
  refine {| toFile8Bits := be_encode 1;
            toFile32Bits := be_encode 4;
            toFile64Bits := be_encode 8;
            fromFile8Bits := be_decode;
            fromFile32Bits := be_decode |}.
  - intros v. reflexivity.
  - intros v. reflexivity.
  - intros v Hv.
    rewrite <- (Z.mod_small v (2 ^ 8)) at 1 by exact Hv.
    unfold be_decode. cbn [be_encode be_decode_acc].
    rewrite Z_of_byte_of_Z. change (2 ^ 8) with 256.
    rewrite Z.shiftr_0_r. rewrite Z.mod_mod by lia.
    unfold is_zu8, ZU8_MOD in Hv. change (2 ^ 8) with 256 in Hv.
    rewrite Z.mod_small; lia.
  - intros v Hv. apply (be_decode_encode 4). exact Hv.
Defined.

Lemma ZBinary_eqb_refl (b : ZBinary) : ZBinary_eqb b b = true.
Proof. unfold ZBinary_eqb. destruct (list_eq_dec _ b b); congruence. Qed.

Lemma ZBinary_eqb_eq (a b : ZBinary) : ZBinary_eqb a b = true -> a = b.
Proof. unfold ZBinary_eqb. destruct (list_eq_dec _ a b); congruence. Qed.

(** ** The byte container *)

Lemma store_at_end_of_prefix (pre rest d : ZBinary) (n : nat) :
  length pre = n ->
  ZFile.store (pre ++ rest) n d = pre ++ d ++ skipn (length d) rest.
Proof.
  intros <-. unfold ZFile.store.
  rewrite firstn_app, firstn_all, Nat.sub_diag. simpl firstn.
  rewrite app_nil_r.
  replace (length pre - length (pre ++ rest))%nat with 0%nat
    by (rewrite length_app; lia).
  simpl repeat. simpl app.
  rewrite skipn_app.
  rewrite (skipn_all2 pre) by lia.
  replace (length pre + length d - length pre)%nat with (length d) by lia.
  reflexivity.
Qed.

Lemma firstn_app_exact (a b : ZBinary) (n : nat) :
  length a = n -> firstn n (a ++ b) = a.
Proof.
  intros <-. rewrite firstn_app, firstn_all, Nat.sub_diag. simpl.
  apply app_nil_r.
Qed.

Lemma skipn_app_exact (a b : ZBinary) (n : nat) :
  length a = n -> skipn n (a ++ b) = b.
Proof.
  intros <-. rewrite skipn_app, skipn_all, Nat.sub_diag. reflexivity.
Qed.

Lemma firstn_skipn_middle (pre d post : ZBinary) (n k : nat) :
  length pre = n -> length d = k ->
  firstn k (skipn n (pre ++ d ++ post)) = d.
Proof.
  intros <- <-.
  rewrite skipn_app, skipn_all, Nat.sub_diag. simpl.
  rewrite firstn_app, firstn_all, Nat.sub_diag. simpl.
  now rewrite app_nil_r.
Qed.

Lemma read_middle (pre d post : ZBinary) (p max : Z) :
  p = size pre -> max = size d ->
  ZFile.read (ZFile.mk true (pre ++ d ++ post) p) max
  = (d, ZFile.mk true (pre ++ d ++ post) (size (pre ++ d))).
Proof.
  intros -> ->. unfold ZFile.read, size.
  cbn [ZFile.isOpen ZFile.bytes ZFile.pos]. cbv zeta.
  rewrite !Nat2Z.id.
  rewrite !(firstn_skipn_middle pre d post (length pre) (length d))
    by reflexivity.
  rewrite length_app, Nat2Z.inj_add. reflexivity.
Qed.

Lemma store_nth_error (old : ZBinary) (p : nat) (x : byte) :
  nth_error (ZFile.store old p [x]) p = Some x.
Proof.
  unfold ZFile.store. rewrite app_assoc.
  rewrite nth_error_app2.
  - rewrite length_app, length_firstn, repeat_length.
    replace (p - (Nat.min p (length old) + (p - length old)))%nat with 0%nat
      by lia.
    reflexivity.
  - rewrite length_app, length_firstn, repeat_length. lia.
Qed.

Lemma MIN_min_Z (a b : Z) : MIN a b = Z.min a b.
Proof. unfold MIN. destruct (Z.ltb_spec a b); lia. Qed.

(** ** The page-oriented parser *)
Module ZParcel4ParserFacts.
Import ZParcel4Parser.

Section WithCodec.
Context {codec : FileCodec} {types : ZParcelTypes}.

Lemma toFile8Bits_length (v : Z) : length (toFile8Bits v) = 1%nat.
Proof. pose proof (toFile8Bits_size v) as H. unfold size in H. lia. Qed.

Lemma toFile32Bits_length (v : Z) : length (toFile32Bits v) = 4%nat.
Proof. pose proof (toFile32Bits_size v) as H. unfold size in H. lia. Qed.

Lemma head_bytes_length (c : config) : length (head_bytes c) = 29%nat.
Proof.
  unfold head_bytes. rewrite !length_app.
  rewrite toFile8Bits_length, !toFile32Bits_length. reflexivity.
Qed.

Ltac proj_simpl :=
  cbv beta delta
    [with_file with_init with_pagesize with_pagepower with_maxpages
     with_freelistpage with_fieldpage with_indexpage with_recordpage
     ZFile.setPos];
  cbn [_file _init _pagesize _pagecount _pagepower _maxpages _freelistpage
       _fieldpage _indexpage _recordpage _pagecache
       ZFile.isOpen ZFile.bytes ZFile.pos].

Lemma with_file_with_file (f g : ZFile.t) (s : t) :
  with_file f (with_file g s) = with_file f s.
Proof. reflexivity. Qed.

Lemma bind_eq {A B : Type} (c : M A) (k : A -> M B) (s s' : t) (a : A) :
  c s = (a, s') -> bind c k s = k a s'.
Proof. unfold bind. now intros ->. Qed.

Lemma file_write_run (s : t) (acc rest d : ZBinary) :
  _file s = ZFile.mk true (acc ++ rest) (size acc) ->
  file_write d s
  = (size d,
     with_file (ZFile.mk true ((acc ++ d) ++ skipn (length d) rest)
                             (size (acc ++ d))) s).
Proof.
  intros Hf. unfold file_write, ZFile.write. rewrite Hf.
  cbn [ZFile.isOpen ZFile.bytes ZFile.pos].
  unfold size at 2. rewrite Nat2Z.id.
  rewrite (store_at_end_of_prefix acc rest d (length acc)) by reflexivity.
  rewrite <- app_assoc.
  unfold size. rewrite length_app, Nat2Z.inj_add. reflexivity.
Qed.

Lemma file_read_run (s : t) (B pre d post : ZBinary) (p max : Z) :
  _file s = ZFile.mk true B p ->
  B = pre ++ d ++ post -> p = size pre -> max = size d ->
  file_read max s = (d, with_file (ZFile.mk true B (p + max)) s).
Proof.
  intros Hf -> -> ->. unfold file_read. rewrite Hf.
  rewrite (read_middle pre d post (size pre) (size d)) by reflexivity.
  unfold size. rewrite length_app, Nat2Z.inj_add. reflexivity.
Qed.

Lemma size_app (a b : ZBinary) : size (a ++ b) = size a + size b.
Proof. unfold size. rewrite length_app. lia. Qed.

Lemma writeHeadPage_spec (s : t) :
  ZFile.isOpen (_file s) = true ->
  writeHeadPage s
  = (true,
     with_file (ZFile.mk true
                  (head_bytes (config_of s) ++ skipn 29 (ZFile.bytes (_file s)))
                  29) s).
Proof.
  intros Hopen. unfold writeHeadPage.
  erewrite bind_eq by reflexivity.
  erewrite bind_eq.
  2:{ eapply (file_write_run _ [] (ZFile.bytes (_file s))).
      destruct s as [[o bs p] ? ? ? ? ? ? ? ? ? ?]. cbn in Hopen. subst o.
      reflexivity. }
  change (negb (size VERSION_4_SIG =? SIG_SIZE)) with false. cbv iota.
  proj_simpl.
  do 6 (erewrite bind_eq by reflexivity;
        erewrite bind_eq by (eapply file_write_run; reflexivity);
        rewrite ?toFile8Bits_size, ?toFile32Bits_size;
        change (negb (1 =? 1)) with false;
        change (negb (4 =? 4)) with false; cbv iota; proj_simpl).
  unfold ret. do 3 f_equal.
  - rewrite !skipn_skipn.
    rewrite toFile8Bits_length, !toFile32Bits_length.
    cbn [length Nat.add app]. unfold head_bytes, config_of.
    cbn [c_pagepower c_maxpages c_freelistpage c_fieldpage c_indexpage
         c_recordpage].
    rewrite <- !app_assoc. reflexivity.
  - rewrite !size_app, toFile8Bits_size, !toFile32Bits_size. reflexivity.
Qed.

Lemma setPageSize_run (power : Z) (s : t) :
  setPageSize power s
  = (tt, mk (_file s) (_init s)
            (if _init s then _pagesize s else zu32 (Z.shiftl 1 power))
            (_pagecount s)
            (if _init s then _pagepower s else power)
            (_maxpages s) (_freelistpage s) (_fieldpage s) (_indexpage s)
            (_recordpage s) (_pagecache s)).
Proof.
  unfold setPageSize, bind, gets, modify, ret.
  destruct s as [f ini psz pc pp mp fl fp ip rp cache].
  destruct ini; reflexivity.
Qed.

Lemma loadHeadPage_spec (s : t) (c : config) (rest : ZBinary) (p : Z) :
  _file s = ZFile.mk true (head_bytes c ++ rest) p ->
  config_wf c ->
  exists s',
    loadHeadPage s = (true, s') /\
    config_of s' = c /\
    _file s' = ZFile.mk true (head_bytes c ++ rest) 29.
Proof.
  intros Hf (Hpp & Hmp & Hfl & Hfp & Hip & Hrp).
  destruct c as [pp mp fl fp ip rp].
  cbn [c_pagepower c_maxpages c_freelistpage c_fieldpage c_indexpage
       c_recordpage] in *.
  set (B := head_bytes _ ++ rest) in *.
  assert (HB : B = VERSION_4_SIG ++ toFile8Bits pp ++ toFile32Bits mp
                 ++ toFile32Bits fl ++ toFile32Bits fp ++ toFile32Bits ip
                 ++ toFile32Bits rp ++ rest).
  { unfold B, head_bytes.
    cbn [c_pagepower c_maxpages c_freelistpage c_fieldpage c_indexpage
         c_recordpage].
    rewrite <- !app_assoc. reflexivity. }
  clearbody B.
  destruct s as [f ini psz pc pp0 mp0 fl0 fp0 ip0 rp0 cache].
  cbn [_file] in Hf. subst f.
  pose (d1 := toFile8Bits pp). pose (d2 := toFile32Bits mp).
  pose (d3 := toFile32Bits fl). pose (d4 := toFile32Bits fp).
  pose (d5 := toFile32Bits ip). pose (d6 := toFile32Bits rp).
  assert (Hd1 : size d1 = 1) by apply toFile8Bits_size.
  assert (Hd2 : size d2 = 4) by apply toFile32Bits_size.
  assert (Hd3 : size d3 = 4) by apply toFile32Bits_size.
  assert (Hd4 : size d4 = 4) by apply toFile32Bits_size.
  assert (Hd5 : size d5 = 4) by apply toFile32Bits_size.
  assert (Hd6 : size d6 = 4) by apply toFile32Bits_size.
  assert (E1 : fromFile8Bits d1 = pp)
    by (apply fromFile8Bits_toFile8Bits; assumption).
  assert (E2 : fromFile32Bits d2 = mp)
    by (apply fromFile32Bits_toFile32Bits; assumption).
  assert (E3 : fromFile32Bits d3 = fl)
    by (apply fromFile32Bits_toFile32Bits; assumption).
  assert (E4 : fromFile32Bits d4 = fp)
    by (apply fromFile32Bits_toFile32Bits; assumption).
  assert (E5 : fromFile32Bits d5 = ip)
    by (apply fromFile32Bits_toFile32Bits; assumption).
  assert (E6 : fromFile32Bits d6 = rp)
    by (apply fromFile32Bits_toFile32Bits; assumption).
  fold d1 d2 d3 d4 d5 d6 in HB. clearbody d1 d2 d3 d4 d5 d6.
  assert (Hrun : loadHeadPage
            (mk (ZFile.mk true B p) ini psz pc pp0 mp0 fl0 fp0 ip0 rp0 cache)
          = (true,
             mk (ZFile.mk true B 29) ini
                (if ini then psz else zu32 (Z.shiftl 1 (fromFile8Bits d1)))
                pc (fromFile8Bits d1) (fromFile32Bits d2) (fromFile32Bits d3)
                (fromFile32Bits d4) (fromFile32Bits d5) (fromFile32Bits d6)
                cache)).
  { unfold loadHeadPage.
    erewrite bind_eq by reflexivity. proj_simpl.
    erewrite bind_eq
      by (eapply (file_read_run _ B [] VERSION_4_SIG);
          [reflexivity | exact HB | reflexivity | reflexivity]).
    change (negb (size VERSION_4_SIG =? SIG_SIZE)) with false. cbv iota.
    rewrite ZBinary_eqb_refl. cbn [negb]. cbv iota. proj_simpl.
    erewrite bind_eq
      by (eapply (file_read_run _ B VERSION_4_SIG d1);
          [reflexivity | exact HB | reflexivity | now rewrite Hd1]).
    rewrite Hd1. change (negb (1 =? 1)) with false. cbv iota.
    erewrite bind_eq by reflexivity.
    erewrite bind_eq by reflexivity.
    erewrite bind_eq by (apply setPageSize_run).
    proj_simpl.
    erewrite bind_eq.
    2:{ eapply (file_read_run _ B (VERSION_4_SIG ++ d1) d2);
        [reflexivity | rewrite HB, <- !app_assoc; reflexivity
        | rewrite size_app, Hd1; reflexivity | now rewrite Hd2]. }
    rewrite Hd2. change (negb (4 =? 4)) with false. cbv iota.
    erewrite bind_eq by reflexivity. proj_simpl.
    erewrite bind_eq.
    2:{ eapply (file_read_run _ B (VERSION_4_SIG ++ d1 ++ d2) d3);
        [reflexivity | rewrite HB, <- !app_assoc; reflexivity
        | rewrite !size_app, Hd1, Hd2; reflexivity | now rewrite Hd3]. }
    rewrite Hd3. change (negb (4 =? 4)) with false. cbv iota.
    erewrite bind_eq by reflexivity. proj_simpl.
    erewrite bind_eq.
    2:{ eapply (file_read_run _ B (VERSION_4_SIG ++ d1 ++ d2 ++ d3) d4);
        [reflexivity | rewrite HB, <- !app_assoc; reflexivity
        | rewrite !size_app, Hd1, Hd2, Hd3; reflexivity | now rewrite Hd4]. }
    rewrite Hd4. change (negb (4 =? 4)) with false. cbv iota.
    erewrite bind_eq by reflexivity. proj_simpl.
    erewrite bind_eq.
    2:{ eapply (file_read_run _ B (VERSION_4_SIG ++ d1 ++ d2 ++ d3 ++ d4) d5);
        [reflexivity | rewrite HB, <- !app_assoc; reflexivity
        | rewrite !size_app, Hd1, Hd2, Hd3, Hd4; reflexivity
        | now rewrite Hd5]. }
    rewrite Hd5. change (negb (4 =? 4)) with false. cbv iota.
    erewrite bind_eq by reflexivity. proj_simpl.
    erewrite bind_eq.
    2:{ eapply (file_read_run _ B (VERSION_4_SIG ++ d1 ++ d2 ++ d3 ++ d4 ++ d5)
                  d6);
        [reflexivity | rewrite HB, <- !app_assoc; reflexivity
        | rewrite !size_app, Hd1, Hd2, Hd3, Hd4, Hd5; reflexivity
        | now rewrite Hd6]. }
    rewrite Hd6. change (negb (4 =? 4)) with false. cbv iota.
    erewrite bind_eq by reflexivity. proj_simpl.
    unfold ret. destruct ini; reflexivity. }
  eexists. split; [exact Hrun|].
  unfold config_of. proj_simpl.
  rewrite E1, E2, E3, E4, E5, E6. split; reflexivity.
Qed.

(** C8. Head-page round trip: on an open file, for every configuration within
    the ranges of the members' types, [writeHeadPage] succeeds, and
    [loadHeadPage] run by any parser on the file it left succeeds and
    restores exactly the six values that were written ([_pagepower],
    [_maxpages], [_freelistpage], [_fieldpage], [_indexpage],
    [_recordpage]). *)
Theorem head_page_round_trip (w : t) :
  ZFile.isOpen (_file w) = true ->
  config_wf (config_of w) ->
  fst (writeHeadPage w) = true /\
  forall r : t,
    _file r = _file (snd (writeHeadPage w)) ->
    fst (loadHeadPage r) = true /\
    config_of (snd (loadHeadPage r)) = config_of w.
Proof.
  intros Hopen Hwf.
  rewrite (writeHeadPage_spec w Hopen). cbn [fst snd].
  split; [reflexivity|].
  intros r Hr.
  destruct (loadHeadPage_spec r (config_of w)
              (skipn 29 (ZFile.bytes (_file w))) 29 Hr Hwf)
    as (r' & Hrun & Hcfg & _).
  rewrite Hrun. cbn [fst snd]. split; [reflexivity | exact Hcfg].
Qed.

Lemma keeps_init_ret {A : Type} (a : A) : keeps_init (ret a).
Proof. intros s. reflexivity. Qed.

Lemma keeps_init_bind {A B : Type} (c : M A) (k : A -> M B) :
  keeps_init c -> (forall a, keeps_init (k a)) -> keeps_init (bind c k).
Proof.
  intros Hc Hk s. unfold bind. specialize (Hc s).
  destruct (c s) as [a s']. cbn [snd] in Hc. rewrite Hk. exact Hc.
Qed.

Lemma keeps_init_if {A : Type} (b : bool) (c1 c2 : M A) :
  keeps_init c1 -> keeps_init c2 -> keeps_init (if b then c1 else c2).
Proof. destruct b; auto. Qed.

Lemma keeps_init_gets {A : Type} (f : t -> A) : keeps_init (gets f).
Proof. intros s. reflexivity. Qed.

Lemma keeps_init_file_setPos (p : Z) : keeps_init (file_setPos p).
Proof. intros s. reflexivity. Qed.

Lemma keeps_init_file_read (max : Z) : keeps_init (file_read max).
Proof.
  intros s. unfold file_read. destruct (ZFile.read _ _). reflexivity.
Qed.

Lemma keeps_init_modify (f : t -> t) :
  (forall s, _init (f s) = _init s) -> keeps_init (modify f).
Proof. intros H s. apply H. Qed.

Lemma keeps_init_setPageSize (power : Z) : keeps_init (setPageSize power).
Proof. intros s. rewrite setPageSize_run. reflexivity. Qed.

Lemma keeps_init_loadHeadPage : keeps_init loadHeadPage.
Proof.
  unfold loadHeadPage.
  repeat first
    [ apply keeps_init_ret
    | apply keeps_init_gets
    | apply keeps_init_file_setPos
    | apply keeps_init_file_read
    | apply keeps_init_setPageSize
    | apply keeps_init_modify; reflexivity
    | apply keeps_init_if
    | apply keeps_init_bind; [|intros ?] ].
Qed.

(** [open] sets [_init] only when [loadHeadPage] succeeds: a failure to load
    the head page, such as a signature that does not match, leaves the
    parser uninitialized. *)
Lemma open_failure_leaves_uninitialized (s : t) :
  fst (open s) = false -> _init (snd (open s)) = false.
Proof.
  unfold open. erewrite bind_eq by reflexivity.
  pose proof (keeps_init_loadHeadPage (with_init false s)) as Hk.
  unfold bind.
  destruct (loadHeadPage (with_init false s)) as [ok s'].
  cbn [snd] in Hk.
  destruct ok; cbn [negb]; [discriminate|]. intros _. exact Hk.
Qed.

(** A file that does not start with the signature is refused. *)
Lemma loadHeadPage_bad_signature (s : t) :
  firstn 8 (ZFile.bytes (_file s)) <> VERSION_4_SIG ->
  fst (loadHeadPage s) = false.
Proof.
  intros Hsig. unfold loadHeadPage.
  erewrite bind_eq by reflexivity.
  unfold bind at 1, file_read, ZFile.read. proj_simpl.
  destruct (ZFile.isOpen (_file s)).
  - cbv zeta. change (Z.to_nat 0) with 0%nat. rewrite skipn_O.
    change (Z.to_nat SIG_SIZE) with 8%nat.
    destruct (size (firstn 8 (ZFile.bytes (_file s))) =? SIG_SIZE);
      cbn [negb]; [|reflexivity].
    destruct (ZBinary_eqb _ VERSION_4_SIG) eqn:E; cbn [negb]; [|reflexivity].
    apply ZBinary_eqb_eq in E. contradiction.
  - reflexivity.
Qed.

(** C9. The field and record operations are inert: [addRecord] returns false,
    [addField] and [getFieldId] return 0, [getFieldType] returns
    [nullfield], and the typed [add*Record] operations return with the
    parser, and with it the file, exactly as they found them. *)
Theorem field_and_record_operations_inert (s : t) :
  (forall fields, addRecord fields s = (false, s)) /\
  (forall name type, addField name type s = (0, s)) /\
  (forall name, getFieldId name s = (0, s)) /\
  (forall fid, getFieldType fid s = (nullfield, s)) /\
  (forall field num, addUintRecord field num s = (tt, s)) /\
  (forall field num, addSintRecord field num s = (tt, s)) /\
  (forall field uid, addZUIDRecord field uid s = (tt, s)) /\
  (forall (double : Type) field (flt : double),
      addFloatRecord field flt s = (tt, s)) /\
  (forall field str, addStringRecord field str s = (tt, s)) /\
  (forall field bin, addBinaryRecord field bin s = (tt, s)) /\
  (forall field file, addFileRecord field file s = (tt, s)).
Proof.
  repeat split; try reflexivity.
  intros name type. unfold addField, getFieldId, getFieldType, bind, ret.
  destruct (0 =? FIELD_NULL); cbn [negb]; [reflexivity|].
  destruct (type =? nullfield); reflexivity.
Qed.

Lemma insertPage_freelistpage (s : t) :
  insertPage freelistpage s = (ZU32_MAX, s).
Proof. reflexivity. Qed.

Lemma addToFreelist_run (page : Z) (s : t) :
  addToFreelist page s
  = (false,
     if _freelistpage s =? 0 then with_freelistpage ZU32_MAX s else s).
Proof.
  unfold addToFreelist, bind, gets, modify, ret.
  destruct (_freelistpage s =? 0); reflexivity.
Qed.

(** C10. Page reclamation always fails: for every page id [addToFreelist]
    returns false, and [freePage] returns false having first put the
    free-page type byte (0) to the file at the page's offset; and
    [addToFreelist], finding no freelist page ([_freelistpage == 0]), sets
    [_freelistpage] to [ZU32_MAX], the value [insertPage] returns when it
    allocates nothing, and leaves the file as it was. *)
Theorem page_reclamation_always_fails (s : t) (page : Z) :
  fst (addToFreelist page s) = false /\
  fst (freePage page s) = false /\
  _file (snd (freePage page s))
  = snd (ZFile.write (ZFile.setPos (_file s) (zu32 (page * _pagesize s)))
                     [x00]) /\
  _freelistpage (snd (addToFreelist page s))
  = (if _freelistpage s =? 0 then ZU32_MAX else _freelistpage s) /\
  _file (snd (addToFreelist page s)) = _file s /\
  insertPage freelistpage s = (ZU32_MAX, s) /\
  ZU32_MAX = 4294967295 /\
  (ZFile.isOpen (_file s) = true ->
   nth_error (ZFile.bytes (_file (snd (freePage page s))))
             (Z.to_nat (zu32 (page * _pagesize s)))
   = Some (byte_of_Z FREEPAGE)).
Proof.
  rewrite addToFreelist_run. cbn [fst snd].
  split; [reflexivity|].
  assert (Hfree :
    freePage page s
    = (false,
       let fw := ZFile.write
                   (ZFile.setPos (_file s) (zu32 (page * _pagesize s)))
                   [x00] in
       if fst fw =? 1
       then snd (addToFreelist page (with_file (snd fw) s))
       else with_file (snd fw) s)).
  { unfold freePage.
    erewrite bind_eq by reflexivity.
    erewrite bind_eq by reflexivity.
    unfold bind at 1. unfold file_write.
    change (byte_of_Z 0) with x00. proj_simpl.
    destruct (ZFile.write _ [x00]) as [n f'] eqn:Ew.
    cbn [fst snd]. cbv zeta.
    destruct (n =? 1); [|reflexivity].
    unfold bind. rewrite addToFreelist_run. reflexivity. }
  rewrite Hfree. cbn [fst snd]. cbv zeta.
  split; [reflexivity|].
  split.
  - destruct (fst (ZFile.write _ [x00]) =? 1); [|reflexivity].
    rewrite addToFreelist_run. cbn [snd].
    destruct (_freelistpage _ =? 0); reflexivity.
  - split; [destruct (_freelistpage s =? 0); reflexivity|].
    split; [destruct (_freelistpage s =? 0); reflexivity|].
    split; [reflexivity|]. split; [reflexivity|].
    intros Hopen. unfold ZFile.write, ZFile.setPos.
    cbn [ZFile.isOpen ZFile.bytes ZFile.pos]. rewrite Hopen.
    cbn [fst snd]. change (size [x00] =? 1) with true. cbv iota.
    rewrite addToFreelist_run. cbn [snd].
    assert (Hb : forall f (u : t),
               ZFile.bytes (_file (if _freelistpage (with_file f u) =? 0
                                   then with_freelistpage ZU32_MAX
                                          (with_file f u)
                                   else with_file f u))
               = ZFile.bytes f)
      by (intros f u; destruct (_ =? 0); reflexivity).
    rewrite Hb. cbn [ZFile.bytes].
    apply store_nth_error.
Qed.

End WithCodec.
(** The parser the command line's [create] builds (page size power 11,
    twice 64K pages) on an empty open file. *)
Lemma head_page_round_trip_witness :
  let w := with_maxpages (64 * 1024 * 2)
             (snd (setPageSize 11 (new (ZFile.mk true [] 0) 0))) in
  ZFile.isOpen (_file w) = true /\
  config_wf (config_of w) /\
  (fst (@writeHeadPage BigEndianCodec w) = true /\
   forall r : t,
     _file r = _file (snd (@writeHeadPage BigEndianCodec w)) ->
     fst (@loadHeadPage BigEndianCodec r) = true /\
     config_of (snd (@loadHeadPage BigEndianCodec r)) = config_of w).
Proof.
  intros w.
  assert (Hopen : ZFile.isOpen (_file w) = true) by reflexivity.
  assert (Hwf : config_wf (config_of w)).
  { unfold config_wf, is_zu8, is_zu32, ZU8_MOD, ZU32_MOD. cbn. lia. }
  split; [exact Hopen|]. split; [exact Hwf|].
  exact (@head_page_round_trip BigEndianCodec w Hopen Hwf).
Defined.

Lemma page_reclamation_always_fails_witness :
  let s := new (ZFile.mk true [] 0) 0 in
  ZFile.isOpen (_file s) = true /\
  nth_error (ZFile.bytes (_file (snd (@freePage BigEndianCodec 3 s))))
            (Z.to_nat (zu32 (3 * _pagesize s)))
  = Some (byte_of_Z FREEPAGE).
Proof.
  intros s. split; [reflexivity|].
  apply (@page_reclamation_always_fails BigEndianCodec s 3). reflexivity.
Defined.

End ZParcel4ParserFacts.

(** ** More on the page-oriented parser: the head page *)
Module HeadPageFacts.
Import ZParcel4Parser ZParcel4ParserFacts.

Ltac proj_simpl :=
  cbv beta delta
    [with_file with_init with_pagesize with_pagepower with_maxpages
     with_freelistpage with_fieldpage with_indexpage with_recordpage
     ZFile.setPos];
  cbn [_file _init _pagesize _pagecount _pagepower _maxpages _freelistpage
       _fieldpage _indexpage _recordpage _pagecache
       ZFile.isOpen ZFile.bytes ZFile.pos].

Section WithCodec.
Context {codec : FileCodec} {types : ZParcelTypes}.

(** [loadHeadPage] on a file that starts with the head bytes of [c], state
    by state. *)
Lemma loadHeadPage_run (c : config) (rest : ZBinary) (p : Z) (ini : bool)
  (psz pc pp0 mp0 fl0 fp0 ip0 rp0 : Z) (cache : list (Z * ParcelPage)) :
  config_wf c ->
  loadHeadPage (mk (ZFile.mk true (head_bytes c ++ rest) p) ini psz pc pp0
                   mp0 fl0 fp0 ip0 rp0 cache)
  = (true,
     mk (ZFile.mk true (head_bytes c ++ rest) 29) ini
        (if ini then psz else zu32 (Z.shiftl 1 (c_pagepower c)))
        pc (c_pagepower c) (c_maxpages c) (c_freelistpage c) (c_fieldpage c)
        (c_indexpage c) (c_recordpage c) cache).
Proof.
  intros (Hpp & Hmp & Hfl & Hfp & Hip & Hrp).
  destruct c as [pp mp fl fp ip rp].
  cbn [c_pagepower c_maxpages c_freelistpage c_fieldpage c_indexpage
       c_recordpage] in *.
  set (B := head_bytes _ ++ rest) in *.
  assert (HB : B = VERSION_4_SIG ++ toFile8Bits pp ++ toFile32Bits mp
                 ++ toFile32Bits fl ++ toFile32Bits fp ++ toFile32Bits ip
                 ++ toFile32Bits rp ++ rest).
  { unfold B, head_bytes.
    cbn [c_pagepower c_maxpages c_freelistpage c_fieldpage c_indexpage
         c_recordpage].
    rewrite <- !app_assoc. reflexivity. }
  clearbody B.
  pose (d1 := toFile8Bits pp). pose (d2 := toFile32Bits mp).
  pose (d3 := toFile32Bits fl). pose (d4 := toFile32Bits fp).
  pose (d5 := toFile32Bits ip). pose (d6 := toFile32Bits rp).
  assert (Hd1 : size d1 = 1) by apply toFile8Bits_size.
  assert (Hd2 : size d2 = 4) by apply toFile32Bits_size.
  assert (Hd3 : size d3 = 4) by apply toFile32Bits_size.
  assert (Hd4 : size d4 = 4) by apply toFile32Bits_size.
  assert (Hd5 : size d5 = 4) by apply toFile32Bits_size.
  assert (Hd6 : size d6 = 4) by apply toFile32Bits_size.
  assert (E1 : fromFile8Bits d1 = pp)
    by (apply fromFile8Bits_toFile8Bits; assumption).
  assert (E2 : fromFile32Bits d2 = mp)
    by (apply fromFile32Bits_toFile32Bits; assumption).
  assert (E3 : fromFile32Bits d3 = fl)
    by (apply fromFile32Bits_toFile32Bits; assumption).
  assert (E4 : fromFile32Bits d4 = fp)
    by (apply fromFile32Bits_toFile32Bits; assumption).
  assert (E5 : fromFile32Bits d5 = ip)
    by (apply fromFile32Bits_toFile32Bits; assumption).
  assert (E6 : fromFile32Bits d6 = rp)
    by (apply fromFile32Bits_toFile32Bits; assumption).
  fold d1 d2 d3 d4 d5 d6 in HB. clearbody d1 d2 d3 d4 d5 d6.
  rewrite <- E1, <- E2, <- E3, <- E4, <- E5, <- E6.
  clear E1 E2 E3 E4 E5 E6.
  unfold loadHeadPage.
  erewrite bind_eq by reflexivity. proj_simpl.
  erewrite bind_eq
    by (eapply (file_read_run _ B [] VERSION_4_SIG);
        [reflexivity | exact HB | reflexivity | reflexivity]).
  change (negb (size VERSION_4_SIG =? SIG_SIZE)) with false. cbv iota.
  rewrite ZBinary_eqb_refl. cbn [negb]. cbv iota. proj_simpl.
  erewrite bind_eq
    by (eapply (file_read_run _ B VERSION_4_SIG d1);
        [reflexivity | exact HB | reflexivity | now rewrite Hd1]).
  rewrite Hd1. change (negb (1 =? 1)) with false. cbv iota.
  erewrite bind_eq by reflexivity.
  erewrite bind_eq by reflexivity.
  erewrite bind_eq by (apply setPageSize_run).
  proj_simpl.
  erewrite bind_eq.
  2:{ eapply (file_read_run _ B (VERSION_4_SIG ++ d1) d2);
      [reflexivity | rewrite HB, <- !app_assoc; reflexivity
      | rewrite size_app, Hd1; reflexivity | now rewrite Hd2]. }
  rewrite Hd2. change (negb (4 =? 4)) with false. cbv iota.
  erewrite bind_eq by reflexivity. proj_simpl.
  erewrite bind_eq.
  2:{ eapply (file_read_run _ B (VERSION_4_SIG ++ d1 ++ d2) d3);
      [reflexivity | rewrite HB, <- !app_assoc; reflexivity
      | rewrite !size_app, Hd1, Hd2; reflexivity | now rewrite Hd3]. }
  rewrite Hd3. change (negb (4 =? 4)) with false. cbv iota.
  erewrite bind_eq by reflexivity. proj_simpl.
  erewrite bind_eq.
  2:{ eapply (file_read_run _ B (VERSION_4_SIG ++ d1 ++ d2 ++ d3) d4);
      [reflexivity | rewrite HB, <- !app_assoc; reflexivity
      | rewrite !size_app, Hd1, Hd2, Hd3; reflexivity | now rewrite Hd4]. }
  rewrite Hd4. change (negb (4 =? 4)) with false. cbv iota.
  erewrite bind_eq by reflexivity. proj_simpl.
  erewrite bind_eq.
  2:{ eapply (file_read_run _ B (VERSION_4_SIG ++ d1 ++ d2 ++ d3 ++ d4) d5);
      [reflexivity | rewrite HB, <- !app_assoc; reflexivity
      | rewrite !size_app, Hd1, Hd2, Hd3, Hd4; reflexivity
      | now rewrite Hd5]. }
  rewrite Hd5. change (negb (4 =? 4)) with false. cbv iota.
  erewrite bind_eq by reflexivity. proj_simpl.
  erewrite bind_eq.
  2:{ eapply (file_read_run _ B (VERSION_4_SIG ++ d1 ++ d2 ++ d3 ++ d4 ++ d5)
                d6);
      [reflexivity | rewrite HB, <- !app_assoc; reflexivity
      | rewrite !size_app, Hd1, Hd2, Hd3, Hd4, Hd5; reflexivity
      | now rewrite Hd6]. }
  rewrite Hd6. change (negb (4 =? 4)) with false. cbv iota.
  erewrite bind_eq by reflexivity. proj_simpl.
  unfold ret. destruct ini; reflexivity.
Qed.

Lemma create_run (w : t) :
  ZFile.isOpen (_file w) = true ->
  create w
  = (true,
     with_init true
       (with_file (ZFile.mk true
                     (head_bytes (config_of w)
                        ++ skipn 29 (ZFile.bytes (_file w))) 29) w)).
Proof.
  intros Hopen. unfold create.
  erewrite bind_eq by reflexivity.
  erewrite bind_eq by (apply writeHeadPage_spec; exact Hopen).
  cbn [negb]. cbv iota.
  erewrite bind_eq by reflexivity. reflexivity.
Qed.

Lemma open_run (r : t) (c : config) (rest : ZBinary) (p : Z) :
  _file r = ZFile.mk true (head_bytes c ++ rest) p ->
  config_wf c ->
  open r
  = (true,
     mk (ZFile.mk true (head_bytes c ++ rest) 29) true
        (zu32 (Z.shiftl 1 (c_pagepower c))) (_pagecount r)
        (c_pagepower c) (c_maxpages c) (c_freelistpage c) (c_fieldpage c)
        (c_indexpage c) (c_recordpage c) (_pagecache r)).
Proof.
  intros Hf Hwf. destruct r as [f ini psz pc pp0 mp0 fl0 fp0 ip0 rp0 cache].
  cbn [_file] in Hf. subst f. unfold open.
  erewrite bind_eq by reflexivity. proj_simpl.
  erewrite bind_eq by (apply loadHeadPage_run; exact Hwf).
  cbn [negb]. cbv iota.
  erewrite bind_eq by reflexivity. reflexivity.
Qed.

Lemma pagesize_of_power (power : Z) :
  0 <= power < 32 -> zu32 (Z.shiftl 1 power) = 2 ^ power.
Proof.
  intros H. rewrite Z.shiftl_1_l. unfold zu32, ZU32_MOD.
  apply Z.mod_small. split; [apply Z.pow_nonneg; lia|].
  apply Z.pow_lt_mono_r; lia.
Qed.

(** X1. [create] on an open file succeeds and marks the parser
    initialized; [open], by any parser on the file [create] left, succeeds,
    marks that parser initialized and restores the six values; the page
    size it reports is 2 to the page size power (for a power below 32) and
    the maximum of pages is the one written. *)
Theorem create_then_open (w : t) :
  ZFile.isOpen (_file w) = true ->
  config_wf (config_of w) ->
  0 <= _pagepower w < 32 ->
  fst (create w) = true /\ _init (snd (create w)) = true /\
  forall r : t,
    _file r = _file (snd (create w)) ->
    fst (open r) = true /\ _init (snd (open r)) = true /\
    config_of (snd (open r)) = config_of w /\
    getPageSize (snd (open r)) = 2 ^ _pagepower w /\
    getMaxPages (snd (open r)) = _maxpages w.
Proof.
  intros Hopen Hwf Hpw. rewrite (create_run w Hopen). cbn [fst snd].
  split; [reflexivity|]. split; [reflexivity|].
  intros r Hr.
  rewrite (open_run r (config_of w) (skipn 29 (ZFile.bytes (_file w))) 29
             Hr Hwf).
  cbn [fst snd]. repeat split.
  unfold getPageSize. cbn [_pagesize config_of c_pagepower].
  now apply pagesize_of_power.
Qed.

(** X3. [writeHeadPage] on an open file writes the 29 bytes of the head and
    nothing else: the bytes of the file from offset 29 on are the ones that
    were there, and the file is as long as before, or 29 bytes if it was
    shorter. *)
Theorem writeHeadPage_writes_head_only (s : t) :
  ZFile.isOpen (_file s) = true ->
  let B := ZFile.bytes (_file s) in
  let B' := ZFile.bytes (_file (snd (writeHeadPage s))) in
  firstn 29 B' = head_bytes (config_of s) /\
  skipn 29 B' = skipn 29 B /\
  size B' = Z.max 29 (size B).
Proof.
  intros Hopen B B'. unfold B'. rewrite (writeHeadPage_spec s Hopen).
  cbn [snd]. unfold with_file. cbn [_file ZFile.bytes]. fold B.
  pose proof (head_bytes_length (config_of s)) as Hl.
  split; [apply firstn_app_exact; exact Hl|].
  split; [apply skipn_app_exact; exact Hl|].
  unfold size. rewrite length_app, Hl, length_skipn. lia.
Qed.

(** X5. On a file that is not open nothing is written: [writeHeadPage] and
    [create] return false, the bytes of the file stay, and [create] leaves
    the parser uninitialized. *)
Theorem create_on_closed_file (s : t) :
  ZFile.isOpen (_file s) = false ->
  fst (writeHeadPage s) = false /\
  fst (create s) = false /\
  _init (snd (create s)) = false /\
  ZFile.bytes (_file (snd (create s))) = ZFile.bytes (_file s).
Proof.
  intros Hc.
  assert (Hw : forall u, ZFile.isOpen (_file u) = false ->
             writeHeadPage u = (false, with_file (ZFile.setPos (_file u) 0) u)).
  { intros u Hu. unfold writeHeadPage.
    erewrite bind_eq by reflexivity.
    unfold bind at 1, file_write, ZFile.write. proj_simpl. rewrite Hu.
    reflexivity. }
  rewrite (Hw s Hc). split; [reflexivity|].
  unfold create. erewrite bind_eq by reflexivity.
  erewrite bind_eq by (apply Hw; exact Hc).
  cbn [negb]. cbv iota. repeat split.
Qed.

(** *** What does not write *)

Lemma preserves_ret {A B : Type} (f : t -> B) (a : A) : preserves f (ret a).
Proof. intros s. reflexivity. Qed.

Lemma preserves_bind {A B C : Type} (f : t -> C) (c : M A) (k : A -> M B) :
  preserves f c -> (forall a, preserves f (k a)) -> preserves f (bind c k).
Proof.
  intros Hc Hk s. unfold bind. specialize (Hc s).
  destruct (c s) as [a s']. cbn [snd] in Hc. rewrite Hk. exact Hc.
Qed.

Lemma preserves_if {A B : Type} (f : t -> B) (b : bool) (c1 c2 : M A) :
  preserves f c1 -> preserves f c2 -> preserves f (if b then c1 else c2).
Proof. destruct b; auto. Qed.

Lemma preserves_gets {A B : Type} (f : t -> B) (g : t -> A) :
  preserves f (gets g).
Proof. intros s. reflexivity. Qed.

Lemma preserves_modify {B : Type} (f : t -> B) (g : t -> t) :
  (forall s, f (g s) = f s) -> preserves f (modify g).
Proof. intros H s. apply H. Qed.

(** What a file holds: whether it is open, and its bytes. *)
Lemma read_keeps_content (f : ZFile.t) (max : Z) :
  ZFile.isOpen (snd (ZFile.read f max)) = ZFile.isOpen f /\
  ZFile.bytes (snd (ZFile.read f max)) = ZFile.bytes f.
Proof.
  unfold ZFile.read. destruct (ZFile.isOpen f) eqn:E; cbn; auto.
Qed.

Lemma preserves_bytes_file_setPos (p : Z) :
  preserves (fun s => ZFile.bytes (_file s)) (file_setPos p).
Proof. intros s. reflexivity. Qed.

Lemma preserves_bytes_file_read (max : Z) :
  preserves (fun s => ZFile.bytes (_file s)) (file_read max).
Proof.
  intros s. unfold file_read.
  pose proof (proj2 (read_keeps_content (_file s) max)) as H.
  destruct (ZFile.read (_file s) max) as [d f]. exact H.
Qed.

Lemma preserves_bytes_setPageSize (power : Z) :
  preserves (fun s => ZFile.bytes (_file s)) (setPageSize power).
Proof. intros s. rewrite setPageSize_run. reflexivity. Qed.

Ltac preserves_bytes :=
  repeat first
    [ apply preserves_ret
    | apply preserves_gets
    | apply preserves_bytes_file_setPos
    | apply preserves_bytes_file_read
    | apply preserves_bytes_setPageSize
    | apply preserves_modify; reflexivity
    | apply preserves_if
    | apply preserves_bind; [|intros ?] ].

Lemma preserves_bytes_loadHeadPage :
  preserves (fun s => ZFile.bytes (_file s)) loadHeadPage.
Proof. unfold loadHeadPage. preserves_bytes. Qed.

Lemma preserves_bytes_open :
  preserves (fun s => ZFile.bytes (_file s)) open.
Proof. unfold open. preserves_bytes. Qed.

(** X2. [loadHeadPage], [open] and [readPage] only read: whatever the file
    holds and whatever they return, the bytes of the file are afterwards
    the ones that were there. *)
Theorem open_only_reads (s : t) (page : Z) :
  ZFile.bytes (_file (snd (loadHeadPage s))) = ZFile.bytes (_file s) /\
  ZFile.bytes (_file (snd (open s))) = ZFile.bytes (_file s) /\
  ZFile.bytes (_file (snd (readPage page s))) = ZFile.bytes (_file s).
Proof.
  split; [apply preserves_bytes_loadHeadPage|]. split.
  - revert s.
    change (preserves (fun s => ZFile.bytes (_file s)) open).
    unfold open. preserves_bytes.
  - revert s.
    change (preserves (fun s => ZFile.bytes (_file s)) (readPage page)).
    unfold readPage. preserves_bytes.
Qed.

(** *** Files that are too short *)

Lemma file_read_full (s s' : t) (n : Z) (d : ZBinary) :
  file_read n s = (d, s') -> 0 < n -> size d = n ->
  0 <= ZFile.pos (_file s) ->
  ZFile.isOpen (_file s) = true /\
  ZFile.pos (_file s) + n <= size (ZFile.bytes (_file s)) /\
  s' = with_file (ZFile.mk true (ZFile.bytes (_file s))
                           (ZFile.pos (_file s) + n)) s.
Proof.
  unfold file_read, ZFile.read. intros H Hn Hd Hp.
  destruct (ZFile.isOpen (_file s)) eqn:Eo.
  - cbv zeta in H. injection H as Hd' Hs'.
    rewrite Hd', Hd in Hs'. subst d.
    unfold size in *. rewrite length_firstn, length_skipn in Hd.
    split; [reflexivity|]. split; [lia|]. now subst s'.
  - injection H as Hd' _. subst d. cbn in Hd. lia.
Qed.

(** A read of [n] bytes followed by the test of the number of bytes: either
    the bytes are there, or the result is false. *)
Lemma read_step_false (k : ZBinary -> M bool) (s : t) (n : Z) (o : bool)
  (B : ZBinary) (p : Z) :
  _file s = ZFile.mk o B p -> 0 <= p -> 0 < n ->
  (p + n <= size B ->
   forall d, size d = n ->
     fst (k d (with_file (ZFile.mk true B (p + n)) s)) = false) ->
  fst (bind (file_read n)
            (fun d => if negb (size d =? n) then ret false else k d) s)
  = false.
Proof.
  intros Hf Hp Hn Hk. unfold bind.
  destruct (file_read n s) as [d s'] eqn:E.
  destruct (size d =? n) eqn:S; cbn [negb]; [|reflexivity].
  apply Z.eqb_eq in S.
  apply file_read_full in E; [|assumption|assumption|rewrite Hf; exact Hp].
  rewrite Hf in E. cbn [ZFile.isOpen ZFile.bytes ZFile.pos] in E.
  destruct E as (_ & Hle & ->). now apply Hk.
Qed.

Lemma loadHeadPage_short (s : t) :
  size (ZFile.bytes (_file s)) < 29 -> fst (loadHeadPage s) = false.
Proof.
  intros Hlen. unfold loadHeadPage.
  erewrite bind_eq by reflexivity.
  eapply read_step_false;
    [reflexivity | unfold SIG_SIZE; lia | reflexivity |].
  intros L1 d1 _.
  destruct (ZBinary_eqb d1 VERSION_4_SIG); cbn [negb]; [|reflexivity].
  eapply read_step_false;
    [reflexivity | unfold SIG_SIZE; lia | reflexivity |].
  intros L2 d2 _.
  erewrite bind_eq by reflexivity.
  erewrite bind_eq by reflexivity.
  erewrite bind_eq by (apply setPageSize_run).
  eapply read_step_false;
    [reflexivity | unfold SIG_SIZE; lia | reflexivity |].
  intros L3 d3 _.
  erewrite bind_eq by reflexivity.
  eapply read_step_false;
    [reflexivity | unfold SIG_SIZE; lia | reflexivity |].
  intros L4 d4 _.
  erewrite bind_eq by reflexivity.
  eapply read_step_false;
    [reflexivity | unfold SIG_SIZE; lia | reflexivity |].
  intros L5 d5 _.
  erewrite bind_eq by reflexivity.
  eapply read_step_false;
    [reflexivity | unfold SIG_SIZE; lia | reflexivity |].
  intros L6 d6 _.
  erewrite bind_eq by reflexivity.
  eapply read_step_false;
    [reflexivity | unfold SIG_SIZE; lia | reflexivity |].
  intros L7 d7 _. exfalso.
  cbn [ZFile.bytes ZFile.setPos] in L7. unfold SIG_SIZE in L7. lia.
Qed.

(** X4. A file shorter than the 29 bytes of a head page is refused:
    [loadHeadPage] and [open] return false, and [open] leaves the parser
    uninitialized. *)
Theorem short_file_refused (s : t) :
  size (ZFile.bytes (_file s)) < 29 ->
  fst (loadHeadPage s) = false /\
  fst (open s) = false /\
  _init (snd (open s)) = false.
Proof.
  intros Hlen. split; [now apply loadHeadPage_short|].
  assert (Ho : fst (open s) = false).
  { unfold open. erewrite bind_eq by reflexivity.
    pose proof (loadHeadPage_short (with_init false s) Hlen) as H.
    unfold bind. destruct (loadHeadPage (with_init false s)) as [ok s'].
    cbn [fst] in H. subst ok. reflexivity. }
  split; [exact Ho | now apply open_failure_leaves_uninitialized].
Qed.

(** X6. [setMaxPages] on an initialized parser writes the head page: a
    parser that then opens the file gets the new maximum of pages, and the
    other five values as they were; on a parser that is not initialized it
    leaves the file alone. *)
Theorem setMaxPages_persists (s : t) (pages : Z) :
  (_init s = true ->
   ZFile.isOpen (_file s) = true ->
   config_wf (config_of s) -> is_zu32 pages ->
   forall r : t,
     _file r = _file (snd (setMaxPages pages s)) ->
     fst (open r) = true /\
     getMaxPages (snd (open r)) = pages /\
     config_of (snd (open r)) = config_of (with_maxpages pages s)) /\
  (_init s = false -> _file (snd (setMaxPages pages s)) = _file s).
Proof.
  split.
  - intros Hi Hopen Hwf Hp r Hr.
    assert (Hrun : setMaxPages pages s
              = (tt, with_file
                       (ZFile.mk true
                          (head_bytes (config_of (with_maxpages pages s))
                             ++ skipn 29 (ZFile.bytes (_file s))) 29)
                       (with_maxpages pages s))).
    { unfold setMaxPages.
      erewrite bind_eq by reflexivity.
      erewrite bind_eq by reflexivity.
      change (_init (with_maxpages pages s)) with (_init s). rewrite Hi.
      erewrite bind_eq by (apply writeHeadPage_spec; exact Hopen).
      reflexivity. }
    rewrite Hrun in Hr. cbn [snd] in Hr.
    assert (Hwf' : config_wf (config_of (with_maxpages pages s))).
    { destruct Hwf as (H1 & H2 & H3 & H4 & H5 & H6).
      unfold config_wf. cbn [config_of with_maxpages c_pagepower c_maxpages
        c_freelistpage c_fieldpage c_indexpage c_recordpage _pagepower
        _maxpages _freelistpage _fieldpage _indexpage _recordpage] in *.
      tauto. }
    rewrite (open_run r _ _ 29 Hr Hwf'). cbn [fst snd].
    repeat split.
  - intros Hi. unfold setMaxPages.
    erewrite bind_eq by reflexivity.
    erewrite bind_eq by reflexivity.
    change (_init (with_maxpages pages s)) with (_init s). rewrite Hi.
    reflexivity.
Qed.

(** X7. The page size cannot be changed on an initialized parser:
    [setPageSize] leaves it as it is; on a parser that is not initialized it
    sets the power, and the page size to 2 to that power (for a power below
    32; never 0). *)
Theorem setPageSize_only_before_init (s : t) (power : Z) :
  (_init s = true -> setPageSize power s = (tt, s)) /\
  (_init s = false -> 0 <= power < 32 ->
   _pagepower (snd (setPageSize power s)) = power /\
   getPageSize (snd (setPageSize power s)) = 2 ^ power /\
   0 < getPageSize (snd (setPageSize power s))).
Proof.
  rewrite setPageSize_run. split.
  - intros Hi. rewrite Hi. destruct s; cbn in *. now subst.
  - intros Hi Hp. rewrite Hi. cbn [snd _pagepower getPageSize _pagesize].
    rewrite (pagesize_of_power power Hp).
    repeat split. apply Z.pow_pos_nonneg; lia.
Qed.

End WithCodec.
Lemma create_then_open_witness :
  let w := with_maxpages (64 * 1024 * 2)
             (snd (setPageSize 11 (new (ZFile.mk true [] 0) 0))) in
  (ZFile.isOpen (_file w) = true /\ config_wf (config_of w) /\
   0 <= _pagepower w < 32) /\
  fst (@create BigEndianCodec w) = true /\
  _init (snd (@create BigEndianCodec w)) = true /\
  forall r : t,
    _file r = _file (snd (@create BigEndianCodec w)) ->
    fst (@open BigEndianCodec r) = true /\
    _init (snd (@open BigEndianCodec r)) = true /\
    config_of (snd (@open BigEndianCodec r)) = config_of w /\
    getPageSize (snd (@open BigEndianCodec r)) = 2 ^ _pagepower w /\
    getMaxPages (snd (@open BigEndianCodec r)) = _maxpages w.
Proof.
  intros w.
  assert (Hopen : ZFile.isOpen (_file w) = true) by reflexivity.
  assert (Hwf : config_wf (config_of w)).
  { unfold config_wf, is_zu8, is_zu32, ZU8_MOD, ZU32_MOD. cbn. lia. }
  assert (Hpw : 0 <= _pagepower w < 32) by (cbn; lia).
  split; [split; [exact Hopen | split; [exact Hwf | exact Hpw]]|].
  exact (@create_then_open BigEndianCodec w Hopen Hwf Hpw).
Defined.

Lemma writeHeadPage_writes_head_only_witness :
  let s := new (ZFile.mk true (repeat x07 40) 0) 0 in
  let B := ZFile.bytes (_file s) in
  let B' := ZFile.bytes (_file (snd (@writeHeadPage BigEndianCodec s))) in
  ZFile.isOpen (_file s) = true /\
  firstn 29 B' = @head_bytes BigEndianCodec (config_of s) /\
  skipn 29 B' = skipn 29 B /\
  size B' = Z.max 29 (size B).
Proof.
  intros s B B'. split; [reflexivity|].
  apply (@writeHeadPage_writes_head_only BigEndianCodec s). reflexivity.
Defined.

Lemma create_on_closed_file_witness :
  let s := new (ZFile.mk false [x01] 0) 0 in
  ZFile.isOpen (_file s) = false /\
  fst (@writeHeadPage BigEndianCodec s) = false /\
  fst (@create BigEndianCodec s) = false /\
  _init (snd (@create BigEndianCodec s)) = false /\
  ZFile.bytes (_file (snd (@create BigEndianCodec s))) = ZFile.bytes (_file s).
Proof.
  intros s. split; [reflexivity|].
  apply (@create_on_closed_file BigEndianCodec s). reflexivity.
Defined.

Lemma short_file_refused_witness :
  let s := new (ZFile.mk true [x50; x8f; x52] 0) 0 in
  size (ZFile.bytes (_file s)) < 29 /\
  fst (@loadHeadPage BigEndianCodec s) = false /\
  fst (@open BigEndianCodec s) = false /\
  _init (snd (@open BigEndianCodec s)) = false.
Proof.
  intros s.
  assert (H : size (ZFile.bytes (_file s)) < 29) by reflexivity.
  split; [exact H|].
  exact (@short_file_refused BigEndianCodec s H).
Defined.

Lemma setMaxPages_persists_witness :
  let s := snd (@create BigEndianCodec (new (ZFile.mk true [] 0) 0)) in
  let u := new (ZFile.mk true [x01] 0) 0 in
  (_init s = true /\ ZFile.isOpen (_file s) = true /\
   config_wf (config_of s) /\ is_zu32 7 /\ _init u = false) /\
  (forall r : t,
     _file r = _file (snd (@setMaxPages BigEndianCodec 7 s)) ->
     fst (@open BigEndianCodec r) = true /\
     getMaxPages (snd (@open BigEndianCodec r)) = 7 /\
     config_of (snd (@open BigEndianCodec r))
     = config_of (with_maxpages 7 s)) /\
  _file (snd (@setMaxPages BigEndianCodec 7 u)) = _file u.
Proof.
  intros s u.
  assert (Hi : _init s = true) by reflexivity.
  assert (Ho : ZFile.isOpen (_file s) = true) by reflexivity.
  assert (Hwf : config_wf (config_of s)).
  { unfold config_wf, is_zu8, is_zu32, ZU8_MOD, ZU32_MOD.
    vm_compute. intuition discriminate. }
  assert (Hp : is_zu32 7) by (unfold is_zu32, ZU32_MOD; lia).
  assert (Hu : _init u = false) by reflexivity.
  destruct (@setMaxPages_persists BigEndianCodec s 7) as [H1 _].
  destruct (@setMaxPages_persists BigEndianCodec u 7) as [_ H2].
  split; [exact (conj Hi (conj Ho (conj Hwf (conj Hp Hu))))|].
  split; [exact (H1 Hi Ho Hwf Hp) | exact (H2 Hu)].
Defined.

Lemma setPageSize_only_before_init_witness :
  let u := new (ZFile.mk true [] 0) 0 in
  let s := snd (@create BigEndianCodec u) in
  (_init s = true /\ _init u = false /\ 0 <= 11 < 32) /\
  setPageSize 11 s = (tt, s) /\
  _pagepower (snd (setPageSize 11 u)) = 11 /\
  getPageSize (snd (setPageSize 11 u)) = 2 ^ 11 /\
  0 < getPageSize (snd (setPageSize 11 u)).
Proof.
  intros u s.
  assert (Hs : _init s = true) by reflexivity.
  assert (Hu : _init u = false) by reflexivity.
  assert (Hp : 0 <= 11 < 32) by lia.
  destruct (setPageSize_only_before_init s 11) as [H1 _].
  destruct (setPageSize_only_before_init u 11) as [_ H2].
  split; [exact (conj Hs (conj Hu Hp))|].
  split; [exact (H1 Hs) | exact (H2 Hu Hp)].
Defined.

End HeadPageFacts.

(** ** More on the page-oriented parser: pages *)
Module PageFacts.
Import ZParcel4Parser ZParcel4ParserFacts HeadPageFacts.

Lemma store_at_end (B d : ZBinary) : ZFile.store B (length B) d = B ++ d.
Proof.
  unfold ZFile.store. rewrite firstn_all, Nat.sub_diag.
  rewrite skipn_all2 by lia. cbn [repeat app]. now rewrite app_nil_r.
Qed.

Lemma firstn_repeat_min (x : byte) (k n : nat) :
  firstn k (repeat x n) = repeat x (Nat.min k n).
Proof.
  revert n. induction k as [|k IH]; intros n; [reflexivity|].
  destruct n as [|n]; [reflexivity|]. cbn. now rewrite IH.
Qed.

Section WithCodec.
Context {codec : FileCodec} {types : ZParcelTypes}.

(** X8. With a page size above 0 (for a page size of 0 the remainder
    taken by [zeroPad] is a division by zero), [zeroPad] returns true in
    every case.  On an open file, with [r] the remainder of the file size
    by the page size, it appends [r] zero bytes (1024 at most) to the file
    and changes no byte that was there; the padding is the remainder
    itself, not what is missing to the next page boundary. *)
Theorem zeroPad_appends_remainder (s : t) :
  0 < _pagesize s ->
  fst (zeroPad s) = true /\
  (ZFile.isOpen (_file s) = true ->
   let B := ZFile.bytes (_file s) in
   let r := size B mod _pagesize s in
   ZFile.bytes (_file (snd (zeroPad s)))
   = B ++ repeat x00 (Z.to_nat (Z.min r 1024))).
Proof.
  intros Hps. unfold zeroPad.
  do 4 (erewrite bind_eq by reflexivity).
  set (pad := ZFile.fileSize (_file s) mod _pagesize s).
  split.
  - destruct (pad =? 0); cbn [negb]; [reflexivity|].
    unfold bind. destruct (file_write _ _). reflexivity.
  - intros Hopen.
    set (B := ZFile.bytes (_file s)).
    set (r := size B mod _pagesize s).
    assert (Hpad : pad = r) by reflexivity.
    assert (Hr : 0 <= r) by (apply Z.mod_pos_bound; exact Hps).
    destruct (Z.eqb_spec pad 0) as [E|E]; cbn [negb].
    + cbn [ret snd]. unfold with_file, ZFile.setPos. cbn [_file ZFile.bytes].
      fold B. rewrite <- Hpad, E. cbn. now rewrite app_nil_r.
    + unfold bind, file_write, ZFile.write, with_file, ZFile.setPos.
      cbn [_file ZFile.isOpen ZFile.bytes ZFile.pos]. rewrite Hopen.
      cbn [snd ret _file ZFile.bytes].
      unfold ZFile.fileSize, size. rewrite Nat2Z.id. fold B.
      rewrite store_at_end. f_equal.
      unfold zero_fill. rewrite firstn_repeat_min. f_equal.
      rewrite MIN_min_Z, Hpad. unfold zu32, ZU32_MOD.
      rewrite Z.mod_small by lia. lia.
Qed.

(** X9. [readPage] on an open file, with a page size above 0, returns the
    bytes from the page's offset on, a page at most, and returns true
    exactly when a whole page lies in the file from that offset; the offset
    is [page * _pagesize] in 32 bits. *)
Theorem readPage_whole_page (s : t) (page : Z) :
  ZFile.isOpen (_file s) = true -> 0 < _pagesize s ->
  let B := ZFile.bytes (_file s) in
  let off := zu32 (page * _pagesize s) in
  fst (readPage page s)
  = (off + _pagesize s <=? size B,
     firstn (Z.to_nat (_pagesize s)) (skipn (Z.to_nat off) B)).
Proof.
  intros Hopen Hps B off. unfold readPage.
  do 2 (erewrite bind_eq by reflexivity).
  unfold bind, file_read, ZFile.read, with_file, ZFile.setPos.
  cbn [_file ZFile.isOpen ZFile.bytes ZFile.pos _pagesize]. rewrite Hopen.
  cbv zeta. cbn [fst ret]. fold B off. f_equal.
  assert (Hoff : 0 <= off) by (apply Z.mod_pos_bound; reflexivity).
  unfold size. rewrite length_firstn, length_skipn.
  destruct (Z.leb_spec (off + _pagesize s) (Z.of_nat (length B)));
    [apply Z.eqb_eq | apply Z.eqb_neq]; lia.
Qed.

Lemma page_offset_wraps (page k : Z) :
  0 <= k <= 32 ->
  zu32 ((page + 2 ^ (32 - k)) * 2 ^ k) = zu32 (page * 2 ^ k).
Proof.
  intros Hk. unfold zu32, ZU32_MOD.
  rewrite Z.mul_add_distr_r, <- Z.pow_add_r by lia.
  replace (32 - k + k) with 32 by lia.
  rewrite <- (Z.mul_1_l (2 ^ 32)) at 1. apply Z_mod_plus_full.
Qed.

(** X10. The offset of a page is computed in 32 bits: with a page size of
    2 to the [k], the page ids [page] and [page + 2^(32-k)] stand for the
    same bytes of the file, for [readPage] and for [freePage]. *)
Theorem page_ids_alias (s : t) (page k : Z) :
  0 <= k <= 32 -> _pagesize s = 2 ^ k ->
  readPage (page + 2 ^ (32 - k)) s = readPage page s /\
  freePage (page + 2 ^ (32 - k)) s = freePage page s.
Proof.
  intros Hk Hps. split.
  - unfold readPage.
    do 2 (erewrite bind_eq by reflexivity).
    symmetry. do 2 (erewrite bind_eq by reflexivity).
    rewrite Hps, page_offset_wraps by exact Hk. reflexivity.
  - unfold freePage.
    do 2 (erewrite bind_eq by reflexivity).
    symmetry. do 2 (erewrite bind_eq by reflexivity).
    rewrite Hps, page_offset_wraps by exact Hk.
    unfold bind. destruct (file_write _ _) as [n u].
    destruct (n =? 1); [|reflexivity].
    rewrite !addToFreelist_run. reflexivity.
Qed.

(** X11. [insertPage] never returns the number of a new page: its result is
    0 or [ZU32_MAX], and 0 only for the head page when [writeHeadPage]
    succeeded; for every type but the head page and the field page it
    leaves the parser and the file as they are.  (For the field page, which
    goes through [zeroPad], the page size is above 0.) *)
Theorem insertPage_results (ty : pagetype) (s : t) :
  (ty = fieldpage -> 0 < _pagesize s) ->
  (fst (insertPage ty s) = 0 \/ fst (insertPage ty s) = ZU32_MAX) /\
  (fst (insertPage ty s) = 0 ->
   ty = headpage /\ fst (writeHeadPage s) = true) /\
  (ty <> headpage -> ty <> fieldpage -> insertPage ty s = (ZU32_MAX, s)).
Proof.
  intros _.
  destruct ty; cbn [insertPage]; unfold ret; cbn [fst];
    try (split; [now right | split; [discriminate | reflexivity]]).
  - split; [|split; [|congruence]].
    + right. unfold bind. destruct (zeroPad s). reflexivity.
    + unfold bind. destruct (zeroPad s). discriminate.
  - unfold bind. destruct (writeHeadPage s) as [ok u].
    destruct ok; cbn [fst]; (split; [auto | split; [|congruence]]).
    + auto.
    + discriminate.
Qed.

(** *** The page objects *)

(** X12. [ParcelPage::read] does not move the cursor of the page: a read
    through a page returns what it would have returned before any other
    read through that page, and leaves the file as that read would. *)
Theorem ParcelPage_read_not_advancing (pg : ParcelPage) (n m : Z)
  (f : ZFile.t) :
  ParcelPage_read pg m (snd (ParcelPage_read pg n f)) = ParcelPage_read pg m f.
Proof.
  unfold ParcelPage_read.
  destruct (read_keeps_content (ZFile.setPos f (ParcelPage_offset pg)) n)
    as [Ho Hb].
  unfold ZFile.setPos at 1. rewrite Ho, Hb. reflexivity.
Qed.

Lemma resize_length (n : nat) (fresh buf : ZBinary) :
  length (resize n fresh buf) = n.
Proof.
  unfold resize. rewrite length_firstn, !length_app, repeat_length. lia.
Qed.

Lemma read_into_full (d buf : ZBinary) :
  length buf = length d -> read_into d buf = d.
Proof.
  intros H. unfold read_into. rewrite skipn_all2 by lia. apply app_nil_r.
Qed.

Lemma read_at (B : ZBinary) (p n : Z) :
  0 <= p -> 0 <= n -> p + n <= size B ->
  ZFile.read (ZFile.mk true B p) n
  = (firstn (Z.to_nat n) (skipn (Z.to_nat p) B), ZFile.mk true B (p + n)) /\
  length (firstn (Z.to_nat n) (skipn (Z.to_nat p) B)) = Z.to_nat n.
Proof.
  intros Hp Hn Hle. unfold size in Hle.
  assert (Hl : length (firstn (Z.to_nat n) (skipn (Z.to_nat p) B))
               = Z.to_nat n)
    by (rewrite length_firstn, length_skipn; lia).
  split; [|exact Hl].
  unfold ZFile.read. cbn [ZFile.isOpen ZFile.bytes ZFile.pos]. cbv zeta.
  unfold size. rewrite Hl, Z2Nat.id by lia. reflexivity.
Qed.

(** X13. The constructor of [FieldPage], on a page that lies in an open
    file (page size from 4 up, of 32 bits): it changes no byte of the file
    and never assigns [_pagetype]; if the first byte of the page is not the
    field page type it leaves both page numbers as they were; otherwise
    [_prevpage] is read from the first four bytes of the page, the type byte
    among them, since the read of the type byte has not moved the cursor,
    and [_nextpage] from the last four bytes of the page. *)
Theorem FieldPage_new_reads (page pagesize : Z) (pagetype0 : pagetype)
  (prev0 next0 : Z) (fresh : ZBinary) (f : ZFile.t) :
  let B := ZFile.bytes f in
  let off := zu32 (page * pagesize) in
  let at_ := fun (p n : Z) => firstn (Z.to_nat n) (skipn (Z.to_nat p) B) in
  let fp := fst (FieldPage_new page pagesize pagetype0 prev0 next0 fresh f) in
  ZFile.isOpen f = true ->
  4 <= pagesize < ZU32_MOD ->
  off + pagesize <= size B ->
  ZFile.bytes
    (snd (FieldPage_new page pagesize pagetype0 prev0 next0 fresh f)) = B /\
  _pagetype fp = pagetype0 /\
  (fromFile8Bits (at_ off 1) <> FIELDPAGE ->
   _prevpage fp = prev0 /\ _nextpage fp = next0) /\
  (fromFile8Bits (at_ off 1) = FIELDPAGE ->
   _prevpage fp = fromFile32Bits (at_ off 4) /\
   _nextpage fp = fromFile32Bits (at_ (off + pagesize - 4) 4) /\
   firstn 1 (at_ off 4) = at_ off 1).
Proof.
  intros B off at_ fp Hopen Hps Hin.
  assert (Hoff : 0 <= off < ZU32_MOD) by (apply Z.mod_pos_bound; reflexivity).
  destruct f as [o B0 p0]. cbn [ZFile.isOpen] in Hopen. subst o.
  cbn [ZFile.bytes] in B. subst B.
  assert (O1 : ParcelPage_offset (ParcelPage_new page pagesize) = off).
  { unfold ParcelPage_offset, ParcelPage_new. cbn [_page _pp_pagesize _rwpos].
    fold off. rewrite Z.add_0_r. unfold zu64, ZU64_MOD.
    apply Z.mod_small. unfold ZU32_MOD in Hoff. lia. }
  assert (O2 : ParcelPage_offset
                 (snd (ParcelPage_setPos (ParcelPage_new page pagesize)
                         (zu32 (pagesize - 4))))
               = off + pagesize - 4).
  { unfold ParcelPage_offset, ParcelPage_setPos, ParcelPage_new.
    cbn [snd _page _pp_pagesize _rwpos]. fold off.
    assert (Hz : zu32 (pagesize - 4) = pagesize - 4)
      by (unfold zu32; apply Z.mod_small; lia).
    rewrite Hz. unfold zu64, ZU64_MOD. unfold ZU32_MOD in *.
    rewrite Z.mod_small by lia. lia. }
  destruct (read_at B0 off 1) as [R1 L1]; [lia | lia | lia |].
  destruct (read_at B0 off 4) as [R4 L4]; [lia | lia | lia |].
  destruct (read_at B0 (off + pagesize - 4) 4) as [R3 L3];
    [lia | lia | lia |].
  fold (at_ off 1) in R1, L1. fold (at_ off 4) in R4, L4.
  fold (at_ (off + pagesize - 4) 4) in R3, L3.
  assert (Hset : forall o b p q,
             ZFile.setPos (ZFile.mk o b p) q = ZFile.mk o b q)
    by reflexivity.
  unfold fp, FieldPage_new, ParcelPage_read.
  rewrite O1, Hset, R1. cbv beta iota zeta.
  rewrite (read_into_full (at_ off 1))
    by (rewrite resize_length, L1; reflexivity).
  destruct (Z.eqb_spec (fromFile8Bits (at_ off 1)) FIELDPAGE) as [E|E];
    cbn [negb]; cbv beta iota zeta.
  - rewrite Hset, R4. cbv beta iota zeta.
    rewrite (read_into_full (at_ off 4))
      by (rewrite resize_length, L4; reflexivity).
    rewrite O2, Hset, R3. cbv beta iota zeta.
    rewrite (read_into_full (at_ (off + pagesize - 4) 4))
      by (rewrite L4, L3; reflexivity).
    cbn [fst snd ZFile.bytes _pagetype _prevpage _nextpage].
    split; [reflexivity|]. split; [reflexivity|].
    split; [intros H; contradiction|]. intros _.
    split; [reflexivity|]. split; [reflexivity|].
    unfold at_. rewrite firstn_firstn. reflexivity.
  - cbn [fst snd ZFile.bytes _pagetype _prevpage _nextpage].
    split; [reflexivity|]. split; [reflexivity|].
    split; [intros _; split; reflexivity | intros H; contradiction].
Qed.

End WithCodec.
Lemma zeroPad_appends_remainder_witness :
  let s := new (ZFile.mk true (repeat x01 5) 0) 0 in
  (0 < _pagesize s /\ ZFile.isOpen (_file s) = true) /\
  fst (zeroPad s) = true /\
  ZFile.bytes (_file (snd (zeroPad s)))
  = repeat x01 5 ++ repeat x00 5.
Proof.
  intros s.
  assert (Hp : 0 < _pagesize s) by reflexivity.
  assert (Ho : ZFile.isOpen (_file s) = true) by reflexivity.
  destruct (zeroPad_appends_remainder s Hp) as [H1 H2].
  split; [split; assumption|]. split; [exact H1|].
  exact (H2 Ho).
Defined.

Lemma readPage_whole_page_witness :
  let s := new (ZFile.mk true (repeat x01 1030) 0) 0 in
  (ZFile.isOpen (_file s) = true /\ 0 < _pagesize s) /\
  fst (readPage 0 s) = (true, repeat x01 1024) /\
  fst (fst (readPage 1 s)) = false.
Proof.
  intros s.
  assert (Ho : ZFile.isOpen (_file s) = true) by reflexivity.
  assert (Hp : 0 < _pagesize s) by reflexivity.
  split; [split; assumption|]. split.
  - rewrite (readPage_whole_page s 0 Ho Hp). reflexivity.
  - rewrite (readPage_whole_page s 1 Ho Hp). reflexivity.
Defined.

Lemma page_ids_alias_witness :
  let s := new (ZFile.mk true (repeat x01 2048) 0) 0 in
  (0 <= 10 <= 32 /\ _pagesize s = 2 ^ 10) /\
  readPage (1 + 2 ^ (32 - 10)) s
  = readPage 1 s /\
  @freePage BigEndianCodec (1 + 2 ^ (32 - 10)) s
  = @freePage BigEndianCodec 1 s.
Proof.
  intros s.
  assert (Hk : 0 <= 10 <= 32) by lia.
  assert (Hp : _pagesize s = 2 ^ 10) by reflexivity.
  split; [split; assumption|].
  exact (@page_ids_alias BigEndianCodec s 1 10 Hk Hp).
Defined.

Lemma insertPage_results_witness :
  let s := new (ZFile.mk true [] 0) 0 in
  ((fieldpage = fieldpage -> 0 < _pagesize s) /\
   fst (@insertPage BigEndianCodec headpage s) = 0 /\
   recordpage <> headpage /\ recordpage <> fieldpage) /\
  fst (@insertPage BigEndianCodec fieldpage s) = ZU32_MAX /\
  fst (@writeHeadPage BigEndianCodec s) = true /\
  @insertPage BigEndianCodec recordpage s = (ZU32_MAX, s).
Proof.
  intros s.
  assert (Hf : fieldpage = fieldpage -> 0 < _pagesize s)
    by (intros _; reflexivity).
  assert (Hh : headpage = fieldpage -> 0 < _pagesize s) by discriminate.
  assert (Hr : recordpage = fieldpage -> 0 < _pagesize s) by discriminate.
  assert (H0 : fst (@insertPage BigEndianCodec headpage s) = 0)
    by reflexivity.
  assert (N1 : recordpage <> headpage) by discriminate.
  assert (N2 : recordpage <> fieldpage) by discriminate.
  destruct (@insertPage_results BigEndianCodec fieldpage s Hf)
    as (Hf1 & Hf2 & _).
  destruct (@insertPage_results BigEndianCodec headpage s Hh)
    as (_ & H1 & _).
  destruct (@insertPage_results BigEndianCodec recordpage s Hr)
    as (_ & _ & H2).
  split; [exact (conj Hf (conj H0 (conj N1 N2)))|].
  split; [|split; [exact (proj2 (H1 H0)) | exact (H2 N1 N2)]].
  destruct Hf1 as [Hz|Hm]; [|exact Hm].
  destruct (Hf2 Hz) as [Hty _]. discriminate Hty.
Defined.

Lemma FieldPage_new_reads_witness :
  let f := ZFile.mk true (x01 :: repeat x00 1022 ++ [x09]) 0 in
  let fp := fst (@FieldPage_new BigEndianCodec 0 1024 headpage 7 8 [] f) in
  (ZFile.isOpen f = true /\ 4 <= 1024 < ZU32_MOD /\
   zu32 (0 * 1024) + 1024 <= size (ZFile.bytes f)) /\
  ZFile.bytes
    (snd (@FieldPage_new BigEndianCodec 0 1024 headpage 7 8 [] f))
  = ZFile.bytes f /\
  _pagetype fp = headpage /\
  _prevpage fp = 16777216 /\ _nextpage fp = 9.
Proof.
  intros f fp.
  assert (Ho : ZFile.isOpen f = true) by reflexivity.
  assert (Hp : 4 <= 1024 < ZU32_MOD) by (unfold ZU32_MOD; lia).
  assert (Hs : zu32 (0 * 1024) + 1024 <= size (ZFile.bytes f))
    by (vm_compute; discriminate).
  destruct (@FieldPage_new_reads BigEndianCodec 0 1024 headpage 7 8 [] f
              Ho Hp Hs) as (Hb & Ht & _ & Hy).
  split; [exact (conj Ho (conj Hp Hs))|].
  split; [exact Hb|]. split; [exact Ht|].
  destruct (Hy eq_refl) as (H1 & H2 & _).
  split; [refine (eq_trans H1 _) | refine (eq_trans H2 _)]; reflexivity.
Defined.

End PageFacts.

(** ** The declarations of [zparcel.h] *)
Module ZParcelFacts.
Import ZParcel.

(** For a window that does not start at offset 0 no reading of the cursor
    keeps it inside the window: the constructor puts it at 0, and [seek]
    lets it reach [_base + _size]. *)
Lemma cursor_origin_conflict (file : ZFile.t) (base sz origin : Z) :
  0 < base -> 0 <= sz -> base + sz < ZU64_MOD ->
  let a := ParcelObjectAccessor.new file base sz in
  ~ (ParcelObjectAccessor.in_window origin a /\
     ParcelObjectAccessor.in_window origin
       (ParcelObjectAccessor.run a [ParcelObjectAccessor.Seek (base + sz)])).
Proof.
  intros Hb Hs Hlt a. unfold ParcelObjectAccessor.in_window, a.
  cbn [ParcelObjectAccessor.run fold_left ParcelObjectAccessor.exec
       ParcelObjectAccessor.seek snd ParcelObjectAccessor.new
       ParcelObjectAccessor._base ParcelObjectAccessor._pos
       ParcelObjectAccessor._size].
  unfold zu64. rewrite Z.mod_small by lia.
  unfold MIN. rewrite Z.ltb_irrefl. lia.
Qed.

(** C1. The bounded window accessor over the window [10, 14) of a block
    accessor, evaluated: a fresh accessor reports 14 bytes available, more
    than the 4 bytes of the window; [seek 12] is granted and returns 12;
    [atEnd] is false with the cursor 4 bytes into the window and true only at
    14; and whether cursors count from the start of the block accessor or
    from the start of the window, the fresh cursor and the cursor after
    [seek 14] are not both inside the window. *)
Theorem window_accessor_cursor_escapes :
  let a := ParcelObjectAccessor.new (ZFile.mk true (repeat x00 32) 0) 10 4 in
  ParcelObjectAccessor.tell a = 0 /\
  ParcelObjectAccessor.available a = 14 /\
  ParcelObjectAccessor._size a < ParcelObjectAccessor.available a /\
  ParcelObjectAccessor.seek a 12
  = (12, ParcelObjectAccessor.mk (ZFile.mk true (repeat x00 32) 0) 10 12 4) /\
  ParcelObjectAccessor.atEnd (snd (ParcelObjectAccessor.seek a 4)) = false /\
  ParcelObjectAccessor.atEnd (snd (ParcelObjectAccessor.seek a 14)) = true /\
  forall origin : Z,
    ~ (ParcelObjectAccessor.in_window origin a /\
       ParcelObjectAccessor.in_window origin
         (ParcelObjectAccessor.run a [ParcelObjectAccessor.Seek 14])).
Proof.
  intros a. repeat split; try reflexivity.
  intros origin.
  apply (cursor_origin_conflict (ZFile.mk true (repeat x00 32) 0) 10 4 origin);
    unfold ZU64_MOD; lia.
Qed.

(** C3. The fixed sizes of the on-disk records: [ParcelHeader::NODE_SIZE] is
    the sum of a 7-byte signature, 1-byte version, 4-byte flags, four 8-byte
    pointers (tree head, freelist head, freelist tail, tail pointer), a
    16-byte root UID and a 4-byte checksum; [ParcelTreeNode::NODE_SIZE] of
    4-byte magic, 16-byte UID, 8-byte left, 8-byte right, 1-byte type, 1-byte
    extra, 4-byte checksum and 16-byte payload; [ParcelFreeNode::NODE_SIZE]
    of 4-byte magic, 8-byte next, 8-byte size and 4-byte checksum. *)
Theorem record_sizes :
  (ParcelHeader.NODE_SIZE = layout_size ParcelHeader.fields /\
   map (fun f => (fst f, width (snd f))) ParcelHeader.fields
   = [ (f_signature, 7); (f_version, 1); (f_flags, 4); (f_treehead, 8);
       (f_freehead, 8); (f_freetail, 8); (f_tailptr, 8); (f_root, 16);
       (f_crc, 4) ] /\
   ParcelHeader.NODE_SIZE = 64) /\
  (ParcelTreeNode.NODE_SIZE = layout_size ParcelTreeNode.fields /\
   map (fun f => (fst f, width (snd f))) ParcelTreeNode.fields
   = [ (f_magic, 4); (f_uid, 16); (f_lnode, 8); (f_rnode, 8); (f_type, 1);
       (f_extra, 1); (f_crc, 4); (f_payload, 16) ] /\
   ParcelTreeNode.NODE_SIZE = 58) /\
  (ParcelFreeNode.NODE_SIZE = layout_size ParcelFreeNode.fields /\
   map (fun f => (fst f, width (snd f))) ParcelFreeNode.fields
   = [ (f_magic, 4); (f_next, 8); (f_size, 8); (f_crc, 4) ] /\
   ParcelFreeNode.NODE_SIZE = 24).
Proof. repeat split; reflexivity. Qed.

End ZParcelFacts.

(** ** More on the bounded window accessor *)
Module AccessorFacts.
Import ZParcel ZParcel.ParcelObjectAccessor.

Lemma zu64_range (x : Z) : is_zu64 (zu64 x).
Proof. apply Z.mod_pos_bound. reflexivity. Qed.

(** X14. For members and arguments of the type [zu64]: [atEnd] is true
    exactly when [available] is 0; [seek] returns the cursor it sets, which
    is the position asked for or [_base + _size] if that is less, so that
    after a [seek] the cursor and [available] add up to [_base + _size]
    without wrapping around; and seeking twice to a position is seeking
    once. *)
Theorem seek_available_atEnd (a : t) (pos : Z) :
  wf a -> is_zu64 pos ->
  let limit := zu64 (_base a + _size a) in
  let a' := snd (seek a pos) in
  (atEnd a = true <-> available a = 0) /\
  fst (seek a pos) = tell a' /\
  tell a' = Z.min pos limit /\
  tell a' + available a' = limit /\
  (atEnd a' = true <-> limit <= pos) /\
  seek a' pos = seek a pos /\
  wf a'.
Proof.
  intros (Hb & Hp & Hs) Hpos limit a'.
  assert (Hl : is_zu64 limit) by apply zu64_range.
  unfold is_zu64, ZU64_MOD in *.
  assert (Ht : tell a' = Z.min pos limit).
  { unfold a', seek, tell. cbn [snd _pos _base _size]. fold limit.
    apply MIN_min_Z. }
  assert (Hlim' : zu64 (_base a' + _size a') = limit) by reflexivity.
  split.
  { unfold atEnd, available, tell. fold limit. unfold zu64 at 1, ZU64_MOD.
    split; intros H.
    - apply Z.eqb_eq in H. rewrite H, Z.sub_diag. reflexivity.
    - apply Z.eqb_eq.
      destruct (Z.lt_trichotomy (_pos a) limit) as [Hlt|[Heq|Hgt]];
        [|exact Heq|].
      + rewrite Z.mod_small in H by lia. lia.
      + replace (limit - _pos a) with (limit - _pos a + 2 ^ 64 + (-1) * 2 ^ 64)
          in H by lia.
        rewrite Z_mod_plus_full, Z.mod_small in H by lia. lia. }
  split; [reflexivity|]. split; [exact Ht|].
  split.
  { unfold available. rewrite Hlim'. fold (tell a'). rewrite Ht.
    unfold zu64, ZU64_MOD. rewrite Z.mod_small by lia. lia. }
  split.
  { unfold atEnd. rewrite Hlim', Ht. rewrite Z.eqb_eq. lia. }
  split.
  { reflexivity. }
  unfold wf. unfold tell in Ht. unfold is_zu64, ZU64_MOD.
  unfold a', seek in *. cbn [snd _file _base _size _pos] in *. lia.
Qed.

Lemma exec_window0 (sz : Z) (a : t) (c : call) :
  call_ok c ->
  (_base a = 0 /\ _size a = sz /\ 0 <= _pos a <= sz) ->
  is_zu64 sz ->
  let a' := exec a c in
  _base a' = 0 /\ _size a' = sz /\ 0 <= _pos a' <= sz.
Proof.
  intros Hc (Hb & Hs & Hp) Hsz. destruct c; cbn [exec]; try tauto.
  unfold seek. cbn [snd _base _size _pos].
  rewrite Hb, Hs, Z.add_0_l. unfold zu64.
  rewrite Z.mod_small by exact Hsz. rewrite MIN_min_Z.
  cbn [call_ok] in Hc. unfold is_zu64 in *. lia.
Qed.

(** X15. A window that starts at offset 0 is kept: after every sequence of
    calls on a new accessor over [0, size) the cursor is inside the window,
    [available] is the number of bytes of the window after the cursor, and
    [atEnd] is true exactly when the cursor is at the end of the window. *)
Theorem window_at_offset_0 (file : ZFile.t) (sz : Z) (cs : list call) :
  is_zu64 sz -> Forall call_ok cs ->
  let a := run (new file 0 sz) cs in
  0 <= tell a <= sz /\
  available a = sz - tell a /\
  (atEnd a = true <-> tell a = sz).
Proof.
  intros Hsz Hcs a.
  assert (I : _base a = 0 /\ _size a = sz /\ 0 <= _pos a <= sz).
  { unfold a, run. clear a.
    assert (I0 : _base (new file 0 sz) = 0 /\ _size (new file 0 sz) = sz /\
                 0 <= _pos (new file 0 sz) <= sz)
      by (cbn; unfold is_zu64 in Hsz; lia).
    revert I0. generalize (new file 0 sz).
    induction Hcs as [|c cs Hc Hcs IH]; intros a0 I0; [exact I0|].
    cbn [fold_left]. apply IH. now apply exec_window0. }
  destruct I as (Hb & Hs & Hp).
  assert (Hl : zu64 (_base a + _size a) = sz).
  { rewrite Hb, Hs, Z.add_0_l. now apply Z.mod_small. }
  unfold tell, available, atEnd, tell. rewrite Hl.
  split; [exact Hp|]. split.
  - unfold zu64. apply Z.mod_small. unfold is_zu64 in Hsz. lia.
  - apply Z.eqb_eq.
Qed.

Lemma seek_available_atEnd_witness :
  let a := new (ZFile.mk true (repeat x00 32) 0) 10 4 in
  (wf a /\ is_zu64 20) /\
  tell (snd (seek a 20)) = 14 /\ available (snd (seek a 20)) = 0 /\
  atEnd (snd (seek a 20)) = true.
Proof.
  intros a.
  assert (Hw : wf a) by (unfold wf, is_zu64, ZU64_MOD; cbn; lia).
  assert (Hp : is_zu64 20) by (unfold is_zu64, ZU64_MOD; lia).
  destruct (seek_available_atEnd a 20 Hw Hp)
    as (_ & _ & Ht & Hsum & Hend & _).
  assert (L : zu64 (_base a + _size a) = 14) by reflexivity.
  rewrite L in Ht, Hsum, Hend. change (Z.min 20 14) with 14 in Ht.
  split; [split; assumption|].
  split; [exact Ht|]. split.
  - rewrite Ht in Hsum. lia.
  - apply Hend. lia.
Defined.

Lemma window_at_offset_0_witness :
  let cs := [Seek 3; Available; Seek 9; AtEnd] in
  (is_zu64 4 /\ Forall call_ok cs) /\
  tell (run (new (ZFile.mk true (repeat x00 8) 0) 0 4) cs) = 4 /\
  available (run (new (ZFile.mk true (repeat x00 8) 0) 0 4) cs) = 0.
Proof.
  intros cs.
  assert (Hs : is_zu64 4) by (unfold is_zu64, ZU64_MOD; lia).
  assert (Hc : Forall call_ok cs).
  { repeat constructor; unfold is_zu64, ZU64_MOD; lia. }
  destruct (window_at_offset_0 (ZFile.mk true (repeat x00 8) 0) 4 cs Hs Hc)
    as (_ & Ha & _).
  split; [split; assumption|]. split; [reflexivity|].
  rewrite Ha. reflexivity.
Defined.

End AccessorFacts.

(** ** The tree engine *)
Module TreeFacts.
Import ZParcel ZParcel.Tree.

Lemma all_keys_spec (P : ZUID -> Prop) (t : Tree.t) :
  all_keys P t <-> (forall x, In x (keys t) -> P x).
Proof.
  induction t as [|l IHl k o r IHr]; cbn [all_keys keys].
  - split; [intros _ x [] | trivial].
  - rewrite IHl, IHr. split.
    + intros (Hk & Hl & Hr) x Hx. apply in_app_or in Hx.
      destruct Hx as [Hx|[<-|Hx]]; auto.
    + intros H. repeat split.
      * apply H, in_or_app. right. now left.
      * intros x Hx. apply H, in_or_app. now left.
      * intros x Hx. apply H, in_or_app. right. now right.
Qed.

Lemma in_keys_node (x : ZUID) (l r : Tree.t) (k : ZUID) (o : ObjectInfo) :
  In x (keys (Node l k o r)) <-> In x (keys l) \/ x = k \/ In x (keys r).
Proof.
  cbn [keys]. rewrite in_app_iff. cbn [In]. intuition.
Qed.

(** A lookup that finds an object finds it under a key of the tree. *)
Lemma lookup_found_in (d : nat) :
  forall (t : Tree.t) (uid : ZUID) (o : ObjectInfo),
    lookup d t uid = Found o -> In uid (keys t).
Proof.
  induction d as [|d IH]; intros t uid o H; [discriminate|].
  destruct t as [|l k x r]; [discriminate|].
  cbn [lookup] in H. apply in_keys_node.
  destruct (Z.ltb_spec uid k).
  - left. eauto.
  - destruct (Z.ltb_spec k uid).
    + right. right. eauto.
    + right. left. lia.
Qed.





Lemma leftmost_in (t : Tree.t) (k : ZUID) (o : ObjectInfo) :
  leftmost t = Some (k, o) -> In k (keys t).
Proof.
  induction t as [|l IHl j x r IHr]; [discriminate|].
  intros H. apply in_keys_node. cbn [leftmost] in H.
  destruct l as [|ll lk lo lr].
  - injection H as -> _. right. now left.
  - left. auto.
Qed.


(** In a search tree the leftmost key is the least. *)
Lemma leftmost_least (t : Tree.t) (k : ZUID) (o : ObjectInfo) :
  bst t -> leftmost t = Some (k, o) ->
  forall x, In x (keys t) -> k <= x.
Proof.
  induction t as [|l IHl j y r IHr]; [discriminate|].
  intros (Hl & Hr & Bl & Br) H x Hx.
  rewrite all_keys_spec in Hl, Hr.
  apply in_keys_node in Hx.
  destruct l as [|ll lk lo lr].
  - cbn [leftmost] in H. injection H as -> _.
    destruct Hx as [[]|[->|Hx]]; [lia|].
    specialize (Hr x Hx). lia.
  - assert (Hm : leftmost (Node ll lk lo lr) = Some (k, o)) by exact H.
    assert (Hkj : k < j) by (apply Hl; eapply leftmost_in; eauto).
    destruct Hx as [Hx|[->|Hx]].
    + eapply IHl; eauto.
    + lia.
    + specialize (Hr x Hx). lia.
Qed.

(** Deleting adds no key. *)
Lemma delete_keys_incl (t : Tree.t) :
  forall (uid x : ZUID), In x (keys (delete t uid)) -> In x (keys t).
Proof.
  induction t as [|l IHl k o r IHr]; intros uid x H; [exact H|].
  cbn [delete] in H. apply in_keys_node.
  destruct (uid <? k).
  - apply in_keys_node in H. destruct H as [H|[H|H]]; eauto.
  - destruct (k <? uid).
    + apply in_keys_node in H. destruct H as [H|[H|H]]; eauto.
    + destruct l as [|ll lk lo lr]; [now right; right|].
      destruct r as [|rl rk ro rr]; [now left|].
      destruct (leftmost (Node rl rk ro rr)) as [[k' o']|] eqn:Em;
        [|now left].
      apply in_keys_node in H. destruct H as [H|[->|H]].
      * now left.
      * right. right. eapply leftmost_in; eauto.
      * right. right. eauto.
Qed.

(** In a search tree, deleting a key removes it. *)
Lemma delete_not_in (t : Tree.t) :
  forall uid : ZUID, bst t -> ~ In uid (keys (delete t uid)).
Proof.
  induction t as [|l IHl k o r IHr]; intros uid B H; [exact H|].
  destruct B as (Hl & Hr & Bl & Br).
  rewrite all_keys_spec in Hl, Hr.
  cbn [delete] in H.
  destruct (Z.ltb_spec uid k).
  - apply in_keys_node in H. destruct H as [H|[H|H]].
    + eapply IHl; eauto.
    + lia.
    + specialize (Hr uid H). lia.
  - destruct (Z.ltb_spec k uid).
    + apply in_keys_node in H. destruct H as [H|[H|H]].
      * specialize (Hl uid H). lia.
      * lia.
      * eapply IHr; eauto.
    + assert (uid = k) by lia. subst uid.
      destruct l as [|ll lk lo lr].
      { specialize (Hr k H). lia. }
      destruct r as [|rl rk ro rr].
      { specialize (Hl k H). lia. }
      destruct (leftmost (Node rl rk ro rr)) as [[k' o']|] eqn:Em.
      * apply in_keys_node in H. destruct H as [H|[H|H]].
        -- specialize (Hl k H). lia.
        -- apply leftmost_in in Em. specialize (Hr k' Em). lia.
        -- apply delete_keys_incl in H. specialize (Hr k H). lia.
      * specialize (Hl k H). lia.
Qed.

Lemma insert_keys (t : Tree.t) :
  forall (uid x : ZUID) (o : ObjectInfo),
    In x (keys (insert t uid o)) -> x = uid \/ In x (keys t).
Proof.
  induction t as [|l IHl k y r IHr]; intros uid x o H.
  - cbn in H. destruct H as [H|[]]. now left.
  - cbn [insert] in H. rewrite in_keys_node.
    destruct (uid <? k); [|destruct (k <? uid)];
      apply in_keys_node in H; destruct H as [H|[H|H]]; auto.
    + apply IHl in H. tauto.
    + apply IHr in H. tauto.
Qed.

(** The operations of the engine keep the order of the tree. *)
Lemma bst_insert (t : Tree.t) :
  forall (uid : ZUID) (o : ObjectInfo), bst t -> bst (insert t uid o).
Proof.
  induction t as [|l IHl k y r IHr]; intros uid o B.
  - cbn. tauto.
  - destruct B as (Hl & Hr & Bl & Br). cbn [insert].
    destruct (Z.ltb_spec uid k); [|destruct (Z.ltb_spec k uid)];
      cbn [bst]; repeat split; auto.
    + rewrite all_keys_spec in *. intros x Hx.
      apply insert_keys in Hx. destruct Hx as [->|Hx]; auto.
    + rewrite all_keys_spec in *. intros x Hx.
      apply insert_keys in Hx. destruct Hx as [->|Hx]; auto.
Qed.

Lemma update_keys (t : Tree.t) (uid : ZUID) (o : ObjectInfo) :
  keys (update t uid o) = keys t.
Proof.
  induction t as [|l IHl k y r IHr]; [reflexivity|].
  cbn [update]. destruct (uid <? k); [|destruct (k <? uid)];
    cbn [keys]; congruence.
Qed.

Lemma bst_update (t : Tree.t) :
  forall (uid : ZUID) (o : ObjectInfo), bst t -> bst (update t uid o).
Proof.
  induction t as [|l IHl k y r IHr]; intros uid o B; [exact B|].
  destruct B as (Hl & Hr & Bl & Br). cbn [update].
  destruct (uid <? k); [|destruct (k <? uid)]; cbn [bst]; repeat split; auto;
    rewrite all_keys_spec in *; intros x Hx;
    rewrite update_keys in Hx; auto.
Qed.

Lemma bst_node (l r : Tree.t) (k : ZUID) (o : ObjectInfo) :
  (forall x, In x (keys l) -> x < k) ->
  (forall x, In x (keys r) -> k < x) ->
  bst l -> bst r -> bst (Node l k o r).
Proof.
  intros Hl Hr Bl Br. cbn [bst]. rewrite !all_keys_spec. tauto.
Qed.

Lemma bst_delete (t : Tree.t) :
  forall uid : ZUID, bst t -> bst (delete t uid).
Proof.
  induction t as [|l IHl k o r IHr]; intros uid B; [exact B|].
  pose proof B as (Hl & Hr & Bl & Br).
  rewrite all_keys_spec in Hl, Hr.
  cbn [delete].
  destruct (Z.ltb_spec uid k); [|destruct (Z.ltb_spec k uid)].
  - apply bst_node; auto.
    intros x Hx. apply delete_keys_incl in Hx. auto.
  - apply bst_node; auto.
    intros x Hx. apply delete_keys_incl in Hx. auto.
  - destruct l as [|ll lk lo lr]; [exact Br|].
    destruct r as [|rl rk ro rr]; [exact Bl|].
    destruct (leftmost (Node rl rk ro rr)) as [[k' o']|] eqn:Em;
      [|exact Bl].
    assert (Hk' : k < k') by (apply Hr; eapply leftmost_in; eauto).
    apply bst_node; auto.
    + intros x Hx. specialize (Hl x Hx). lia.
    + intros x Hx.
      assert (Hne : x <> k').
      { intros ->. eapply delete_not_in; eauto. }
      apply delete_keys_incl in Hx.
      pose proof (leftmost_least _ _ _ Br Em x Hx). lia.
Qed.




End TreeFacts.

(** ** The store facade *)
Module StoreFacts.
Import ZParcel.

Section WithParams.
Context {params : ParcelParams}.

(** *** The header record *)

Lemma validate_OK (raw : ZBinary) :
  Header.validate raw = OK <->
  Header.field f_signature raw = PARCEL_SIG /\
  Header.version_supported (be_decode (Header.field f_version raw)) = true /\
  be_decode (Header.field f_crc raw) = checksum (Header.checked_bytes raw).
Proof.
  unfold Header.validate.
  destruct (ZBinary_eqb (Header.field f_signature raw) PARCEL_SIG) eqn:Es;
    cbn [negb].
  - apply ZBinary_eqb_eq in Es.
    destruct (Header.version_supported _) eqn:Ev; cbn [negb].
    + destruct (Z.eqb_spec (be_decode (Header.field f_crc raw))
                           (checksum (Header.checked_bytes raw)));
        cbn [negb]; (split; [try discriminate; tauto|]).
      * tauto.
      * intros (_ & _ & H). contradiction.
    + split; [discriminate | intros (_ & H & _); discriminate].
  - split; [discriminate|]. intros (H & _).
    rewrite H, ZBinary_eqb_refl in Es. discriminate.
Qed.

Lemma validate_ERR_SIG (raw : ZBinary) :
  Header.field f_signature raw <> PARCEL_SIG ->
  Header.validate raw = ERR_SIG.
Proof.
  intros H. unfold Header.validate.
  destruct (ZBinary_eqb _ PARCEL_SIG) eqn:Es; [|reflexivity].
  apply ZBinary_eqb_eq in Es. contradiction.
Qed.

Lemma validate_ERR_VERSION (raw : ZBinary) :
  Header.field f_signature raw = PARCEL_SIG ->
  Header.version_supported (be_decode (Header.field f_version raw)) = false ->
  Header.validate raw = ERR_VERSION.
Proof.
  intros Hs Hv. unfold Header.validate.
  now rewrite Hs, ZBinary_eqb_refl, Hv.
Qed.

Lemma validate_ERR_CRC (raw : ZBinary) :
  Header.field f_signature raw = PARCEL_SIG ->
  Header.version_supported (be_decode (Header.field f_version raw)) = true ->
  be_decode (Header.field f_crc raw) <> checksum (Header.checked_bytes raw) ->
  Header.validate raw = ERR_CRC.
Proof.
  intros Hs Hv Hc. unfold Header.validate.
  rewrite Hs, ZBinary_eqb_refl, Hv. cbn [negb].
  destruct (Z.eqb_spec (be_decode (Header.field f_crc raw))
                       (checksum (Header.checked_bytes raw)));
    [contradiction | reflexivity].
Qed.

(** On an open container that holds a whole record at [offset], [read]
    answers what [validate] finds in the bytes of the record. *)
Lemma read_validates (a : Accessor) (offset : Z) :
  let raw := firstn (Z.to_nat ParcelHeader.NODE_SIZE)
                    (skipn (Z.to_nat offset) (ZFile.bytes (dev a))) in
  ZFile.isOpen (dev a) = true ->
  size raw = ParcelHeader.NODE_SIZE ->
  fst (fst (Header.read a offset)) = Header.validate raw.
Proof.
  intros raw Hopen Hsize. unfold Header.read, ZFile.read, ZFile.setPos.
  cbn [ZFile.isOpen ZFile.bytes ZFile.pos]. rewrite Hopen.
  cbv zeta. fold raw. rewrite Hsize, Z.eqb_refl. cbn [negb].
  destruct (Header.validate raw); reflexivity.
Qed.

(** [read] leaves the bytes of the container as they are. *)
Lemma read_keeps_bytes (a : Accessor) (offset : Z) :
  ZFile.bytes (dev (snd (Header.read a offset))) = ZFile.bytes (dev a).
Proof.
  unfold Header.read, ZFile.read, ZFile.setPos.
  cbn [ZFile.isOpen ZFile.bytes ZFile.pos].
  destruct (ZFile.isOpen (dev a)); cbv zeta.
  - destruct (negb _); [reflexivity|].
    destruct (Header.validate _); reflexivity.
  - cbn [size length Z.of_nat]. reflexivity.
Qed.

Lemma read_OK_header (a : Accessor) (offset : Z) :
  fst (fst (Header.read a offset)) = OK ->
  snd (fst (Header.read a offset)) <> None.
Proof.
  unfold Header.read.
  destruct (ZFile.read _ _) as [raw f]. cbv zeta.
  destruct (negb _); [discriminate|].
  destruct (Header.validate raw); cbn; congruence.
Qed.

Lemma open_result (file : Accessor) (p : t) :
  fst (open file p) = fst (fst (Header.read file 0)) /\
  (fst (open file p) <> OK -> snd (open file p) = p).
Proof.
  pose proof (read_OK_header file 0) as Hok.
  unfold open.
  destruct (Header.read file 0) as [[e h] a]. cbn [fst snd] in *.
  destruct e; cbn [fst snd]; try (split; [reflexivity | reflexivity]).
  destruct h as [h|].
  - cbn [fst snd]. split; [reflexivity | congruence].
  - exfalso. now apply Hok.
Qed.

(** C2. Reading the header record validates it: on an open container that
    holds the record, [read] fails with [ERR_SIG] when the signature does not
    match, with [ERR_VERSION] when the version is not supported, and with
    [ERR_CRC] when the stored checksum is not the checksum of the bytes that
    precede it; it reports [OK] only when all three hold, and in every case
    leaves the bytes of the container as they are; [open] reports the error
    of [read], and on a failure leaves the parcel as it was, so a parcel that
    was not open stays unopened. *)
Theorem header_read_validates (a : Accessor) (offset : Z) (p : t) :
  let raw := firstn (Z.to_nat ParcelHeader.NODE_SIZE)
                    (skipn (Z.to_nat offset) (ZFile.bytes (dev a))) in
  let err := fst (fst (Header.read a offset)) in
  ZFile.isOpen (dev a) = true ->
  size raw = ParcelHeader.NODE_SIZE ->
  (Header.field f_signature raw <> PARCEL_SIG -> err = ERR_SIG) /\
  (Header.field f_signature raw = PARCEL_SIG ->
   Header.version_supported (be_decode (Header.field f_version raw)) = false ->
   err = ERR_VERSION) /\
  (Header.field f_signature raw = PARCEL_SIG ->
   Header.version_supported (be_decode (Header.field f_version raw)) = true ->
   be_decode (Header.field f_crc raw) <> checksum (Header.checked_bytes raw) ->
   err = ERR_CRC) /\
  (err = OK ->
   Header.field f_signature raw = PARCEL_SIG /\
   Header.version_supported (be_decode (Header.field f_version raw)) = true /\
   be_decode (Header.field f_crc raw) = checksum (Header.checked_bytes raw)) /\
  ZFile.bytes (dev (snd (Header.read a offset))) = ZFile.bytes (dev a) /\
  fst (open a p) = fst (fst (Header.read a 0)) /\
  (fst (open a p) <> OK -> snd (open a p) = p) /\
  (_state p <> OPEN -> fst (open a p) <> OK ->
   _state (snd (open a p)) <> OPEN).
Proof.
  intros raw err Hopen Hsize.
  assert (Herr : err = Header.validate raw)
    by (apply read_validates; assumption).
  rewrite Herr.
  split; [apply validate_ERR_SIG|].
  split; [apply validate_ERR_VERSION|].
  split; [apply validate_ERR_CRC|].
  split; [apply validate_OK|].
  split; [apply read_keeps_bytes|].
  destruct (open_result a p) as [H1 H2].
  split; [exact H1|]. split; [exact H2|].
  intros Hp Hne. now rewrite (H2 Hne).
Qed.

(** *** The gate on the state *)

Lemma is_open_false (p : t) : _state p <> OPEN -> is_open p = false.
Proof. unfold is_open. destruct (_state p); congruence. Qed.

Lemma _storeObject_not_open (id : ZUID) (ty : objtype) (d : ZBinary) (p : t) :
  _state p <> OPEN -> _storeObject id ty d p = (Thrown NotOpen, p).
Proof. intros H. unfold _storeObject. now rewrite (is_open_false p H). Qed.

Lemma _fetchObject_not_open (ty : objtype) (id : ZUID) (p : t) :
  _state p <> OPEN -> _fetchObject ty id p = (Thrown NotOpen, p).
Proof. intros H. unfold _fetchObject. now rewrite (is_open_false p H). Qed.

Lemma fetch_as_not_open {A : Type} (ty : objtype) (dec : ZBinary -> A)
  (id : ZUID) (p : t) :
  _state p <> OPEN -> fetch_as ty dec id p = (Thrown NotOpen, p).
Proof.
  intros H. unfold fetch_as. now rewrite (_fetchObject_not_open ty id p H).
Qed.

(** C4. As amended: every store, fetch and remove operation called on a
    parcel that is not [OPEN] fails at once with the failure kept for this
    precondition (the exception "parcel not open"), and leaves the parcel,
    and with it the block accessor and its count of operations, as they
    were.  The record-adding operations of the page parser go to no file
    and leave the parser as it was in every state, initialized or not, and
    report no precondition: [addRecord] returns false in every state and
    the typed [add*Record] operations return nothing. *)
Theorem not_open_fails_without_io :
  (forall (c : call) (p : t),
      requires_open c = true -> _state p <> OPEN ->
      exec c p = (Thrown NotOpen, p)) /\
  (forall (s : ZParcel4Parser.t) (fields : ZParcel4Parser.FieldList),
      ZParcel4Parser.addRecord fields s = (false, s)) /\
  (forall (codec : FileCodec) (s : ZParcel4Parser.t) (field num : Z)
          (uid : ZUID) (bin : ZBinary) (path : ZParcel4Parser.ZPath),
      ZParcel4Parser.addUintRecord field num s = (tt, s) /\
      ZParcel4Parser.addSintRecord field num s = (tt, s) /\
      ZParcel4Parser.addZUIDRecord field uid s = (tt, s) /\
      ZParcel4Parser.addFloatRecord field num s = (tt, s) /\
      ZParcel4Parser.addStringRecord field bin s = (tt, s) /\
      ZParcel4Parser.addBinaryRecord field bin s = (tt, s) /\
      ZParcel4Parser.addFileRecord field path s = (tt, s)).
Proof.
  split; [|split; [reflexivity | repeat split]].
  intros c p Hc Hp.
  destruct c; try discriminate Hc; cbn [exec];
    unfold storeNull, storeBool, storeUint, storeSint, storeFloat, storeZUID,
      storeBlob, storeString, storeList, fetchBool, fetchUint, fetchSint,
      fetchFloat, fetchZUID, fetchBlob, fetchBlobReader, fetchString,
      fetchList;
    rewrite ?(_storeObject_not_open _ _ _ p Hp),
            ?(fetch_as_not_open _ _ _ p Hp);
    try reflexivity.
  - unfold storeFile, storeString.
    now rewrite (_storeObject_not_open _ _ _ p Hp).
  - unfold fetchFile. now rewrite (_fetchObject_not_open _ _ p Hp).
  - unfold removeObject. now rewrite (is_open_false p Hp).
Qed.

(** *** Lookups through the facade *)

Lemma lookup_not_Failed_OK (d : nat) :
  forall (t : Tree.t) (uid : ZUID), Tree.lookup d t uid <> Tree.Failed OK.
Proof.
  induction d as [|d IH]; intros t uid; [discriminate|].
  destruct t as [|l k o r]; [discriminate|].
  cbn [Tree.lookup].
  destruct (uid <? k); [apply IH|].
  destruct (k <? uid); [apply IH | discriminate].
Qed.

Lemma getType_lookup (id : ZUID) (p : t) (a : Accessor) :
  _file p = Some a ->
  fst (getType id p)
  = match Tree.lookup MAX_DEPTH (index a) id with
    | Tree.Found o => type o
    | Tree.Failed _ => UNKNOWNOBJ
    end.
Proof.
  intros Hf. unfold getType, _getObjectInfo. rewrite Hf.
  destruct (Tree.lookup _ _ _); reflexivity.
Qed.

Lemma getType_not_stored (id : ZUID) (p : t) :
  ~ stored id p -> fst (getType id p) = UNKNOWNOBJ.
Proof.
  intros Hn. destruct (_file p) as [a|] eqn:Hf.
  - rewrite (getType_lookup id p a Hf).
    destruct (Tree.lookup _ _ _) as [o|e] eqn:El; [|reflexivity].
    exfalso. apply Hn. exists a. split; [exact Hf|].
    eapply TreeFacts.lookup_found_in; eauto.
  - unfold getType, _getObjectInfo. now rewrite Hf.
Qed.

Lemma removeObject_OK (id : ZUID) (p p' : t) (a : Accessor) :
  _file p = Some a ->
  removeObject id p = (Returned OK, p') ->
  p' = set_file (with_index (Tree.delete (index a) id) a) p.
Proof.
  intros Hf. unfold removeObject. rewrite Hf.
  destruct (negb (is_open p)); [discriminate|].
  destruct (Tree.lookup _ _ _) as [o|e] eqn:El.
  - congruence.
  - intros H. injection H as He _. subst e.
    exfalso. eapply lookup_not_Failed_OK; eauto.
Qed.

(** C5. [getType] answers the sentinel [UNKNOWNOBJ], which is 255, for every
    UID under which no object is stored; and a UID that [removeObject] has
    just removed from a parcel whose tree is ordered is such a UID. *)
Theorem getType_absent_is_UNKNOWNOBJ :
  UNKNOWNOBJ = 255 /\
  (forall (id : ZUID) (p : t),
      ~ stored id p -> fst (getType id p) = UNKNOWNOBJ) /\
  (forall (id : ZUID) (p p' : t),
      parcel_wf p ->
      removeObject id p = (Returned OK, p') ->
      ~ stored id p' /\ fst (getType id p') = UNKNOWNOBJ).
Proof.
  split; [reflexivity|]. split; [exact getType_not_stored|].
  intros id p p' Hb Hr.
  destruct (_file p) as [a|] eqn:Hf.
  2:{ unfold removeObject in Hr. rewrite Hf in Hr.
      destruct (negb (is_open p)); discriminate. }
  unfold parcel_wf in Hb. rewrite Hf in Hb.
  assert (Hn : ~ stored id p').
  { rewrite (removeObject_OK id p p' a Hf Hr).
    intros (a' & Ha' & Hin). cbn [set_file _file] in Ha'.
    injection Ha' as <-. cbn [with_index index] in Hin.
    eapply TreeFacts.delete_not_in; eauto. }
  split; [exact Hn | now apply getType_not_stored].
Qed.

(** *** Storing and fetching *)







(** *** The order of the tree *)

Lemma answer_snd {A : Type} (f : A -> response) (r : outcome A * t) :
  snd (answer f r) = snd r.
Proof. destruct r as [[a|e] q]; reflexivity. Qed.

Lemma _storeObject_wf (id : ZUID) (ty : objtype) (d : ZBinary) (p : t) :
  parcel_wf p -> parcel_wf (snd (_storeObject id ty d p)).
Proof.
  unfold parcel_wf, _storeObject. intros H.
  destruct (negb (is_open p)); [exact H|].
  destruct (_file p) as [a|] eqn:Hf; [|cbn [snd]; now rewrite Hf].
  destruct (Tree.lookup _ _ _) as [o|e].
  - destruct restore_updates; cbn; [apply TreeFacts.bst_update|]; exact H.
  - destruct e; cbn; try exact H. apply TreeFacts.bst_insert; exact H.
Qed.

Lemma storeFile_wf (id nameid dataid : ZUID) (name content : ZBinary)
  (p : t) :
  parcel_wf p ->
  parcel_wf (snd (storeFile id nameid dataid name content p)).
Proof.
  intros H. unfold storeFile, storeString, storeBlob.
  pose proof (_storeObject_wf nameid STRINGOBJ name p H) as H1.
  destruct (_storeObject nameid STRINGOBJ name p) as [[e1|x1] p1];
    cbn [snd] in H1; [|exact H1].
  pose proof (_storeObject_wf dataid BLOBOBJ content p1 H1) as H2.
  destruct e1; try exact H1.
  destruct (_storeObject dataid BLOBOBJ content p1) as [[e2|x2] p2];
    cbn [snd] in H2; [|exact H2].
  destruct e2; try exact H2.
  apply _storeObject_wf. exact H2.
Qed.

Lemma _getObjectInfo_wf (id : ZUID) (p : t) :
  parcel_wf p -> parcel_wf (snd (_getObjectInfo id p)).
Proof.
  unfold parcel_wf, _getObjectInfo. intros H.
  destruct (_file p) as [a|] eqn:Hf; [exact H | cbn [snd]; now rewrite Hf].
Qed.

Lemma _fetchObject_wf (ty : objtype) (id : ZUID) (p : t) :
  parcel_wf p -> parcel_wf (snd (_fetchObject ty id p)).
Proof.
  intros H. unfold _fetchObject. destruct (negb (is_open p)); [exact H|].
  pose proof (_getObjectInfo_wf id p H) as H1.
  destruct (_getObjectInfo id p) as [[o|e] q]; cbn [snd] in *;
    [destruct (type o =? ty)|]; exact H1.
Qed.

Lemma fetch_as_wf {A : Type} (ty : objtype) (dec : ZBinary -> A)
  (id : ZUID) (p : t) :
  parcel_wf p -> parcel_wf (snd (fetch_as ty dec id p)).
Proof.
  intros H. unfold fetch_as. pose proof (_fetchObject_wf ty id p H) as H1.
  destruct (_fetchObject ty id p) as [[o|e] q]; exact H1.
Qed.

Lemma fetchFile_wf (id : ZUID) (p : t) :
  parcel_wf p -> parcel_wf (snd (fetchFile id p)).
Proof.
  intros H. unfold fetchFile.
  pose proof (_fetchObject_wf FILEOBJ id p H) as H1.
  destruct (_fetchObject FILEOBJ id p) as [[o|e] q]; cbn [snd] in H1.
  - destruct (_ =? _); exact H1.
  - destruct e; exact H1.
Qed.

Lemma removeObject_wf (id : ZUID) (p : t) :
  parcel_wf p -> parcel_wf (snd (removeObject id p)).
Proof.
  unfold parcel_wf, removeObject. intros H.
  destruct (negb (is_open p)); [exact H|].
  destruct (_file p) as [a|] eqn:Hf; [|cbn [snd]; now rewrite Hf].
  destruct (Tree.lookup _ _ _); cbn; [apply TreeFacts.bst_delete|]; exact H.
Qed.

(** Every call keeps the tree of the parcel ordered, given that the
    containers handed to [open] are. *)
Lemma exec_wf (c : call) (p : t) :
  call_wf c -> parcel_wf p -> parcel_wf (snd (exec c p)).
Proof.
  intros Hc Hp.
  destruct c; cbn [exec];
    unfold storeNull, storeBool, storeUint, storeSint, storeFloat, storeZUID,
      storeBlob, storeString, storeList, fetchBool, fetchUint, fetchSint,
      fetchFloat, fetchZUID, fetchBlob, fetchBlobReader, fetchString,
      fetchList;
    rewrite ?answer_snd;
    auto using _storeObject_wf, storeFile_wf, fetch_as_wf, fetchFile_wf,
      removeObject_wf.
  - unfold create, Header.write.
    destruct (ZFile.write _ _) as [n f]. cbv zeta.
    destruct (n =? ParcelHeader.NODE_SIZE); cbn; [exact I | exact Hp].
  - unfold open, Header.read.
    destruct (ZFile.read _ _) as [raw f]. cbv zeta.
    destruct (negb _); [exact Hp|].
    destruct (Header.validate raw); cbn; try exact Hp. exact Hc.
  - unfold exists_. pose proof (_getObjectInfo_wf id p Hp) as H.
    destruct (_getObjectInfo id p) as [[o|e] q]; exact H.
  - unfold getType. pose proof (_getObjectInfo_wf id p Hp) as H.
    destruct (_getObjectInfo id p) as [[o|e] q]; exact H.
  - unfold setRoot, parcel_wf in *.
    destruct (_file p) as [a|] eqn:Hf; [|cbn [snd]; now rewrite Hf].
    destruct (_header p) as [h|]; [|cbn [snd]; now rewrite Hf].
    unfold Header.write. destruct (ZFile.write _ _) as [n f]. cbv zeta.
    destruct (n =? ParcelHeader.NODE_SIZE); exact Hp.
  - unfold listObjects, parcel_wf in *.
    destruct (_file p) as [a|] eqn:Hf; [exact Hp | cbn [snd]; now rewrite Hf].
Qed.

(** *** The states of the parcel *)

Lemma _storeObject_state (id : ZUID) (ty : objtype) (d : ZBinary) (p : t) :
  _state (snd (_storeObject id ty d p)) = _state p.
Proof.
  unfold _storeObject.
  destruct (negb (is_open p)); [reflexivity|].
  destruct (_file p) as [a|]; [|reflexivity].
  destruct (Tree.lookup _ _ _) as [o|e].
  - destruct restore_updates; reflexivity.
  - destruct e; reflexivity.
Qed.

Lemma storeFile_state (id nameid dataid : ZUID) (name content : ZBinary)
  (p : t) :
  _state (snd (storeFile id nameid dataid name content p)) = _state p.
Proof.
  unfold storeFile, storeString, storeBlob.
  pose proof (_storeObject_state nameid STRINGOBJ name p) as H1.
  destruct (_storeObject nameid STRINGOBJ name p) as [[e1|x1] p1];
    cbn [snd] in H1; [|exact H1].
  assert (H2 : _state (snd (_storeObject dataid BLOBOBJ content p1))
               = _state p)
    by (rewrite _storeObject_state; exact H1).
  destruct e1; try exact H1.
  destruct (_storeObject dataid BLOBOBJ content p1) as [[e2|x2] p2];
    cbn [snd] in H2; [|exact H2].
  destruct e2; try exact H2.
  rewrite _storeObject_state. exact H2.
Qed.

Lemma _getObjectInfo_state (id : ZUID) (p : t) :
  _state (snd (_getObjectInfo id p)) = _state p.
Proof. unfold _getObjectInfo. destruct (_file p); reflexivity. Qed.

Lemma _fetchObject_state (ty : objtype) (id : ZUID) (p : t) :
  _state (snd (_fetchObject ty id p)) = _state p.
Proof.
  unfold _fetchObject. destruct (negb (is_open p)); [reflexivity|].
  pose proof (_getObjectInfo_state id p) as H.
  destruct (_getObjectInfo id p) as [[o|e] q]; cbn [snd] in *;
    [destruct (type o =? ty)|]; exact H.
Qed.

Lemma fetch_as_state {A : Type} (ty : objtype) (dec : ZBinary -> A)
  (id : ZUID) (p : t) :
  _state (snd (fetch_as ty dec id p)) = _state p.
Proof.
  unfold fetch_as. pose proof (_fetchObject_state ty id p) as H.
  destruct (_fetchObject ty id p) as [[o|e] q]; exact H.
Qed.

Lemma fetchFile_state (id : ZUID) (p : t) :
  _state (snd (fetchFile id p)) = _state p.
Proof.
  unfold fetchFile. pose proof (_fetchObject_state FILEOBJ id p) as H.
  destruct (_fetchObject FILEOBJ id p) as [[o|e] q]; cbn [snd] in H.
  - destruct (_ =? _); exact H.
  - destruct e; exact H.
Qed.

Lemma removeObject_state (id : ZUID) (p : t) :
  _state (snd (removeObject id p)) = _state p.
Proof.
  unfold removeObject. destruct (negb (is_open p)); [reflexivity|].
  destruct (_file p) as [a|]; [|reflexivity].
  destruct (Tree.lookup _ _ _); reflexivity.
Qed.

(** Every call leaves the state as it was, or [OPEN], or [CLOSED]. *)
Lemma exec_state (c : call) (p : t) :
  _state (snd (exec c p)) = _state p \/
  _state (snd (exec c p)) = OPEN \/
  _state (snd (exec c p)) = CLOSED.
Proof.
  destruct c; cbn [exec];
    unfold storeNull, storeBool, storeUint, storeSint, storeFloat, storeZUID,
      storeBlob, storeString, storeList, fetchBool, fetchUint, fetchSint,
      fetchFloat, fetchZUID, fetchBlob, fetchBlobReader, fetchString,
      fetchList;
    rewrite ?answer_snd, ?_storeObject_state, ?fetch_as_state,
      ?storeFile_state, ?fetchFile_state, ?removeObject_state;
    auto.
  - unfold create. destruct (Header.write _ _ _) as [e a].
    destruct e; cbn; auto.
  - unfold open. destruct (Header.read file 0) as [[e h] a].
    destruct e; try (cbn; auto). destruct h; cbn; auto.
  - unfold exists_. pose proof (_getObjectInfo_state id p) as H.
    destruct (_getObjectInfo id p) as [[o|e] q]; cbn [snd] in *; auto.
  - unfold getType. pose proof (_getObjectInfo_state id p) as H.
    destruct (_getObjectInfo id p) as [[o|e] q]; cbn [snd] in *; auto.
  - unfold setRoot. destruct (_file p); [|cbn; auto].
    destruct (_header p); [|cbn; auto].
    destruct (Header.write _ _ _); cbn; auto.
  - unfold listObjects. destruct (_file p); cbn; auto.
Qed.

Lemma run_snoc (cs : list call) (c : call) (p : t) :
  run (cs ++ [c]) p = snd (exec c (run cs p)).
Proof. unfold run. now rewrite fold_left_app. Qed.

(** C7. The state of a parcel never becomes [LOCKED]: after every sequence
    of calls made on a new parcel, which starts [CLOSED], the state is not
    [LOCKED]. *)
Theorem state_never_LOCKED (cs : list call) :
  _state (run cs new) <> LOCKED.
Proof.
  induction cs as [|c cs IH] using rev_ind.
  - discriminate.
  - rewrite run_snoc.
    destruct (exec_state c (run cs new)) as [H|[H|H]]; rewrite H;
      [exact IH | discriminate | discriminate].
Qed.

(** The tree of a parcel stays ordered through every sequence of calls from
    a new parcel, given that the containers handed to [open] are ordered. *)
Lemma run_wf (cs : list call) :
  Forall call_wf cs -> parcel_wf (run cs new).
Proof.
  induction cs as [|c cs IH] using rev_ind; intros H.
  - exact I.
  - apply Forall_app in H. destruct H as [Hcs Hc].
    rewrite run_snoc. apply exec_wf.
    + now inversion Hc.
    + now apply IH.
Qed.

(** *** File objects *)

















End WithParams.

(** *** The model at work, with the sample parameters *)

(** Three containers of 64 bytes: zero bytes; the signature and zero
    bytes (version 0); the signature, version 1 and zero bytes (a checksum
    of 0).  [read] answers [ERR_SIG], [ERR_VERSION] and [ERR_CRC], and
    [open] on the first leaves a new parcel as it was. *)
Lemma header_read_validates_witness :
  let acc := fun b => {| dev := ZFile.mk true b 0;
                         index := Tree.Leaf; io := 0 |} in
  let a1 := acc (repeat x00 64) in
  let a2 := acc (@PARCEL_SIG SampleParams ++ repeat x00 57) in
  let a3 := acc (@PARCEL_SIG SampleParams ++ x01 :: repeat x00 56) in
  (ZFile.isOpen (dev a1) = true /\
   size (firstn (Z.to_nat ParcelHeader.NODE_SIZE)
                (skipn (Z.to_nat 0) (ZFile.bytes (dev a1))))
   = ParcelHeader.NODE_SIZE) /\
  fst (fst (@Header.read SampleParams a1 0)) = ERR_SIG /\
  fst (fst (@Header.read SampleParams a2 0)) = ERR_VERSION /\
  fst (fst (@Header.read SampleParams a3 0)) = ERR_CRC /\
  snd (@open SampleParams a1 (@new)) = @new.
Proof.
  intros acc a1 a2 a3.
  assert (O1 : ZFile.isOpen (dev a1) = true) by reflexivity.
  assert (S1 : size (firstn (Z.to_nat ParcelHeader.NODE_SIZE)
                       (skipn (Z.to_nat 0) (ZFile.bytes (dev a1))))
               = ParcelHeader.NODE_SIZE) by reflexivity.
  assert (O2 : ZFile.isOpen (dev a2) = true) by reflexivity.
  assert (S2 : size (firstn (Z.to_nat ParcelHeader.NODE_SIZE)
                       (skipn (Z.to_nat 0) (ZFile.bytes (dev a2))))
               = ParcelHeader.NODE_SIZE) by reflexivity.
  assert (O3 : ZFile.isOpen (dev a3) = true) by reflexivity.
  assert (S3 : size (firstn (Z.to_nat ParcelHeader.NODE_SIZE)
                       (skipn (Z.to_nat 0) (ZFile.bytes (dev a3))))
               = ParcelHeader.NODE_SIZE) by reflexivity.
  destruct (@header_read_validates SampleParams a1 0 new O1 S1)
    as (Hsig & _ & _ & _ & _ & Hopen & Hfail & _).
  destruct (@header_read_validates SampleParams a2 0 new O2 S2)
    as (_ & Hver & _).
  destruct (@header_read_validates SampleParams a3 0 new O3 S3)
    as (_ & _ & Hcrc & _).
  assert (E1 : fst (fst (@Header.read SampleParams a1 0)) = ERR_SIG)
    by (apply Hsig; vm_compute; discriminate).
  assert (E2 : fst (fst (@Header.read SampleParams a2 0)) = ERR_VERSION)
    by (apply Hver; vm_compute; reflexivity).
  assert (E3 : fst (fst (@Header.read SampleParams a3 0)) = ERR_CRC)
    by (apply Hcrc; vm_compute; [reflexivity | reflexivity | discriminate]).
  split; [split; [exact O1 | exact S1]|].
  split; [exact E1|]. split; [exact E2|]. split; [exact E3|].
  apply Hfail. rewrite Hopen, E1. discriminate.
Defined.

Lemma not_open_fails_without_io_witness :
  (requires_open (StoreUint 1 5) = true /\ _state new <> OPEN /\
   @exec SampleParams (StoreUint 1 5) new = (Thrown NotOpen, new)) /\
  (let s := ZParcel4Parser.new (ZFile.mk true [] 0) 0 in
   ZParcel4Parser._init s = false /\
   ZParcel4Parser.addRecord [] s = (false, s) /\
   @ZParcel4Parser.addUintRecord BigEndianCodec 1 5 s = (tt, s)).
Proof.
  assert (H1 : requires_open (StoreUint 1 5) = true) by reflexivity.
  assert (H2 : _state new <> OPEN) by discriminate.
  destruct (@not_open_fails_without_io SampleParams) as (Hs & Hr & Ha).
  split.
  - split; [exact H1|]. split; [exact H2|]. exact (Hs _ _ H1 H2).
  - intros s. split; [reflexivity|]. split; [apply Hr|].
    exact (proj1 (Ha BigEndianCodec s 1 5 0 [] {| ZParcel4Parser.str := [] |})).
Defined.

(** Counterexample to C4: on a parser that is not initialized the
    typed [addUintRecord] returns as on any other, and [addRecord] returns
    what it returns on the parser that [create] has initialized; the
    result of neither tells a precondition that was not met. *)
Lemma record_adding_reports_no_precondition :
  let s0 := ZParcel4Parser.new (ZFile.mk true [] 0) 0 in
  let s1 := snd (@ZParcel4Parser.create BigEndianCodec s0) in
  (ZParcel4Parser._init s0 = false /\ ZParcel4Parser._init s1 = true) /\
  @ZParcel4Parser.addUintRecord BigEndianCodec 1 5 s0 = (tt, s0) /\
  fst (@ZParcel4Parser.addUintRecord BigEndianCodec 1 5 s0)
  = fst (@ZParcel4Parser.addUintRecord BigEndianCodec 1 5 s1) /\
  fst (ZParcel4Parser.addRecord [] s0) = fst (ZParcel4Parser.addRecord [] s1) /\
  ~ (forall (fields : ZParcel4Parser.FieldList) (s s' : ZParcel4Parser.t),
        ZParcel4Parser._init s = false -> ZParcel4Parser._init s' = true ->
        fst (ZParcel4Parser.addRecord fields s)
        <> fst (ZParcel4Parser.addRecord fields s')).
Proof.
  intros s0 s1.
  assert (I0 : ZParcel4Parser._init s0 = false) by reflexivity.
  assert (I1 : ZParcel4Parser._init s1 = true) by reflexivity.
  split; [exact (conj I0 I1)|].
  split; [reflexivity|]. split; [reflexivity|]. split; [reflexivity|].
  intros H. exact (H [] s0 s1 I0 I1 eq_refl).
Qed.

(** A parcel created on an empty container, with objects under 5, 3 and 8;
    5, a node with two children, is removed. *)
Lemma getType_absent_is_UNKNOWNOBJ_witness :
  let a0 := {| dev := ZFile.mk true [] 0; index := Tree.Leaf; io := 0 |} in
  let p := @run SampleParams
             [Create a0 OPT_TAIL_EXTEND; StoreUint 5 50; StoreUint 3 30;
              StoreUint 8 80] new in
  let r := @removeObject SampleParams 5 p in
  (parcel_wf p /\ r = (Returned OK, snd r)) /\
  fst (@getType SampleParams 5 p) = UINTOBJ /\
  fst (@getType SampleParams 5 (snd r)) = UNKNOWNOBJ.
Proof.
  intros a0 p r.
  assert (Hb : parcel_wf p) by (vm_compute; repeat split).
  assert (Hr : r = (Returned OK, snd r)) by (vm_compute; reflexivity).
  split; [split; [exact Hb | exact Hr]|].
  split; [vm_compute; reflexivity|].
  apply (proj2 (proj2 (@getType_absent_is_UNKNOWNOBJ SampleParams))
           5 p (snd r) Hb Hr).
Defined.



End StoreFacts.

(** ** The command line *)
Module MainFacts.
Import ZParcel4Parser ZParcel4ParserFacts HeadPageFacts Main.

Lemma scan_spec (argv : list String.string) :
  forall (c : String.string) (a f : list String.string),
    snd (fst (scan argv (c, a, f))) = a ++ filter not_flag argv.
Proof.
  induction argv as [|x rest IH]; intros c a f.
  - cbn. now rewrite app_nil_r.
  - cbn [scan filter]. unfold not_flag at 1.
    destruct (is_flag x); cbn [negb].
    + apply IH.
    + rewrite IH, <- app_assoc. reflexivity.
Qed.

Lemma arguments_cons (prog : String.string) (rest : list String.string) :
  is_flag prog = false -> arguments (prog :: rest) = filter not_flag rest.
Proof.
  intros H. unfold arguments. rewrite scan_spec.
  cbn [filter app]. unfold not_flag at 1. rewrite H. reflexivity.
Qed.

Lemma filter_not_flag_idem (argv : list String.string) :
  filter not_flag (filter not_flag argv) = filter not_flag argv.
Proof.
  induction argv as [|x rest IH]; [reflexivity|].
  cbn [filter]. destruct (not_flag x) eqn:E; [|exact IH].
  cbn [filter]. now rewrite E, IH.
Qed.

Lemma eqb_command (a c : String.string) :
  ~ In a commands -> In c commands -> String.eqb a c = false.
Proof.
  intros Hn Hc. apply String.eqb_neq. intros ->. now apply Hn.
Qed.

Lemma last_two {A : Type} (l : list A) (a b d : A) :
  last (l ++ [a; b]) d = b.
Proof.
  change (l ++ [a; b]) with (l ++ [a] ++ [b]).
  rewrite app_assoc. apply last_last.
Qed.

Ltac split_matches :=
  repeat match goal with
         | |- context [match ?x with _ => _ end] => destruct x
         end.

Section Helpers.
Context {codec : FileCodec} {types : ZParcelTypes} {tables : FieldTables}
        {env : Environment}.

Lemma mainwrap_command (argv : list String.string) :
  mainwrap argv = command (arguments argv) [MsgCommand (command_string argv)].
Proof.
  unfold mainwrap, arguments, command_string.
  destruct (scan argv _) as [[c a] f]. reflexivity.
Qed.

Lemma addField_zero (name : ZString) (type : Z) (s : t) :
  addField name type s = (0, s).
Proof.
  unfold addField, getFieldId, getFieldType, bind, ret.
  destruct (negb (0 =? FIELD_NULL)); [|reflexivity].
  destruct (type =? nullfield); reflexivity.
Qed.

Lemma nth_error_arg (l : list String.string) (i : nat) :
  (i < length l)%nat -> nth_error l i = Some (arg l i).
Proof. intros H. unfold arg. now apply nth_error_nth'. Qed.

(** One round of the loop of [add]: it has a result when the argument
    splits in two parts at least, and then it has found no field. *)
Lemma add_step_run (parcel : t) (fl : FieldList) (log : list message)
  (a : String.string) :
  add_step (parcel, fl, log) a
  = if well_split a
    then Some (parcel, fl, log ++ add_errors [a])
    else None.
Proof.
  unfold add_step, well_split, add_errors, count. cbn [flat_map].
  rewrite app_nil_r.
  destruct (2 <=? Z.of_nat (length (split a "="))) eqn:E.
  - apply Z.leb_le in E.
    rewrite (nth_error_arg _ 0), (nth_error_arg _ 1) by lia.
    unfold getFieldId, ret. cbn [negb Z.eqb].
    destruct (negb _); [now rewrite <- app_assoc | reflexivity].
  - apply Z.leb_gt in E.
    destruct (split a "=") as [|x [|y l]]; cbn [nth_error]; try reflexivity.
    cbn [length] in E. lia.
Qed.

Lemma add_errors_app (l1 l2 : list String.string) :
  add_errors (l1 ++ l2) = add_errors l1 ++ add_errors l2.
Proof. unfold add_errors. apply flat_map_app. Qed.

Lemma add_fields_run (l : list String.string) :
  forall (parcel : t) (fl : FieldList) (log : list message),
    add_fields l (parcel, fl, log)
    = if forallb well_split l
      then Some (parcel, fl, log ++ add_errors l)
      else None.
Proof.
  induction l as [|a rest IH]; intros parcel fl log.
  - cbn. now rewrite app_nil_r.
  - cbn [add_fields forallb]. rewrite add_step_run.
    destruct (well_split a); cbn [andb]; [|reflexivity].
    rewrite IH. destruct (forallb well_split rest); [|reflexivity].
    change (a :: rest) with ([a] ++ rest).
    now rewrite add_errors_app, app_assoc.
Qed.

Lemma add_errors_are_errors (l : list String.string) :
  forallb is_field_error (add_errors l) = true.
Proof.
  induction l as [|a rest IH]; [reflexivity|].
  change (a :: rest) with ([a] ++ rest).
  rewrite add_errors_app, forallb_app, IH.
  unfold add_errors. cbn [flat_map]. destruct (negb _); reflexivity.
Qed.

Lemma add_errors_length (l : list String.string) :
  (length l <= length (add_errors l))%nat.
Proof.
  induction l as [|a rest IH]; [reflexivity|].
  change (a :: rest) with ([a] ++ rest).
  rewrite add_errors_app, !length_app.
  unfold add_errors at 1. cbn [flat_map]. rewrite app_nil_r, length_app.
  cbn [length app]. lia.
Qed.

(** The status, the log and the file of a command, for any log so far. *)
Lemma command_log (args : list String.string) (log : list message) :
  command args log
  = option_map (fun r => (exit_status r, log ++ log_of r, snd r))
               (command args []).
Proof.
  unfold command, exit_status, log_of. cbv zeta.
  rewrite !add_fields_run, !addField_zero. unfold addRecord, ret.
  cbn [map app negb Z.eqb].
  destruct (forallb well_split (skipn 2 args));
    split_matches; cbn [option_map fst snd app]; rewrite <- ?app_assoc;
    reflexivity.
Qed.

Lemma new_file (file : ZFile.t) (pc : Z) : _file (new file pc) = file.
Proof. reflexivity. Qed.

Lemma open_new_bytes (file : ZFile.t) (pc : Z) :
  ZFile.bytes (_file (snd (open (new file pc)))) = ZFile.bytes file.
Proof. now rewrite preserves_bytes_open. Qed.

End Helpers.

Ltac split_hyps :=
  repeat match goal with
         | H : context [match ?x with _ => _ end] |- _ => destruct x
         end.

Section Commands.
Context {codec : FileCodec} {types : ZParcelTypes} {tables : FieldTables}
        {env : Environment}.

Lemma command_none (args : list String.string) (log : list message) :
  command args log = None <->
  ((arg args 0 = "add"%string) /\ (2 <= count args) /\
   (forallb well_split (skipn 2 args) = false)).
Proof.
  unfold command. cbv zeta.
  rewrite add_fields_run, addField_zero. unfold addRecord, ret.
  destruct (String.eqb (arg args 0) "add") eqn:Eadd.
  - apply String.eqb_eq in Eadd. rewrite Eadd.
    change (String.eqb "add" "create") with false.
    change (String.eqb "add" "modify") with false.
    change (String.eqb "add" "list") with false.
    rewrite !andb_false_r, andb_true_r.
    assert (Hpos : (0 <? count args) = true).
    { destruct args; [discriminate Eadd|].
      apply Z.ltb_lt. unfold count. cbn [length]. lia. }
    rewrite Hpos.
    destruct (count args <? 2) eqn:E2.
    + apply Z.ltb_lt in E2. split; [discriminate|]. intros (_ & H & _). lia.
    + apply Z.ltb_ge in E2.
      destruct (forallb well_split (skipn 2 args)).
      * split; [discriminate|]. intros (_ & _ & H). discriminate H.
      * split; [intros _; repeat split; [lia|reflexivity..]|reflexivity].
  - rewrite !andb_false_r. apply String.eqb_neq in Eadd.
    split; [|intros (H & _); contradiction].
    split_matches; discriminate.
Qed.

(** X16. [mainwrap] returns for every command line but one: [add] with a
    file and a [field=value] argument that [split] does not cut in two
    parts at least, where the loop reads a part the array does not have
    (after it has reported the format error). *)
Theorem mainwrap_returns_unless_field_unsplit
  (prog : String.string) (rest : list String.string) :
  is_flag prog = false ->
  mainwrap (prog :: rest) = None <->
  ((arg (filter not_flag rest) 0 = "add"%string) /\
   (2 <= count (filter not_flag rest)) /\
   (forallb well_split (skipn 2 (filter not_flag rest)) = false)).
Proof.
  intros Hprog. rewrite mainwrap_command, (arguments_cons _ _ Hprog).
  apply command_none.
Qed.

Lemma command_status (args : list String.string) (log : list message)
  (r : Z * list message * option (String.string * ZFile.t)) :
  command args log = Some r ->
  (exit_status r = EXIT_SUCCESS \/ exit_status r = EXIT_FAILURE) /\
  (exit_status r = EXIT_FAILURE <-> is_usage (last (log_of r) MsgOK) = true).
Proof.
  unfold command. cbv zeta.
  rewrite add_fields_run, addField_zero. unfold addRecord, ret.
  cbn [negb Z.eqb map].
  intros H.
  destruct (forallb well_split (skipn 2 args)); split_hyps;
    try discriminate H;
    injection H as <-; unfold exit_status, log_of; cbn [fst snd];
    rewrite ?app_nil_r, ?last_two, ?last_last;
    unfold EXIT_SUCCESS, EXIT_FAILURE; cbn [is_usage];
    (split; [auto | split; first [reflexivity | discriminate]]).
Qed.

End Commands.

Lemma command_status_env
  (codec codec' : FileCodec) (types types' : ZParcelTypes)
  (tables tables' : FieldTables) (env env' : Environment)
  (args : list String.string) (log log' : list message)
  (r r' : Z * list message * option (String.string * ZFile.t)) :
  @command codec types tables env args log = Some r ->
  @command codec' types' tables' env' args log' = Some r' ->
  exit_status r' = exit_status r.
Proof.
  unfold command. cbv zeta.
  rewrite !add_fields_run, !addField_zero. unfold addRecord, ret.
  cbn [negb Z.eqb map].
  intros H H'.
  split_hyps; try discriminate H; try discriminate H';
    injection H as <-; injection H' as <-; reflexivity.
Qed.

Section Runs.
Context {codec : FileCodec} {types : ZParcelTypes} {tables : FieldTables}
        {env : Environment}.

(** X17. The exit status of [mainwrap] is [EXIT_FAILURE] exactly when the
    last line of the log is the usage of a command, and [EXIT_SUCCESS]
    otherwise, also where the parser has reported an error; it is the same
    whatever the files hold and whatever the parser does. *)
Theorem exit_status_tells_usage_only
  (prog : String.string) (rest : list String.string)
  (r : Z * list message * option (String.string * ZFile.t)) :
  is_flag prog = false ->
  mainwrap (prog :: rest) = Some r ->
  (exit_status r = EXIT_SUCCESS \/ exit_status r = EXIT_FAILURE) /\
  (exit_status r = EXIT_FAILURE <-> is_usage (last (log_of r) MsgOK) = true) /\
  (forall (codec' : FileCodec) (types' : ZParcelTypes)
          (tables' : FieldTables) (env' : Environment)
          (r' : Z * list message * option (String.string * ZFile.t)),
      @mainwrap codec' types' tables' env' (prog :: rest) = Some r' ->
      exit_status r' = exit_status r).
Proof.
  intros Hprog H. rewrite mainwrap_command in H.
  destruct (command_status _ _ _ H) as [H1 H2].
  split; [exact H1|]. split; [exact H2|].
  intros codec' types' tables' env' r' H'. rewrite mainwrap_command in H'.
  exact (command_status_env _ _ _ _ _ _ _ _ _ _ _ _ _ H H').
Qed.

(** X18. When the first argument after the name of the program (flags
    apart) is none of the five commands, or there is none, [mainwrap]
    opens no file, lists the commands and returns [EXIT_SUCCESS]: so it
    does when the file is given before the command. *)
Theorem unknown_command_opens_nothing
  (prog : String.string) (rest : list String.string) :
  is_flag prog = false ->
  ~ In (arg (filter not_flag rest) 0) commands ->
  mainwrap (prog :: rest)
  = Some (EXIT_SUCCESS,
          [MsgCommand (command_string (prog :: rest)); MsgCommands], None).
Proof.
  intros Hprog Hn. rewrite mainwrap_command, (arguments_cons _ _ Hprog).
  unfold command.
  rewrite !(eqb_command _ _ Hn) by (unfold commands; cbn [In]; tauto).
  rewrite !andb_false_r. reflexivity.
Qed.

(** X19. No command but [create] changes a file: the file [mainwrap] has
    opened is the one its second argument names, and has when [mainwrap]
    returns the bytes it had when it was opened. *)
Theorem only_create_writes
  (prog : String.string) (rest : list String.string)
  (r : Z * list message * option (String.string * ZFile.t)) :
  is_flag prog = false ->
  mainwrap (prog :: rest) = Some r ->
  arg (filter not_flag rest) 0 <> "create"%string ->
  match snd r with
  | Some (path, f) =>
      path = arg (filter not_flag rest) 1 /\
      ZFile.bytes f = ZFile.bytes (openFile path)
  | None => True
  end.
Proof.
  intros Hprog H Hc.
  rewrite mainwrap_command, (arguments_cons _ _ Hprog) in H.
  apply String.eqb_neq in Hc.
  unfold command in H. cbv zeta in H.
  rewrite Hc, andb_false_r, add_fields_run, addField_zero in H.
  unfold addRecord, ret in H. cbn [negb Z.eqb map] in H.
  destruct (forallb well_split _); split_hyps; try discriminate H;
    injection H as <-; cbn [snd]; try exact I;
    (split; [reflexivity | apply open_new_bytes]).
Qed.

(** X20. [add] adds no record: with a file and [field=value] arguments
    that split, it reports a bad field for each argument and then an
    error, changes no byte of the file, and returns [EXIT_SUCCESS]. *)
Theorem add_reports_error
  (prog file : String.string) (rest fields : list String.string) :
  is_flag prog = false ->
  filter not_flag rest = "add"%string :: file :: fields ->
  forallb well_split fields = true ->
  exists (errs : list message) (f : ZFile.t),
    mainwrap (prog :: rest)
    = Some (EXIT_SUCCESS,
            [MsgCommand (command_string (prog :: rest)); MsgAdding file]
              ++ errs ++ [ErrERROR],
            Some (file, f)) /\
    forallb is_field_error errs = true /\
    (length fields <= length errs)%nat /\
    ZFile.bytes f = ZFile.bytes (openFile file).
Proof.
  intros Hprog Hargs Hsplit.
  exists (add_errors fields),
         (_file (snd (open (new (openFile file) pagecount0)))).
  split; [|split; [apply add_errors_are_errors|
                   split; [apply add_errors_length|apply open_new_bytes]]].
  rewrite mainwrap_command, (arguments_cons _ _ Hprog), Hargs.
  unfold command. cbv zeta.
  change (String.eqb (arg ("add"%string :: file :: fields) 0) "create")
    with false.
  change (String.eqb (arg ("add"%string :: file :: fields) 0) "modify")
    with false.
  change (String.eqb (arg ("add"%string :: file :: fields) 0) "list")
    with false.
  change (String.eqb (arg ("add"%string :: file :: fields) 0) "add")
    with true.
  change (arg ("add"%string :: file :: fields) 1) with file.
  change (skipn 2 ("add"%string :: file :: fields)) with fields.
  rewrite !andb_false_r, andb_true_r.
  assert (Hc : 2 <= count ("add"%string :: file :: fields)).
  { unfold count. cbn [length]. lia. }
  replace (0 <? count ("add"%string :: file :: fields)) with true
    by (symmetry; apply Z.ltb_lt; lia).
  replace (count ("add"%string :: file :: fields) <? 2) with false
    by (symmetry; apply Z.ltb_ge; lia).
  rewrite add_fields_run, Hsplit. unfold addRecord, ret.
  cbn [map app]. rewrite app_nil_r, <- ?app_assoc. reflexivity.
Qed.

(** X21. [modify <file> addfield <name> <type>] adds no field: it reports
    the error with the name, changes no byte of the file and returns
    [EXIT_SUCCESS], whatever the name and the type are (the type argument
    is not read: the field type is looked up by the name). *)
Theorem addfield_reports_error
  (prog file name ty : String.string) (rest : list String.string) :
  is_flag prog = false ->
  filter not_flag rest = ["modify"; file; "addfield"; name; ty]%string ->
  exists f : ZFile.t,
    mainwrap (prog :: rest)
    = Some (EXIT_SUCCESS,
            [MsgCommand (command_string (prog :: rest)); MsgModifying file;
             MsgAddingField file; ErrCreatingField name name; MsgERROR],
            Some (file, f)) /\
    ZFile.bytes f = ZFile.bytes (openFile file).
Proof.
  intros Hprog Hargs.
  exists (_file (snd (open (new (openFile file) pagecount0)))).
  split; [|apply open_new_bytes].
  rewrite mainwrap_command, (arguments_cons _ _ Hprog), Hargs.
  unfold command. cbv zeta. rewrite addField_zero. reflexivity.
Qed.

(** X22. [create <file>] on a file that opens writes the head page and
    reports [OK]; [list <file>], run afterwards on a file that opens with
    the bytes [create] left, reports the page size 2048 and the maximum of
    131072 pages that [create] sets. *)
Theorem create_then_list
  (prog1 prog2 path : String.string) (rest1 rest2 : list String.string) :
  is_flag prog1 = false -> is_flag prog2 = false ->
  filter not_flag rest1 = ["create"; path]%string ->
  filter not_flag rest2 = ["list"; path]%string ->
  ZFile.isOpen (openFile path) = true ->
  exists f1 : ZFile.t,
    mainwrap (prog1 :: rest1)
    = Some (EXIT_SUCCESS,
            [MsgCommand (command_string (prog1 :: rest1)); MsgCreating path;
             MsgOK],
            Some (path, f1)) /\
    forall env2 : Environment,
      ZFile.isOpen (@openFile env2 path) = true ->
      ZFile.bytes (@openFile env2 path) = ZFile.bytes f1 ->
      exists f2 : ZFile.t,
        @mainwrap codec types tables env2 (prog2 :: rest2)
        = Some (EXIT_SUCCESS,
                [MsgCommand (command_string (prog2 :: rest2));
                 MsgListing path; MsgPageSize 2048; MsgMaxPages 131072],
                Some (path, f2)) /\
        ZFile.bytes f2 = ZFile.bytes f1.
Proof.
  intros Hp1 Hp2 Ha1 Ha2 Hopen.
  set (c := {| c_pagepower := 11; c_maxpages := 131072; c_freelistpage := 0;
               c_fieldpage := 0; c_indexpage := 0; c_recordpage := 0 |}).
  assert (Hwf : config_wf c).
  { unfold config_wf, c, is_zu8, is_zu32, ZU8_MOD, ZU32_MOD.
    cbn [c_pagepower c_maxpages c_freelistpage c_fieldpage c_indexpage
         c_recordpage]. lia. }
  destruct (openFile path) as [o b p] eqn:Ef. cbn [ZFile.isOpen] in Hopen.
  subst o.
  exists (ZFile.mk true (head_bytes c ++ skipn 29 b) 29). split.
  - rewrite mainwrap_command, (arguments_cons _ _ Hp1), Ha1.
    unfold command. cbv zeta.
    change (arg ["create"%string; path] 1) with path. rewrite Ef.
    change (snd (setMaxPages (64 * 1024 * 2)
                   (snd (setPageSize 11 (new (ZFile.mk true b p) pagecount0)))))
      with (mk (ZFile.mk true b p) false 2048 pagecount0 11 131072 0 0 0 0 []).
    rewrite create_run by reflexivity. reflexivity.
  - intros env2 Hopen2 Hbytes.
    destruct (@openFile env2 path) as [o2 b2 p2] eqn:Ef2.
    cbn [ZFile.isOpen ZFile.bytes] in Hopen2, Hbytes. subst o2 b2.
    exists (ZFile.mk true (head_bytes c ++ skipn 29 b) 29).
    split; [|reflexivity].
    rewrite mainwrap_command, (arguments_cons _ _ Hp2), Ha2.
    unfold command. cbv zeta.
    change (arg ["list"%string; path] 1) with path. rewrite Ef2.
    rewrite (open_run _ c (skipn 29 b) p2) by (reflexivity || exact Hwf).
    reflexivity.
Qed.

(** X23. The arguments that start with a dash are collected and never
    read: but for the line of the log that repeats the command line,
    [mainwrap] does with them what it does without them. *)
Theorem flags_are_ignored
  (prog : String.string) (rest : list String.string) :
  is_flag prog = false ->
  option_map but_command_line (mainwrap (prog :: rest))
  = option_map but_command_line (mainwrap (prog :: filter not_flag rest)).
Proof.
  intros Hprog.
  rewrite !mainwrap_command, !(arguments_cons _ _ Hprog), filter_not_flag_idem.
  rewrite (command_log _ [MsgCommand (command_string (prog :: rest))]).
  rewrite (command_log _ [MsgCommand
                            (command_string (prog :: filter not_flag rest))]).
  destruct (command (filter not_flag rest) []); reflexivity.
Qed.

End Runs.
Lemma mainwrap_returns_unless_field_unsplit_witness :
  is_flag "zparcel" = false /\
  @mainwrap BigEndianCodec SampleTypes SampleTables SampleEnvironment
    ["zparcel"; "add"; "a.parcel"; "name"]%string = None /\
  @mainwrap BigEndianCodec SampleTypes SampleTables SampleEnvironment
    ["zparcel"; "add"; "a.parcel"; "name=x"]%string <> None.
Proof.
  assert (H : is_flag "zparcel" = false) by reflexivity.
  split; [exact H|]. split.
  - apply (@mainwrap_returns_unless_field_unsplit BigEndianCodec SampleTypes
             SampleTables SampleEnvironment "zparcel"%string
             ["add"; "a.parcel"; "name"]%string H).
    repeat split. vm_compute. discriminate.
  - intros E.
    apply (@mainwrap_returns_unless_field_unsplit BigEndianCodec SampleTypes
             SampleTables SampleEnvironment "zparcel"%string
             ["add"; "a.parcel"; "name=x"]%string H) in E.
    destruct E as (_ & _ & E). discriminate E.
Defined.

Lemma exit_status_tells_usage_only_witness :
  let argv := ["zparcel"; "create"]%string in
  let r := (EXIT_FAILURE, [MsgCommand "zparcel create"; MsgUsageCreate],
            @None (String.string * ZFile.t)) in
  (is_flag "zparcel" = false /\
   @mainwrap BigEndianCodec SampleTypes SampleTables SampleEnvironment argv
   = Some r) /\
  (exit_status r = EXIT_SUCCESS \/ exit_status r = EXIT_FAILURE) /\
  (exit_status r = EXIT_FAILURE <-> is_usage (last (log_of r) MsgOK) = true) /\
  (forall (codec' : FileCodec) (types' : ZParcelTypes)
          (tables' : FieldTables) (env' : Environment)
          (r' : Z * list message * option (String.string * ZFile.t)),
      @mainwrap codec' types' tables' env' argv = Some r' ->
      exit_status r' = exit_status r).
Proof.
  intros argv r.
  assert (H : is_flag "zparcel" = false) by reflexivity.
  assert (E : @mainwrap BigEndianCodec SampleTypes SampleTables
                SampleEnvironment argv = Some r) by reflexivity.
  split; [exact (conj H E)|].
  exact (@exit_status_tells_usage_only BigEndianCodec SampleTypes SampleTables
           SampleEnvironment "zparcel"%string ["create"]%string r H E).
Defined.

Lemma unknown_command_opens_nothing_witness :
  (is_flag "zparcel" = false /\
   ~ In (arg (filter not_flag ["test.parcel"; "create"]%string) 0) commands) /\
  @mainwrap BigEndianCodec SampleTypes SampleTables SampleEnvironment
    ["zparcel"; "test.parcel"; "create"]%string
  = Some (EXIT_SUCCESS,
          [MsgCommand "zparcel test.parcel create"; MsgCommands], None).
Proof.
  assert (H : is_flag "zparcel" = false) by reflexivity.
  assert (N : ~ In (arg (filter not_flag ["test.parcel"; "create"]%string) 0)
                commands).
  { cbn. intuition discriminate. }
  split; [exact (conj H N)|].
  exact (@unknown_command_opens_nothing BigEndianCodec SampleTypes SampleTables
           SampleEnvironment "zparcel"%string
           ["test.parcel"; "create"]%string H N).
Defined.

Lemma only_create_writes_witness :
  let rest := ["list"; "a.parcel"]%string in
  (is_flag "zparcel" = false /\
   arg (filter not_flag rest) 0 <> "create"%string) /\
  match @mainwrap BigEndianCodec SampleTypes SampleTables SampleEnvironment
          ("zparcel"%string :: rest) with
  | Some r =>
      match snd r with
      | Some (path, f) =>
          path = arg (filter not_flag rest) 1 /\
          ZFile.bytes f = ZFile.bytes (@openFile SampleEnvironment path)
      | None => True
      end
  | None => False
  end.
Proof.
  intros rest.
  assert (H : is_flag "zparcel" = false) by reflexivity.
  assert (N : arg (filter not_flag rest) 0 <> "create"%string)
    by discriminate.
  split; [exact (conj H N)|].
  destruct (@mainwrap BigEndianCodec SampleTypes SampleTables
              SampleEnvironment ("zparcel"%string :: rest)) as [r|] eqn:E.
  - exact (@only_create_writes BigEndianCodec SampleTypes SampleTables
             SampleEnvironment "zparcel"%string rest r H E N).
  - vm_compute in E. discriminate E.
Defined.

Lemma add_reports_error_witness :
  let rest := ["add"; "a.parcel"; "name=x"; "-v"; "age=3"]%string in
  (is_flag "zparcel" = false /\
   filter not_flag rest = ["add"; "a.parcel"; "name=x"; "age=3"]%string /\
   forallb (@well_split SampleEnvironment) ["name=x"; "age=3"]%string = true) /\
  exists (errs : list message) (f : ZFile.t),
    @mainwrap BigEndianCodec SampleTypes SampleTables SampleEnvironment
      ("zparcel"%string :: rest)
    = Some (EXIT_SUCCESS,
            [MsgCommand (command_string ("zparcel"%string :: rest));
             MsgAdding "a.parcel"] ++ errs ++ [ErrERROR],
            Some ("a.parcel"%string, f)) /\
    forallb is_field_error errs = true /\
    (length ["name=x"; "age=3"]%string <= length errs)%nat /\
    ZFile.bytes f = ZFile.bytes (@openFile SampleEnvironment "a.parcel").
Proof.
  intros rest.
  assert (H : is_flag "zparcel" = false) by reflexivity.
  assert (A : filter not_flag rest
              = ["add"; "a.parcel"; "name=x"; "age=3"]%string) by reflexivity.
  assert (S : forallb (@well_split SampleEnvironment)
                ["name=x"; "age=3"]%string = true) by reflexivity.
  split; [exact (conj H (conj A S))|].
  exact (@add_reports_error BigEndianCodec SampleTypes SampleTables
           SampleEnvironment "zparcel"%string "a.parcel"%string rest
           ["name=x"; "age=3"]%string H A S).
Defined.

Lemma addfield_reports_error_witness :
  let rest := ["modify"; "a.parcel"; "addfield"; "age"; "uint"]%string in
  (is_flag "zparcel" = false /\ filter not_flag rest = rest) /\
  exists f : ZFile.t,
    @mainwrap BigEndianCodec SampleTypes SampleTables SampleEnvironment
      ("zparcel"%string :: rest)
    = Some (EXIT_SUCCESS,
            [MsgCommand (command_string ("zparcel"%string :: rest));
             MsgModifying "a.parcel"; MsgAddingField "a.parcel";
             ErrCreatingField "age" "age"; MsgERROR],
            Some ("a.parcel"%string, f)) /\
    ZFile.bytes f = ZFile.bytes (@openFile SampleEnvironment "a.parcel").
Proof.
  intros rest.
  assert (H : is_flag "zparcel" = false) by reflexivity.
  assert (A : filter not_flag rest = rest) by reflexivity.
  split; [exact (conj H A)|].
  exact (@addfield_reports_error BigEndianCodec SampleTypes SampleTables
           SampleEnvironment "zparcel"%string "a.parcel"%string "age"%string
           "uint"%string rest H A).
Defined.

Lemma create_then_list_witness :
  let rest1 := ["create"; "a.parcel"]%string in
  let rest2 := ["list"; "a.parcel"]%string in
  (is_flag "zparcel" = false /\
   filter not_flag rest1 = rest1 /\ filter not_flag rest2 = rest2 /\
   ZFile.isOpen (@openFile SampleEnvironment "a.parcel") = true) /\
  exists f1 : ZFile.t,
    @mainwrap BigEndianCodec SampleTypes SampleTables SampleEnvironment
      ("zparcel"%string :: rest1)
    = Some (EXIT_SUCCESS,
            [MsgCommand (command_string ("zparcel"%string :: rest1));
             MsgCreating "a.parcel"; MsgOK],
            Some ("a.parcel"%string, f1)) /\
    forall env2 : Environment,
      ZFile.isOpen (@openFile env2 "a.parcel") = true ->
      ZFile.bytes (@openFile env2 "a.parcel") = ZFile.bytes f1 ->
      exists f2 : ZFile.t,
        @mainwrap BigEndianCodec SampleTypes SampleTables env2
          ("zparcel"%string :: rest2)
        = Some (EXIT_SUCCESS,
                [MsgCommand (command_string ("zparcel"%string :: rest2));
                 MsgListing "a.parcel"; MsgPageSize 2048; MsgMaxPages 131072],
                Some ("a.parcel"%string, f2)) /\
        ZFile.bytes f2 = ZFile.bytes f1.
Proof.
  intros rest1 rest2.
  assert (H : is_flag "zparcel" = false) by reflexivity.
  assert (A1 : filter not_flag rest1 = rest1) by reflexivity.
  assert (A2 : filter not_flag rest2 = rest2) by reflexivity.
  assert (O : ZFile.isOpen (@openFile SampleEnvironment "a.parcel") = true)
    by reflexivity.
  split; [exact (conj H (conj A1 (conj A2 O)))|].
  exact (@create_then_list BigEndianCodec SampleTypes SampleTables
           SampleEnvironment "zparcel"%string "zparcel"%string
           "a.parcel"%string rest1 rest2 H H A1 A2 O).
Defined.

Lemma flags_are_ignored_witness :
  is_flag "zparcel" = false /\
  option_map but_command_line
    (@mainwrap BigEndianCodec SampleTypes SampleTables SampleEnvironment
       ["zparcel"; "-v"; "list"; "-x"; "a.parcel"]%string)
  = option_map but_command_line
      (@mainwrap BigEndianCodec SampleTypes SampleTables SampleEnvironment
         ["zparcel"; "list"; "a.parcel"]%string).
Proof.
  assert (H : is_flag "zparcel" = false) by reflexivity.
  split; [exact H|].
  exact (@flags_are_ignored BigEndianCodec SampleTypes SampleTables
           SampleEnvironment "zparcel"%string
           ["-v"; "list"; "-x"; "a.parcel"]%string H).
Defined.

End MainFacts.
